(** * ControlNet variants of hellomeme/models/hm_control.py

    The five [nn.Module] classes of [hm_control.py] declare a tensor
    computation graph.  The development models a forward call as a program in
    a small state-and-exception monad over

    - a heap of tensor objects (a tensor is represented by its shape; the
      floating-point payload is not tracked),
    - the module object [self] with its configuration fields and sub-modules,
    - a trace of the framework operations the call performed, each with its
      arguments and its outcome.

    References to tensors are heap locations, so aliasing in the returned
    dictionary is visible; the trace records which sub-module ran on which
    tensor and in which order. *)

From Stdlib Require Import ZArith List Lia Ascii String.
From Stdlib Require QArith_base.
From stdpp Require Import base list strings pretty.

Open Scope string_scope.
Open Scope list_scope.
Open Scope nat_scope.

(** ** Python values, exceptions, results *)

Definition loc := nat.

(** A forward argument is either [None] or a reference to a tensor object. *)
Inductive value :=
| VNone
| VTensor (l : loc).

Inductive exn :=
| TypeError
| ValueError
| AttributeError
| KeyError
| IndexError
| ZeroDivisionError
| AssertionError
| RuntimeError
| EinopsError.

Inductive result (A : Type) :=
| Ok (a : A)
| Err (e : exn).
Arguments Ok {A} a.
Arguments Err {A} e.

Definition shape := list nat.

(** A Python float literal such as [500.] is carried as the rational it
    denotes. *)
Definition pyfloat := QArith_base.Q.
Definition float_of (z : Z) : pyfloat := QArith_base.Qmake z 1.

(** ** einops patterns

    [rearrange(t, "b c f h w -> (b f) c h w", f=...)] is modelled on shapes.
    The pattern text is lexed and parsed into the composition of each side
    (a list of groups of axis names), the lengths of the axes are inferred
    from the input shape and the keyword lengths, and the output shape is
    the product of the lengths in each output group. *)

Module Einops.

Inductive token :=
| TAxis (name : string)
| TOpen
| TClose
| TArrow.

Definition flush (cur : string) : list token :=
  match cur with
  | EmptyString => []
  | _ => [TAxis cur]
  end.

Fixpoint lex (s cur : string) : list token :=
  match s with
  | EmptyString => flush cur
  | String c rest =>
      if Ascii.eqb c " "%char then flush cur ++ lex rest ""
      else if Ascii.eqb c "("%char then flush cur ++ TOpen :: lex rest ""
      else if Ascii.eqb c ")"%char then flush cur ++ TClose :: lex rest ""
      else if Ascii.eqb c "-"%char then flush cur ++ lex rest ""
      else if Ascii.eqb c ">"%char then flush cur ++ TArrow :: lex rest ""
      else lex rest (cur +:+ String c "")
  end.

Fixpoint split_arrow (ts : list token) : list token * list token :=
  match ts with
  | [] => ([], [])
  | TArrow :: r => ([], r)
  | t :: r => let (l, r') := split_arrow r in (t :: l, r')
  end.

Fixpoint groups (ts : list token) (inside : option (list string))
  : list (list string) :=
  match ts with
  | [] => []
  | TAxis a :: r =>
      match inside with
      | None => [a] :: groups r None
      | Some g => groups r (Some (g ++ [a]))
      end
  | TOpen :: r => groups r (Some [])
  | TClose :: r =>
      match inside with
      | Some g => g :: groups r None
      | None => groups r None
      end
  | TArrow :: r => groups r inside
  end.

Definition parse (pattern : string)
  : list (list string) * list (list string) :=
  let (l, r) := split_arrow (lex pattern "") in
  (groups l None, groups r None).

Definition axes := list (string * nat).

Fixpoint axis_length (a : string) (env : axes) : option nat :=
  match env with
  | [] => None
  | (b, n) :: env' => if String.eqb a b then Some n else axis_length a env'
  end.

Fixpoint prod (l : list nat) : nat :=
  match l with
  | [] => 1
  | [x] => x
  | x :: r => x * prod r
  end.

(** The known lengths and the unknown axes of one input group. *)
Fixpoint known_unknown (g : list string) (env : axes)
  : list nat * list string :=
  match g with
  | [] => ([], [])
  | a :: r =>
      let (k, u) := known_unknown r env in
      match axis_length a env with
      | Some n => (n :: k, u)
      | None => (k, a :: u)
      end
  end.

Fixpoint infer (lhs : list (list string)) (sh : shape) (env : axes)
  : result axes :=
  match lhs, sh with
  | [], [] => Ok env
  | g :: lhs', len :: sh' =>
      match known_unknown g env with
      | ([], [a]) => infer lhs' sh' ((a, len) :: env)
      | (k, []) =>
          if len =? prod k then infer lhs' sh' env else Err EinopsError
      | (k, [a]) =>
          if prod k =? 0 then Err ZeroDivisionError
          else if len mod prod k =? 0
               then infer lhs' sh' ((a, len / prod k) :: env)
               else Err EinopsError
      | _ => Err EinopsError
      end
  | _, _ => Err EinopsError
  end.

Fixpoint group_lengths (g : list string) (env : axes) : option (list nat) :=
  match g with
  | [] => Some []
  | a :: r =>
      match axis_length a env, group_lengths r env with
      | Some n, Some ns => Some (n :: ns)
      | _, _ => None
      end
  end.

Fixpoint compose (rhs : list (list string)) (env : axes) : result shape :=
  match rhs with
  | [] => Ok []
  | g :: rhs' =>
      match group_lengths g env, compose rhs' env with
      | Some ns, Ok sh => Ok (prod ns :: sh)
      | _, Err e => Err e
      | None, _ => Err EinopsError
      end
  end.


Definition rearrange_shape (pattern : string) (axes_lengths : axes)
    (sh : shape) : result shape :=
  let (lhs, rhs) := parse pattern in
  match infer lhs sh axes_lengths with
  | Ok env => compose rhs env
  | Err e => Err e
  end.

End Einops.

(** ** Sub-modules

    The configuration each layer is constructed with.  [Conv2d] is
    [torch.nn.Conv2d], [Timesteps] and [TimestepEmbedding] are the diffusers
    embedding layers, [SKCrossAttention] is the fusion block of
    [hm_blocks]. *)

Module Conv2d.
Record t := {
  in_channels : nat;
  out_channels : nat;
  kernel_size : nat;
  padding : nat;
  bias : bool }.
End Conv2d.

Module Timesteps.
Record t := {
  num_channels : nat;
  flip_sin_to_cos : bool;
  downscale_freq_shift : Z }.
End Timesteps.

Module TimestepEmbedding.
Record t := {
  in_channels : nat;
  time_embed_dim : nat }.
End TimestepEmbedding.

Module SKCrossAttention.
Record t := {
  channel_in : nat;
  channel_out : nat;
  cross_attention_dim : nat;
  num_positional_embeddings : nat;
  num_positional_embeddings_hidden : nat }.
End SKCrossAttention.

(** The fusion block lives in [hm_blocks]; its forward is an interface of
    this file: from the shapes of the feature map and of the driving
    embedding it gives the shape of the fused feature map, or raises. *)
Class HMBlocks :=
  SKCrossAttention_forward : SKCrossAttention.t -> shape -> shape -> result shape.

(** ** Operations and the trace *)

(** How the source reaches the sub-module it calls: [self.name] or
    [self.name[idx]]. *)
Inductive callee :=
| Sub (name : string)
| SubItem (name : string) (idx : nat).

Inductive op :=
| GetShape                                            (* x.shape *)
| Unpack (n : nat)                                    (* a, b, ... = seq *)
| FloorDiv                                            (* a // b *)
| GetItem (key : string)                              (* d[key] *)
| Mul (c : pyfloat)                                   (* x * c *)
| Rearrange (pattern : string) (axes_lengths : Einops.axes)
| Interpolate (size : Z * Z)                          (* F.interpolate *)
| ToDtypeOf                                           (* x.to(dtype=y.dtype) *)
| Cat (dim : nat)                                     (* torch.cat *)
| Call (f : callee).                                  (* self.f(...) *)

Inductive outcome :=
| Fresh (l : loc)     (* returned a new tensor object *)
| Pure                (* returned a Python value, no tensor allocated *)
| Raised (e : exn).

Record event := {
  ev_op : op;
  ev_args : list value;
  ev_out : outcome }.

(** ** The monad *)

Record state (S : Type) := {
  self : S;
  heap : list shape;
  trace : list event }.
Arguments self {S} s.
Arguments heap {S} s.
Arguments trace {S} s.

Definition M (S A : Type) := state S -> result A * state S.

Section Machine.
Context {S : Type}.

Definition ret {A} (a : A) : M S A := fun s => (Ok a, s).

Definition bind {A B} (m : M S A) (k : A -> M S B) : M S B :=
  fun s =>
    match m s with
    | (Ok a, s') => k a s'
    | (Err e, s') => (Err e, s')
    end.

(** [self.f]: reading an attribute of the module. *)
Definition attr {A} (f : S -> A) : M S A := fun s => (Ok (f (self s)), s).

(** [self.f = v]: no forward uses it. *)
Definition set_self (v : S) : M S unit :=
  fun s => (Ok tt, {| self := v; heap := heap s; trace := trace s |}).

(** [raise e] written in this file: no forward uses it. *)
Definition raise {A} (e : exn) : M S A := fun s => (Err e, s).

Definition log (s : state S) (new : list shape) (ev : event) : state S :=
  {| self := self s; heap := heap s ++ new; trace := trace s ++ [ev] |}.

(** A framework operation that returns a new tensor or raises. *)
Definition tensor_op (o : op) (args : list value)
    (sem : list shape -> result shape) : M S value :=
  fun s =>
    match sem (heap s) with
    | Ok sh =>
        (Ok (VTensor (length (heap s))),
         log s [sh] {| ev_op := o; ev_args := args;
                       ev_out := Fresh (length (heap s)) |})
    | Err e =>
        (Err e, log s [] {| ev_op := o; ev_args := args; ev_out := Raised e |})
    end.

(** An operation of the interpreter that returns a Python value or raises. *)
Definition py_op {A} (o : op) (args : list value)
    (sem : list shape -> result A) : M S A :=
  fun s =>
    match sem (heap s) with
    | Ok a =>
        (Ok a, log s [] {| ev_op := o; ev_args := args; ev_out := Pure |})
    | Err e =>
        (Err e, log s [] {| ev_op := o; ev_args := args; ev_out := Raised e |})
    end.

End Machine.

Notation "'let*' x := m 'in' k" := (bind m (fun x => k))
  (at level 10, x name, m at level 100, k at level 200, only parsing).
Notation "'let*' ' p := m 'in' k" := (bind m (fun x => let 'p := x in k))
  (at level 10, p pattern, m at level 100, k at level 200, only parsing).

(** A call starts with the caller's heap and an empty trace. *)
Definition run {S A} (m : M S A) (obj : S) (h : list shape)
  : result A * state S :=
  m {| self := obj; heap := h; trace := [] |}.

(** ** Shape rules of the framework operations *)

Definition rbind {A B} (r : result A) (k : A -> result B) : result B :=
  match r with
  | Ok a => k a
  | Err e => Err e
  end.

(** The shape of the tensor an argument refers to; [none] is what the
    operation raises on [None]. *)
Definition tensor_shape (h : list shape) (x : value) (none : exn)
  : result shape :=
  match x with
  | VNone => Err none
  | VTensor l =>
      match h !! l with
      | Some sh => Ok sh
      | None => Err RuntimeError
      end
  end.

Definition unpack5_shape (sh : shape) : result (nat * nat * nat * nat * nat) :=
  match sh with
  | [a; b; c; d; e] => Ok (a, b, c, d, e)
  | _ => Err ValueError
  end.

Definition floordiv_int (a : nat) (b : Z) : result Z :=
  if (b =? 0)%Z then Err ZeroDivisionError else Ok (Z.of_nat a / b)%Z.

(** [F.interpolate(x, size=(h, w), mode='bilinear')]: a non-empty 4-D input
    and positive output sizes. *)
Definition interpolate_shape (size : Z * Z) (sh : shape) : result shape :=
  match sh with
  | [n; c; h; w] =>
      if (0 <? c) && (0 <? h) && (0 <? w)
         && (0 <? fst size)%Z && (0 <? snd size)%Z
      then Ok [n; c; Z.to_nat (fst size); Z.to_nat (snd size)]
      else Err RuntimeError
  | _ => Err ValueError
  end.

(** [nn.Conv2d] with stride 1: batched 4-D input whose channel count is
    [in_channels]. *)
Definition conv2d_shape (m : Conv2d.t) (sh : shape) : result shape :=
  match sh with
  | [n; c; h; w] =>
      if (c =? Conv2d.in_channels m)
         && (Conv2d.kernel_size m <=? h + 2 * Conv2d.padding m)
         && (Conv2d.kernel_size m <=? w + 2 * Conv2d.padding m)
      then Ok [n; Conv2d.out_channels m;
               h + 2 * Conv2d.padding m - Conv2d.kernel_size m + 1;
               w + 2 * Conv2d.padding m - Conv2d.kernel_size m + 1]
      else Err RuntimeError
  | _ => Err RuntimeError
  end.

(** [Timesteps]: asserts a 1-D input and appends the embedding axis. *)
Definition timesteps_shape (m : Timesteps.t) (sh : shape) : result shape :=
  match sh with
  | [n] => Ok [n; Timesteps.num_channels m]
  | _ => Err AssertionError
  end.

(** [TimestepEmbedding]: two linear layers on the last axis. *)
Fixpoint linear_shape (i o : nat) (sh : shape) : result shape :=
  match sh with
  | [] => Err RuntimeError
  | [d] => if d =? i then Ok [o] else Err RuntimeError
  | d :: sh' => rbind (linear_shape i o sh') (fun r => Ok (d :: r))
  end.

Definition timestep_embedding_shape (m : TimestepEmbedding.t) (sh : shape)
  : result shape :=
  rbind (linear_shape (TimestepEmbedding.in_channels m)
                      (TimestepEmbedding.time_embed_dim m) sh)
        (linear_shape (TimestepEmbedding.time_embed_dim m)
                      (TimestepEmbedding.time_embed_dim m)).

Fixpoint shape_eqb (a b : shape) : bool :=
  match a, b with
  | [], [] => true
  | x :: a', y :: b' => (x =? y) && shape_eqb a' b'
  | _, _ => false
  end.

(** [torch.cat([a, b], dim)]: equal sizes off the concatenated axis. *)
Fixpoint cat_shape (dim : nat) (a b : shape) : result shape :=
  match a, b, dim with
  | x :: a', y :: b', 0 =>
      if shape_eqb a' b' then Ok (x + y :: a') else Err RuntimeError
  | x :: a', y :: b', Datatypes.S d =>
      if x =? y then rbind (cat_shape d a' b') (fun r => Ok (x :: r))
      else Err RuntimeError
  | _, _, _ => Err RuntimeError
  end.

(** ** The framework operations in the monad *)

Section Ops.
Context {S : Type} `{HMBlocks}.

Definition get_shape (x : value) : M S shape :=
  py_op GetShape [x] (fun h => tensor_shape h x AttributeError).

Definition unpack5 (sh : shape) : M S (nat * nat * nat * nat * nat) :=
  py_op (Unpack 5) [] (fun _ => unpack5_shape sh).

Definition floordiv (a : nat) (b : Z) : M S Z :=
  py_op FloorDiv [] (fun _ => floordiv_int a b).

Definition mul (x : value) (c : pyfloat) : M S value :=
  tensor_op (Mul c) [x] (fun h => tensor_shape h x TypeError).

Definition rearrange (x : value) (pattern : string)
    (axes_lengths : Einops.axes) : M S value :=
  tensor_op (Rearrange pattern axes_lengths) [x]
    (fun h => rbind (tensor_shape h x RuntimeError)
                    (Einops.rearrange_shape pattern axes_lengths)).

Definition interpolate (x : value) (size : Z * Z) : M S value :=
  tensor_op (Interpolate size) [x]
    (fun h => rbind (tensor_shape h x AttributeError) (interpolate_shape size)).

Definition to_dtype_of (x like : value) : M S value :=
  tensor_op ToDtypeOf [x; like]
    (fun h => rbind (tensor_shape h like AttributeError)
                    (fun _ => tensor_shape h x AttributeError)).

Definition cat (a b : value) (dim : nat) : M S value :=
  tensor_op (Cat dim) [a; b]
    (fun h => rbind (tensor_shape h a TypeError) (fun sa =>
              rbind (tensor_shape h b TypeError) (fun sb =>
              cat_shape dim sa sb))).

Definition conv2d (f : callee) (m : Conv2d.t) (x : value) : M S value :=
  tensor_op (Call f) [x]
    (fun h => rbind (tensor_shape h x TypeError) (conv2d_shape m)).

Definition timesteps (f : callee) (m : Timesteps.t) (x : value) : M S value :=
  tensor_op (Call f) [x]
    (fun h => rbind (tensor_shape h x AttributeError) (timesteps_shape m)).

Definition timestep_embedding (f : callee) (m : TimestepEmbedding.t)
    (x : value) : M S value :=
  tensor_op (Call f) [x]
    (fun h => rbind (tensor_shape h x TypeError) (timestep_embedding_shape m)).

Definition sk_cross_attention (f : callee) (m : SKCrossAttention.t)
    (x y : value) : M S value :=
  tensor_op (Call f) [x; y]
    (fun h => rbind (tensor_shape h x AttributeError) (fun sx =>
              rbind (tensor_shape h y AttributeError) (fun sy =>
              SKCrossAttention_forward m sx sy))).

End Ops.

(** ** Dictionaries and loops *)

(** A Python [dict] keeps its keys in insertion order; assigning to an
    existing key replaces the value in place. *)
Definition pydict := list (string * value).

Fixpoint dict_set (d : pydict) (k : string) (v : value) : pydict :=
  match d with
  | [] => [(k, v)]
  | (k', v') :: d' =>
      if String.eqb k' k then (k', v) :: d' else (k', v') :: dict_set d' k v
  end.

Fixpoint dict_get (d : pydict) (k : string) : option value :=
  match d with
  | [] => None
  | (k', v') :: d' => if String.eqb k' k then Some v' else dict_get d' k
  end.

Definition keys (d : pydict) : list string := map fst d.

Definition getitem {S} (d : pydict) (k : string) : M S value :=
  py_op (GetItem k) []
    (fun _ => match dict_get d k with
              | Some v => Ok v
              | None => Err KeyError
              end).

(** [for idx, x in enumerate(items): locals = body idx x locals]. *)
Fixpoint for_enumerate {S B L} (items : list B) (idx : nat)
    (body : nat -> B -> L -> M S L) (locals : L) : M S L :=
  match items with
  | [] => ret locals
  | x :: items' =>
      let* locals' := body idx x locals in
      for_enumerate items' (Datatypes.S idx) body locals'
  end.

(** ** Parameters of the framework layers

    The names under which a layer registers its learned parameters: a
    [Conv2d] has a weight and, when configured, a bias; [Timesteps] is a
    fixed sinusoidal encoding without parameters; [TimestepEmbedding] is two
    linear layers. *)




(** ** Construction

    The five [__init__] methods take the same keyword arguments and differ
    in their defaults. *)

Record config := {
  cfg_embedding_channels : nat;
  cfg_input_channels : nat;
  cfg_scale_factor : Z;
  cfg_cross_attention_dim : nat;
  cfg_block_out_channels : list nat }.

(** [block_out_channels[i]] for an index the constructor has in range. *)
Definition item (l : list nat) (i : nat) : nat := nth i l 0.

(** [block_out_channels[0]], which raises on an empty tuple. *)
Definition first_item (l : list nat) : result nat :=
  match l with
  | [] => Err IndexError
  | x :: _ => Ok x
  end.

(** [range(a, b)]. *)
Definition range (a b : nat) : list nat := seq a (b - a).

(** ** HMControlNet *)

Module HMControlNet.

Record t := {
  scale_factor : Z;
  embedding_channels : nat;
  cross_attention_dim : nat;
  conv_in : Conv2d.t;
  exp_embedding : Timesteps.t;
  exp_proj : TimestepEmbedding.t;
  face_proj : TimestepEmbedding.t;
  blocks_down : list SKCrossAttention.t }.

Definition default_config : config := {|
  cfg_embedding_channels := 1280;
  cfg_input_channels := 3;
  cfg_scale_factor := 8;
  cfg_cross_attention_dim := 320;
  cfg_block_out_channels := [128; 320; 640; 1280] |}.

Definition init (c : config) : result t :=
  let block_out_channels := cfg_block_out_channels c in
  let cross_attention_dim := cfg_cross_attention_dim c in
  rbind (first_item block_out_channels) (fun c0 =>
  Ok {|
    scale_factor := cfg_scale_factor c;
    embedding_channels := cfg_embedding_channels c;
    cross_attention_dim := cross_attention_dim;
    conv_in := {| Conv2d.in_channels := cfg_input_channels c;
                  Conv2d.out_channels := c0;
                  Conv2d.kernel_size := 3;
                  Conv2d.padding := 1;
                  Conv2d.bias := false |};
    exp_embedding := {| Timesteps.num_channels := cross_attention_dim;
                        Timesteps.flip_sin_to_cos := true;
                        Timesteps.downscale_freq_shift := 0 |};
    exp_proj := {| TimestepEmbedding.in_channels := cross_attention_dim;
                   TimestepEmbedding.time_embed_dim := cross_attention_dim |};
    face_proj := {| TimestepEmbedding.in_channels := 1024;
                    TimestepEmbedding.time_embed_dim := cross_attention_dim |};
    blocks_down :=
      map (fun i =>
             {| SKCrossAttention.channel_in := item block_out_channels (i - 1);
                SKCrossAttention.channel_out := item block_out_channels i;
                SKCrossAttention.cross_attention_dim := cross_attention_dim;
                SKCrossAttention.num_positional_embeddings := 64;
                SKCrossAttention.num_positional_embeddings_hidden := 64 |})
          (range 1 (length block_out_channels)) |}).

Section Forward.
Context `{HMBlocks}.

Definition forward (condition drive_coeff face_parts : value) : M t pydict :=
  let* sh := get_shape condition in
  let* '(bs, _, video_length, h, w) := unpack5 sh in
  let* condition := rearrange condition "b c f h w -> (b f) c h w" [] in
  let* sf := attr scale_factor in
  let* size_h := floordiv h sf in
  let* sf := attr scale_factor in
  let* size_w := floordiv w sf in
  let* conditioning := interpolate condition (size_h, size_w) in
  let* conv := attr conv_in in
  let* embedding := conv2d (Sub "conv_in") conv conditioning in

  let* scaled := mul drive_coeff (float_of 500) in
  let* drive_coeff := rearrange scaled "b f c -> (b f c)" [] in
  let* emb := attr exp_embedding in
  let* drive_embedding := timesteps (Sub "exp_embedding") emb drive_coeff in
  let* drive_embedding := to_dtype_of drive_embedding embedding in
  let* d := attr cross_attention_dim in
  let* drive_embedding :=
    rearrange drive_embedding "(b f c) d -> b f c d"
              [("b", bs); ("f", video_length); ("d", d)] in

  let* face_parts := rearrange face_parts "b f c d -> (b f) c d" [] in
  let* proj := attr face_proj in
  let* face_embedding := timestep_embedding (Sub "face_proj") proj face_parts in

  let* face_embedding :=
    rearrange face_embedding "(b f) c d -> b f c d" [("f", video_length)] in

  let* drive_embedding := cat face_embedding drive_embedding 2 in
  let* drive_embedding :=
    rearrange drive_embedding "b f c d -> (b f) c d" [] in

  let* proj := attr exp_proj in
  let* drive_embedding :=
    timestep_embedding (Sub "exp_proj") proj drive_embedding in

  let ret_dict : pydict := [] in
  let* blocks := attr blocks_down in
  let* '(_, ret_dict) :=
    for_enumerate blocks 0
      (fun idx block '(embedding, ret_dict) =>
         let* embedding :=
           sk_cross_attention (SubItem "blocks_down" idx) block
                              embedding drive_embedding in
         let* out :=
           rearrange embedding "(b f) c h w -> b c f h w"
                     [("f", video_length)] in
         ret (embedding, dict_set ret_dict ("down_" +:+ pretty idx) out))
      (embedding, ret_dict) in
  ret ret_dict.

End Forward.
End HMControlNet.

(** ** HMControlNet2 *)

Module HMControlNet2.

Record t := {
  scale_factor : Z;
  embedding_channels : nat;
  cross_attention_dim : nat;
  conv_in : Conv2d.t;
  exp_embedding : Timesteps.t;
  emo_proj : TimestepEmbedding.t;
  blocks_down : list SKCrossAttention.t }.

Definition default_config : config := {|
  cfg_embedding_channels := 1280;
  cfg_input_channels := 3;
  cfg_scale_factor := 8;
  cfg_cross_attention_dim := 320;
  cfg_block_out_channels := [128; 320; 640; 1280] |}.

Definition init (c : config) : result t :=
  let block_out_channels := cfg_block_out_channels c in
  let cross_attention_dim := cfg_cross_attention_dim c in
  rbind (first_item block_out_channels) (fun c0 =>
  Ok {|
    scale_factor := cfg_scale_factor c;
    embedding_channels := cfg_embedding_channels c;
    cross_attention_dim := cross_attention_dim;
    conv_in := {| Conv2d.in_channels := cfg_input_channels c;
                  Conv2d.out_channels := c0;
                  Conv2d.kernel_size := 3;
                  Conv2d.padding := 1;
                  Conv2d.bias := false |};
    exp_embedding := {| Timesteps.num_channels := cross_attention_dim;
                        Timesteps.flip_sin_to_cos := true;
                        Timesteps.downscale_freq_shift := 0 |};
    emo_proj := {| TimestepEmbedding.in_channels := cross_attention_dim;
                   TimestepEmbedding.time_embed_dim := cross_attention_dim |};
    blocks_down :=
      map (fun i =>
             {| SKCrossAttention.channel_in := item block_out_channels (i - 1);
                SKCrossAttention.channel_out := item block_out_channels i;
                SKCrossAttention.cross_attention_dim := cross_attention_dim;
                SKCrossAttention.num_positional_embeddings := 64;
                SKCrossAttention.num_positional_embeddings_hidden := 1024 |})
          (range 1 (length block_out_channels)) |}).

Section Forward.
Context `{HMBlocks}.

Definition forward (condition emo_embedding : value) : M t pydict :=
  let* sh := get_shape condition in
  let* '(bs, _, video_length, h, w) := unpack5 sh in
  let* condition := rearrange condition "b c f h w -> (b f) c h w" [] in
  let* sf := attr scale_factor in
  let* size_h := floordiv h sf in
  let* sf := attr scale_factor in
  let* size_w := floordiv w sf in
  let* condition := interpolate condition (size_h, size_w) in
  let* conv := attr conv_in in
  let* embedding := conv2d (Sub "conv_in") conv condition in

  let* scaled := mul emo_embedding (float_of 20) in
  let* drive_coeff := rearrange scaled "b f c -> (b f c)" [] in
  let* emb := attr exp_embedding in
  let* drive_embedding := timesteps (Sub "exp_embedding") emb drive_coeff in
  let* drive_embedding := to_dtype_of drive_embedding embedding in
  let* d := attr cross_attention_dim in
  let* drive_embedding :=
    rearrange drive_embedding "(b f c) d -> b f c d"
              [("b", bs); ("f", video_length); ("d", d)] in
  let* drive_embedding :=
    rearrange drive_embedding "b f c d -> (b f) c d" [] in
  let* proj := attr emo_proj in
  let* drive_embedding :=
    timestep_embedding (Sub "emo_proj") proj drive_embedding in

  let ret_dict : pydict := [] in
  let* blocks := attr blocks_down in
  let* '(_, ret_dict) :=
    for_enumerate blocks 0
      (fun idx block '(embedding, ret_dict) =>
         let* embedding :=
           sk_cross_attention (SubItem "blocks_down" idx) block
                              embedding drive_embedding in
         let* out :=
           rearrange embedding "(b f) c h w -> b c f h w"
                     [("f", video_length)] in
         ret (embedding, dict_set ret_dict ("down2_" +:+ pretty idx) out))
      (embedding, ret_dict) in
  ret ret_dict.

End Forward.
End HMControlNet2.

(** ** HMV2ControlNet *)

Module HMV2ControlNet.

Record t := {
  scale_factor : Z;
  embedding_channels : nat;
  cross_attention_dim : nat;
  conv_in : Conv2d.t;
  exp_embedding : Timesteps.t;
  exp_proj : TimestepEmbedding.t;
  face_proj : TimestepEmbedding.t;
  blocks_down : list SKCrossAttention.t }.

Definition default_config : config := {|
  cfg_embedding_channels := 1280;
  cfg_input_channels := 3;
  cfg_scale_factor := 4;
  cfg_cross_attention_dim := 320;
  cfg_block_out_channels := [128; 640; 1280; 1280; 1280] |}.

Definition init (c : config) : result t :=
  let block_out_channels := cfg_block_out_channels c in
  let cross_attention_dim := cfg_cross_attention_dim c in
  rbind (first_item block_out_channels) (fun c0 =>
  Ok {|
    scale_factor := cfg_scale_factor c;
    embedding_channels := cfg_embedding_channels c;
    cross_attention_dim := cross_attention_dim;
    conv_in := {| Conv2d.in_channels := cfg_input_channels c;
                  Conv2d.out_channels := c0;
                  Conv2d.kernel_size := 3;
                  Conv2d.padding := 1;
                  Conv2d.bias := false |};
    exp_embedding := {| Timesteps.num_channels := cross_attention_dim;
                        Timesteps.flip_sin_to_cos := true;
                        Timesteps.downscale_freq_shift := 0 |};
    exp_proj := {| TimestepEmbedding.in_channels := cross_attention_dim;
                   TimestepEmbedding.time_embed_dim := cross_attention_dim |};
    face_proj := {| TimestepEmbedding.in_channels := 1024;
                    TimestepEmbedding.time_embed_dim := cross_attention_dim |};
    blocks_down :=
      map (fun i =>
             {| SKCrossAttention.channel_in := item block_out_channels (i - 1);
                SKCrossAttention.channel_out := item block_out_channels i;
                SKCrossAttention.cross_attention_dim := cross_attention_dim;
                SKCrossAttention.num_positional_embeddings := 64;
                SKCrossAttention.num_positional_embeddings_hidden := 1024 |})
          (range 1 (length block_out_channels)) |}).

Section Forward.
Context `{HMBlocks}.

Definition forward (condition drive_coeff face_parts : value) : M t pydict :=
  let* sh := get_shape condition in
  let* '(bs, _, video_length, h, w) := unpack5 sh in
  let* conditioning := rearrange condition "b c f h w -> (b f) c h w" [] in
  let* sf := attr scale_factor in
  let* size_h := floordiv h sf in
  let* sf := attr scale_factor in
  let* size_w := floordiv w sf in
  let* conditioning := interpolate conditioning (size_h, size_w) in
  let* conv := attr conv_in in
  let* embedding := conv2d (Sub "conv_in") conv conditioning in

  let* scaled := mul drive_coeff (float_of 500) in
  let* drive_coeff := rearrange scaled "b f c -> (b f c)" [] in
  let* emb := attr exp_embedding in
  let* drive_embedding := timesteps (Sub "exp_embedding") emb drive_coeff in
  let* drive_embedding := to_dtype_of drive_embedding embedding in
  let* d := attr cross_attention_dim in
  let* drive_embedding :=
    rearrange drive_embedding "(b f c) d -> b f c d"
              [("b", bs); ("f", video_length); ("d", d)] in

  let* face_parts := rearrange face_parts "b f c d -> (b f) c d" [] in
  let* proj := attr face_proj in
  let* face_embedding := timestep_embedding (Sub "face_proj") proj face_parts in

  let* face_embedding :=
    rearrange face_embedding "(b f) c d -> b f c d" [("f", video_length)] in

  let* drive_embedding := cat face_embedding drive_embedding 2 in
  let* drive_embedding :=
    rearrange drive_embedding "b f c d -> (b f) c d" [] in

  let* proj := attr exp_proj in
  let* drive_embedding :=
    timestep_embedding (Sub "exp_proj") proj drive_embedding in

  let ret_dict : pydict := [] in
  let* blocks := attr blocks_down in
  let* '(_, ret_dict) :=
    for_enumerate blocks 0
      (fun idx block '(embedding, ret_dict) =>
         let* embedding :=
           sk_cross_attention (SubItem "blocks_down" idx) block
                              embedding drive_embedding in
         let* out :=
           rearrange embedding "(b f) c h w -> b c f h w"
                     [("f", video_length)] in
         let* n := attr (fun self => length (blocks_down self)) in
         let up_idx := (Z.of_nat n - Z.of_nat idx - 1)%Z in
         ret (embedding, dict_set ret_dict ("up_v2_" +:+ pretty up_idx) out))
      (embedding, ret_dict) in
  ret ret_dict.

End Forward.
End HMV2ControlNet.

(** ** HMV3ControlNet *)

Module HMV3ControlNet.

Record t := {
  scale_factor : Z;
  embedding_channels : nat;
  cross_attention_dim : nat;
  conv_in : Conv2d.t;
  conv_up2_down0 : Conv2d.t;
  conv_up1_down1 : Conv2d.t;
  emo_embedding : Timesteps.t;
  exp_embedding : Timesteps.t;
  exp_proj : TimestepEmbedding.t;
  face_proj : TimestepEmbedding.t;
  emo_proj : TimestepEmbedding.t;
  blocks_down : list SKCrossAttention.t }.

Definition default_config : config := {|
  cfg_embedding_channels := 1280;
  cfg_input_channels := 3;
  cfg_scale_factor := 4;
  cfg_cross_attention_dim := 320;
  cfg_block_out_channels := [128; 640; 1280; 1280; 1280] |}.

Definition init (c : config) : result t :=
  let block_out_channels := cfg_block_out_channels c in
  let cross_attention_dim := cfg_cross_attention_dim c in
  rbind (first_item block_out_channels) (fun c0 =>
  Ok {|
    scale_factor := cfg_scale_factor c;
    embedding_channels := cfg_embedding_channels c;
    cross_attention_dim := cross_attention_dim;
    conv_in := {| Conv2d.in_channels := cfg_input_channels c;
                  Conv2d.out_channels := c0;
                  Conv2d.kernel_size := 3;
                  Conv2d.padding := 1;
                  Conv2d.bias := false |};
    conv_up2_down0 := {| Conv2d.in_channels := 1280;
                         Conv2d.out_channels := 320;
                         Conv2d.kernel_size := 1;
                         Conv2d.padding := 0;
                         Conv2d.bias := false |};
    conv_up1_down1 := {| Conv2d.in_channels := 1280;
                         Conv2d.out_channels := 640;
                         Conv2d.kernel_size := 1;
                         Conv2d.padding := 0;
                         Conv2d.bias := false |};
    emo_embedding := {| Timesteps.num_channels := cross_attention_dim;
                        Timesteps.flip_sin_to_cos := true;
                        Timesteps.downscale_freq_shift := 0 |};
    exp_embedding := {| Timesteps.num_channels := cross_attention_dim;
                        Timesteps.flip_sin_to_cos := true;
                        Timesteps.downscale_freq_shift := 0 |};
    exp_proj := {| TimestepEmbedding.in_channels := cross_attention_dim;
                   TimestepEmbedding.time_embed_dim := cross_attention_dim |};
    face_proj := {| TimestepEmbedding.in_channels := 1024;
                    TimestepEmbedding.time_embed_dim := cross_attention_dim |};
    emo_proj := {| TimestepEmbedding.in_channels := cross_attention_dim;
                   TimestepEmbedding.time_embed_dim := cross_attention_dim |};
    blocks_down :=
      map (fun i =>
             {| SKCrossAttention.channel_in := item block_out_channels (i - 1);
                SKCrossAttention.channel_out := item block_out_channels i;
                SKCrossAttention.cross_attention_dim := cross_attention_dim;
                SKCrossAttention.num_positional_embeddings := 64;
                SKCrossAttention.num_positional_embeddings_hidden := 1024 |})
          (range 1 (length block_out_channels)) |}).

Definition is_none (x : value) : bool :=
  match x with
  | VNone => true
  | VTensor _ => false
  end.



(** The branch condition of [forward], negated: both optional driving
    inputs were supplied. *)
Definition both_supplied (drive_coeff face_parts : value) : bool :=
  negb (is_none drive_coeff || is_none face_parts).

Section Forward.
Context `{HMBlocks}.

(** The optional arguments default to [None]. *)
Definition forward (condition drive_coeff face_parts emo_embedding : value)
  : M t pydict :=
  let* sh := get_shape condition in
  let* '(bs, _, video_length, h, w) := unpack5 sh in
  let* conditioning := rearrange condition "b c f h w -> (b f) c h w" [] in
  let* sf := attr scale_factor in
  let* size_h := floordiv h sf in
  let* sf := attr scale_factor in
  let* size_w := floordiv w sf in
  let* conditioning := interpolate conditioning (size_h, size_w) in
  let* conv := attr conv_in in
  let* embedding := conv2d (Sub "conv_in") conv conditioning in

  let* drive_embedding :=
    if is_none drive_coeff || is_none face_parts then
      let* scaled := mul emo_embedding (float_of 20) in
      let* emo_coeff := rearrange scaled "b f c -> (b f c)" [] in
      let* emb := attr HMV3ControlNet.emo_embedding in
      let* emo_embedding := timesteps (Sub "emo_embedding") emb emo_coeff in
      let* emo_embedding := to_dtype_of emo_embedding embedding in
      let* d := attr cross_attention_dim in
      let* emo_embedding :=
        rearrange emo_embedding "(b f c) d -> b f c d"
                  [("b", bs); ("f", video_length); ("d", d)] in
      let* emo_embedding :=
        rearrange emo_embedding "b f c d -> (b f) c d" [] in
      let* proj := attr emo_proj in
      timestep_embedding (Sub "emo_proj") proj emo_embedding
    else
      let* scaled := mul drive_coeff (float_of 500) in
      let* drive_coeff := rearrange scaled "b f c -> (b f c)" [] in
      let* emb := attr exp_embedding in
      let* drive_embedding :=
        timesteps (Sub "exp_embedding") emb drive_coeff in
      let* drive_embedding := to_dtype_of drive_embedding embedding in
      let* d := attr cross_attention_dim in
      let* drive_embedding :=
        rearrange drive_embedding "(b f c) d -> b f c d"
                  [("b", bs); ("f", video_length); ("d", d)] in

      let* face_parts := rearrange face_parts "b f c d -> (b f) c d" [] in
      let* proj := attr face_proj in
      let* face_embedding :=
        timestep_embedding (Sub "face_proj") proj face_parts in

      let* face_embedding :=
        rearrange face_embedding "(b f) c d -> b f c d"
                  [("f", video_length)] in

      let* drive_embedding := cat face_embedding drive_embedding 2 in
      let* drive_embedding :=
        rearrange drive_embedding "b f c d -> (b f) c d" [] in

      let* proj := attr exp_proj in
      timestep_embedding (Sub "exp_proj") proj drive_embedding in

  let ret_dict : pydict := [] in
  let* blocks := attr blocks_down in
  let* '(_, ret_dict) :=
    for_enumerate blocks 0
      (fun idx block '(embedding, ret_dict) =>
         let* embedding :=
           sk_cross_attention (SubItem "blocks_down" idx) block
                              embedding drive_embedding in
         let* n := attr (fun self => length (blocks_down self)) in
         let up_idx := (Z.of_nat n - Z.of_nat idx - 1)%Z in
         let* out :=
           rearrange embedding "(b f) c h w -> b c f h w"
                     [("f", video_length)] in
         let ret_dict := dict_set ret_dict ("up3_" +:+ pretty up_idx) out in
         let* ret_dict :=
           if (up_idx =? 2)%Z then
             let* conv := attr conv_up2_down0 in
             let* y := conv2d (Sub "conv_up2_down0") conv embedding in
             let* out :=
               rearrange y "(b f) c h w -> b c f h w"
                         [("f", video_length)] in
             ret (dict_set ret_dict "down3_0" out)
           else ret ret_dict in
         let* ret_dict :=
           if (up_idx =? 1)%Z then
             let* conv := attr conv_up1_down1 in
             let* y := conv2d (Sub "conv_up1_down1") conv embedding in
             let* out :=
               rearrange y "(b f) c h w -> b c f h w"
                         [("f", video_length)] in
             ret (dict_set ret_dict "down3_1" out)
           else ret ret_dict in
         let* ret_dict :=
           if (up_idx =? 0)%Z then
             let* v := getitem ret_dict "up3_0" in
             let ret_dict := dict_set ret_dict "down3_2" v in
             let* v := getitem ret_dict "up3_0" in
             ret (dict_set ret_dict "down3_3" v)
           else ret ret_dict in
         ret (embedding, ret_dict))
      (embedding, ret_dict) in
  ret ret_dict.

End Forward.
End HMV3ControlNet.

(** ** HMV2ControlNet2 *)

Module HMV2ControlNet2.

Record t := {
  scale_factor : Z;
  embedding_channels : nat;
  cross_attention_dim : nat;
  conv_in : Conv2d.t;
  exp_embedding : Timesteps.t;
  emo_proj : TimestepEmbedding.t;
  blocks_down : list SKCrossAttention.t }.

Definition default_config : config := {|
  cfg_embedding_channels := 1280;
  cfg_input_channels := 3;
  cfg_scale_factor := 4;
  cfg_cross_attention_dim := 320;
  cfg_block_out_channels := [128; 640; 1280; 1280; 1280] |}.

Definition init (c : config) : result t :=
  let block_out_channels := cfg_block_out_channels c in
  let cross_attention_dim := cfg_cross_attention_dim c in
  rbind (first_item block_out_channels) (fun c0 =>
  Ok {|
    scale_factor := cfg_scale_factor c;
    embedding_channels := cfg_embedding_channels c;
    cross_attention_dim := cross_attention_dim;
    conv_in := {| Conv2d.in_channels := cfg_input_channels c;
                  Conv2d.out_channels := c0;
                  Conv2d.kernel_size := 3;
                  Conv2d.padding := 1;
                  Conv2d.bias := false |};
    exp_embedding := {| Timesteps.num_channels := cross_attention_dim;
                        Timesteps.flip_sin_to_cos := true;
                        Timesteps.downscale_freq_shift := 0 |};
    emo_proj := {| TimestepEmbedding.in_channels := cross_attention_dim;
                   TimestepEmbedding.time_embed_dim := cross_attention_dim |};
    blocks_down :=
      map (fun i =>
             {| SKCrossAttention.channel_in := item block_out_channels (i - 1);
                SKCrossAttention.channel_out := item block_out_channels i;
                SKCrossAttention.cross_attention_dim := cross_attention_dim;
                SKCrossAttention.num_positional_embeddings := 64;
                SKCrossAttention.num_positional_embeddings_hidden := 1024 |})
          (range 1 (length block_out_channels)) |}).

Section Forward.
Context `{HMBlocks}.

Definition forward (condition emo_embedding : value) : M t pydict :=
  let* sh := get_shape condition in
  let* '(bs, _, video_length, h, w) := unpack5 sh in
  let* conditioning := rearrange condition "b c f h w -> (b f) c h w" [] in
  let* sf := attr scale_factor in
  let* size_h := floordiv h sf in
  let* sf := attr scale_factor in
  let* size_w := floordiv w sf in
  let* conditioning := interpolate conditioning (size_h, size_w) in
  let* conv := attr conv_in in
  let* embedding := conv2d (Sub "conv_in") conv conditioning in

  let* scaled := mul emo_embedding (float_of 20) in
  let* drive_coeff := rearrange scaled "b f c -> (b f c)" [] in
  let* emb := attr exp_embedding in
  let* drive_embedding := timesteps (Sub "exp_embedding") emb drive_coeff in
  let* drive_embedding := to_dtype_of drive_embedding embedding in
  let* d := attr cross_attention_dim in
  let* drive_embedding :=
    rearrange drive_embedding "(b f c) d -> b f c d"
              [("b", bs); ("f", video_length); ("d", d)] in
  let* drive_embedding :=
    rearrange drive_embedding "b f c d -> (b f) c d" [] in
  let* proj := attr emo_proj in
  let* drive_embedding :=
    timestep_embedding (Sub "emo_proj") proj drive_embedding in

  let ret_dict : pydict := [] in
  let* blocks := attr blocks_down in
  let* '(_, ret_dict) :=
    for_enumerate blocks 0
      (fun idx block '(embedding, ret_dict) =>
         let* embedding :=
           sk_cross_attention (SubItem "blocks_down" idx) block
                              embedding drive_embedding in
         let* out :=
           rearrange embedding "(b f) c h w -> b c f h w"
                     [("f", video_length)] in
         let* n := attr (fun self => length (blocks_down self)) in
         let up_idx := (Z.of_nat n - Z.of_nat idx - 1)%Z in
         ret (embedding, dict_set ret_dict ("up2_v2_" +:+ pretty up_idx) out))
      (embedding, ret_dict) in
  ret ret_dict.

End Forward.
End HMV2ControlNet2.

(** ** A fusion block for concrete runs *)

(** Modelled from the spec: the fusion block [SKCrossAttention] of
    [hm_blocks] is not part of this file.  The spec describes it as taking a
    visual feature map and a driving embedding sequence and returning a
    feature map of the configured output width; this instance does that and
    keeps the spatial size.  It is used to run the forward methods on concrete
    inputs. *)
Definition spatial_block : HMBlocks := fun m x y =>
  match x, y with
  | [n; c; h; w], [n'; _; d] =>
      if (c =? SKCrossAttention.channel_in m) && (n =? n')
         && (d =? SKCrossAttention.cross_attention_dim m)
      then Ok [n; SKCrossAttention.channel_out m; h; w]
      else Err RuntimeError
  | _, _ => Err RuntimeError
  end.

(** Modelled from the spec: the shape contract of the fusion block, which is
    not part of this file: a 4-D feature map in, a feature map with the same
    leading axis and [channel_out] channels out. *)
Definition block_contract (blocks : HMBlocks) : Prop :=
  forall m n c h w y r,
    SKCrossAttention_forward m [n; c; h; w] y = Ok r ->
    exists h' w', r = [n; SKCrossAttention.channel_out m; h'; w'].

(** Running a forward method of a module built from [c]. *)
Definition construct_and_run {S A} (init : config -> result S) (c : config)
    (m : M S A) (h : list shape) : result (result A * state S) :=
  rbind (init c) (fun obj => Ok (run m obj h)).

(** A caller's heap: a condition of one batch, two frames, 64x64 pixels;
    expression coefficients; face-part embeddings; emotion embeddings. *)
Definition example_heap : list shape :=
  [[1; 3; 2; 64; 64]; [1; 2; 5]; [1; 2; 7; 1024]; [1; 2; 4]].

(** * Properties of runs

    The predicates the statements below are phrased with. *)

(** A relation between the state before and after that every step keeps. *)
Definition respects {S} (R : state S -> state S -> Prop) {A} (m : M S A)
  : Prop :=
  forall s, R s (snd (m s)).

(** The call keeps [self] and only adds tensors to the heap. *)
Definition frame_rel {S} (s s' : state S) : Prop :=
  self s' = self s /\ exists new, heap s' = heap s ++ new.

(** The call only appends events, and every new event satisfies [P]. *)
Definition emits_rel {S} (P : event -> Prop) (s s' : state S) : Prop :=
  exists new, trace s' = trace s ++ new /\ Forall P new.

(** A property of the trace that, once true, stays true. *)
Definition tracks_rel {S} (I : list event -> Prop) (s s' : state S) : Prop :=
  I (trace s) -> I (trace s').

(** Recognising events. *)
Definition is_call (name : string) (ev : event) : bool :=
  match ev_op ev with
  | Call (Sub n) => String.eqb n name
  | _ => false
  end.

Definition is_block_call (ev : event) : bool :=
  match ev_op ev with
  | Call (SubItem _ _) => true
  | _ => false
  end.


Definition is_any_mul (ev : event) : bool :=
  match ev_op ev with
  | Mul _ => true
  | _ => false
  end.


Definition returned (ev : event) : bool :=
  match ev_out ev with
  | Raised _ => false
  | _ => true
  end.

Definition called (name : string) (ev : event) : bool :=
  is_call name ev && returned ev.






(** An event whose operation returned normally. *)
Definition ok_event (ev : event) : Prop :=
  match ev_out ev with
  | Raised _ => False
  | _ => True
  end.

(** How the result of a call relates to the events of the call: a normal
    return means no operation raised; an exception is the one the last
    operation raised, every earlier operation having returned normally. *)
Definition propagated {A} (r : result A) (new : list event) : Prop :=
  match r with
  | Ok _ => Forall ok_event new
  | Err e =>
      exists pre ev,
        new = pre ++ [ev] /\ Forall ok_event pre /\ ev_out ev = Raised e
  end.

Definition passes_through {S A} (m : M S A) : Prop :=
  forall s,
    exists new, trace (snd (m s)) = trace s ++ new
                /\ propagated (fst (m s)) new.


(** In the trace [tr] the event at position [k] calls a sub-module on the
    tensor obtained by flattening, with ["b f c -> (b f c)"], the product of
    the argument [x] by the constant [c]; the multiplication and the
    flattening are the two events just before the call. *)
Definition scaled_then_embedded (tr : list event) (k : nat) (ev : event)
    (x : value) (c : Z) : Prop :=
  exists l0 l,
    2 <= k
    /\ tr !! (k - 2) = Some {| ev_op := Mul (float_of c);
                               ev_args := [x];
                               ev_out := Fresh l0 |}
    /\ tr !! (k - 1) = Some {| ev_op := Rearrange "b f c -> (b f c)" [];
                               ev_args := [VTensor l0];
                               ev_out := Fresh l |}
    /\ ev_args ev = [VTensor l].

(** Every call of the sinusoidal encoder [encoder] in [tr] is on the scaled
    and flattened [x]. *)
Definition encoder_input_scaled (tr : list event) (encoder : string)
    (x : value) (c : Z) : Prop :=
  forall k ev,
    tr !! k = Some ev -> is_call encoder ev = true ->
    scaled_then_embedded tr k ev x c.

(** A call that returns went through the encoder, and in every call the
    encoder only sees the scaled input. *)
Definition scales_before_embedding {S} (out : result pydict * state S)
    (encoder : string) (x : value) (c : Z) : Prop :=
  encoder_input_scaled (trace (snd out)) encoder x c
  /\ ((exists d, fst out = Ok d) ->
      existsb (called encoder) (trace (snd out)) = true).

(** The entries ["down3_2"] and ["down3_3"] of a returned dictionary hold
    the very reference stored under ["up3_0"]. *)
Definition aliases_up3_0 (d : pydict) : Prop :=
  forall v,
    dict_get d "up3_0" = Some v ->
    dict_get d "down3_2" = Some v /\ dict_get d "down3_3" = Some v
    /\ exists l, v = VTensor l.

(** Modules built with the default arguments, for concrete runs. *)
Definition is_ok {A} (r : result A) : Prop :=
  match r with
  | Ok _ => True
  | Err _ => False
  end.

Definition get_ok {A} (r : result A) : is_ok r -> A :=
  match r return is_ok r -> A with
  | Ok a => fun _ => a
  | Err _ => fun H => match H with end
  end.

Definition default_HMControlNet : HMControlNet.t :=
  get_ok (HMControlNet.init HMControlNet.default_config) I.
Definition default_HMControlNet2 : HMControlNet2.t :=
  get_ok (HMControlNet2.init HMControlNet2.default_config) I.
Definition default_HMV2ControlNet : HMV2ControlNet.t :=
  get_ok (HMV2ControlNet.init HMV2ControlNet.default_config) I.
Definition default_HMV3ControlNet : HMV3ControlNet.t :=
  get_ok (HMV3ControlNet.init HMV3ControlNet.default_config) I.
Definition default_HMV2ControlNet2 : HMV2ControlNet2.t :=
  get_ok (HMV2ControlNet2.init HMV2ControlNet2.default_config) I.

(** The dictionary entry [kv] holds, under the key [key i], the tensor that
    the loop obtained by un-flattening the output of the fusion block
    [blocks_down[i]]. *)
Definition stores_block_output (tr : list event) (key : nat -> string)
    (i : nat) (kv : string * value) : Prop :=
  fst kv = key i
  /\ exists e l args axes,
       In {| ev_op := Call (SubItem "blocks_down" i);
             ev_args := args; ev_out := Fresh e |} tr
       /\ In {| ev_op := Rearrange "(b f) c h w -> b c f h w" axes;
                ev_args := [VTensor e]; ev_out := Fresh l |} tr
       /\ snd kv = VTensor l.

(** The dictionary [d] lists, in insertion order, one entry per fusion
    block [0 .. n-1]. *)
Definition stage_outputs (tr : list event) (key : nat -> string) (n : nat)
    (d : pydict) : Prop :=
  Forall2 (stores_block_output tr key) (seq 0 n) d.

(** Keys by stage. *)
Definition ascending_key (prefix : string) (i : nat) : string :=
  prefix +:+ pretty i.

Definition descending_key (prefix : string) (n i : nat) : string :=
  prefix +:+ pretty (Z.of_nat n - Z.of_nat i - 1)%Z.

(** The keys iteration [i] of the loop of [HMV3ControlNet.forward] assigns,
    in order, when the module has [n] fusion blocks. *)
Definition HMV3_stage_keys (n i : nat) : list string :=
  let up_idx := (Z.of_nat n - Z.of_nat i - 1)%Z in
  ["up3_" +:+ pretty up_idx]
  ++ (if (up_idx =? 2)%Z then ["down3_0"] else [])
  ++ (if (up_idx =? 1)%Z then ["down3_1"] else [])
  ++ (if (up_idx =? 0)%Z then ["down3_2"; "down3_3"] else []).

(** The heap [h'] keeps every tensor of [h]. *)
Definition grows (h h' : list shape) : Prop :=
  forall l sh, h !! l = Some sh -> h' !! l = Some sh.






(** A fusion block with another [num_positional_embeddings_hidden]. *)
Definition with_hidden (n : nat) (b : SKCrossAttention.t) : SKCrossAttention.t :=
  {| SKCrossAttention.channel_in := SKCrossAttention.channel_in b;
     SKCrossAttention.channel_out := SKCrossAttention.channel_out b;
     SKCrossAttention.cross_attention_dim :=
       SKCrossAttention.cross_attention_dim b;
     SKCrossAttention.num_positional_embeddings :=
       SKCrossAttention.num_positional_embeddings b;
     SKCrossAttention.num_positional_embeddings_hidden := n |}.

(** [HMControlNet2] has what [HMControlNet] has outside the driving-signal
    branch: the configuration fields, the input convolution, the sinusoidal
    encoder and the chain of fusion blocks. *)
Definition same_structure (m1 : HMControlNet.t) (m2 : HMControlNet2.t)
  : Prop :=
  HMControlNet.scale_factor m1 = HMControlNet2.scale_factor m2
  /\ HMControlNet.embedding_channels m1 = HMControlNet2.embedding_channels m2
  /\ HMControlNet.cross_attention_dim m1 = HMControlNet2.cross_attention_dim m2
  /\ HMControlNet.conv_in m1 = HMControlNet2.conv_in m2
  /\ HMControlNet.exp_embedding m1 = HMControlNet2.exp_embedding m2
  /\ HMControlNet.blocks_down m1 = HMControlNet2.blocks_down m2.

(** The same, the fusion blocks compared up to
    [num_positional_embeddings_hidden], which is 64 in [HMControlNet] and
    1024 in [HMControlNet2]. *)
Definition same_structure_up_to_hidden (m1 : HMControlNet.t)
    (m2 : HMControlNet2.t) : Prop :=
  HMControlNet.scale_factor m1 = HMControlNet2.scale_factor m2
  /\ HMControlNet.embedding_channels m1 = HMControlNet2.embedding_channels m2
  /\ HMControlNet.cross_attention_dim m1 = HMControlNet2.cross_attention_dim m2
  /\ HMControlNet.conv_in m1 = HMControlNet2.conv_in m2
  /\ HMControlNet.exp_embedding m1 = HMControlNet2.exp_embedding m2
  /\ HMControlNet.exp_proj m1 = HMControlNet2.emo_proj m2
  /\ map (with_hidden 1024) (HMControlNet.blocks_down m1)
     = HMControlNet2.blocks_down m2
  /\ Forall (fun b => SKCrossAttention.num_positional_embeddings_hidden b = 64)
            (HMControlNet.blocks_down m1)
  /\ Forall (fun b => SKCrossAttention.num_positional_embeddings_hidden b
                      = 1024)
            (HMControlNet2.blocks_down m2).

(** ** Further properties of the constructors and the forward methods *)

(** An event that calls a sub-module. *)
Definition is_module_call (ev : event) : bool :=
  match ev_op ev with
  | Call _ => true
  | _ => false
  end.

(** The call raised [e] without having called any sub-module. *)
Definition raises_before_modules {S} (out : result pydict * state S)
    (e : exn) : Prop :=
  fst out = Err e /\ existsb is_module_call (trace (snd out)) = false.

(** The fusion blocks are chained: the first takes [c] channels, each next
    one takes what the previous one gives. *)
Fixpoint chained (c : nat) (blocks : list SKCrossAttention.t) : Prop :=
  match blocks with
  | [] => True
  | b :: rest =>
      SKCrossAttention.channel_in b = c
      /\ chained (SKCrossAttention.channel_out b) rest
  end.

(** What a constructor guarantees of the chain it builds: the input
    convolution feeds the first block, the blocks are chained, and every
    block attends to embeddings of the width the final projection [proj]
    produces. *)
Definition well_formed_chain (conv_in : Conv2d.t) (proj : TimestepEmbedding.t)
    (blocks : list SKCrossAttention.t) : Prop :=
  chained (Conv2d.out_channels conv_in) blocks
  /\ Forall (fun b => SKCrossAttention.cross_attention_dim b
                      = TimestepEmbedding.time_embed_dim proj) blocks.

(** [forward] reads [condition.shape] first: [None] has no shape, and a
    shape that is not of five axes cannot be unpacked. *)
Definition unpacks_condition_first {S} (forward : value -> M S pydict)
  : Prop :=
  (forall obj h,
      raises_before_modules (run (forward VNone) obj h) AttributeError)
  /\ (forall obj h lc sh,
         h !! lc = Some sh -> length sh <> 5 ->
         raises_before_modules (run (forward (VTensor lc)) obj h) ValueError).

(** The target size of the down-sampling is [h // scale_factor] by
    [w // scale_factor]: a zero factor cannot divide, and a factor that is
    negative or larger than the picture gives a size [F.interpolate]
    refuses. *)
Definition guards_downsampling {S} (scale_factor : S -> Z)
    (forward : value -> M S pydict) : Prop :=
  forall obj h lc B C F HH W,
    h !! lc = Some [B; C; F; HH; W] ->
    (scale_factor obj = 0%Z ->
     raises_before_modules (run (forward (VTensor lc)) obj h)
                           ZeroDivisionError)
    /\ ((scale_factor obj < 0
         \/ Z.of_nat HH < scale_factor obj
         \/ Z.of_nat W < scale_factor obj)%Z ->
        raises_before_modules (run (forward (VTensor lc)) obj h)
                              RuntimeError).

(** A configuration with another [scale_factor] or another
    [block_out_channels]. *)
Definition with_scale_factor (z : Z) (c : config) : config :=
  {| cfg_embedding_channels := cfg_embedding_channels c;
     cfg_input_channels := cfg_input_channels c;
     cfg_scale_factor := z;
     cfg_cross_attention_dim := cfg_cross_attention_dim c;
     cfg_block_out_channels := cfg_block_out_channels c |}.

Definition with_block_out_channels (l : list nat) (c : config) : config :=
  {| cfg_embedding_channels := cfg_embedding_channels c;
     cfg_input_channels := cfg_input_channels c;
     cfg_scale_factor := cfg_scale_factor c;
     cfg_cross_attention_dim := cfg_cross_attention_dim c;
     cfg_block_out_channels := l |}.

(** The calls of the fusion blocks [i, i+1, ...] when the first takes the
    feature map [x], each next one the output of the previous one, all of
    them the driving embedding [y], and [outs] are the tensors they
    return. *)
Fixpoint chain_events (x y : loc) (outs : list loc) (i : nat) : list event :=
  match outs with
  | [] => []
  | o :: outs' =>
      {| ev_op := Call (SubItem "blocks_down" i);
         ev_args := [VTensor x; VTensor y];
         ev_out := Fresh o |}
      :: chain_events o y outs' (Datatypes.S i)
  end.

(** In the trace [tr] the [n] fusion blocks are called once each, in order,
    the first on the output of [conv_in], each next one on the output of the
    previous one, and all of them on the output of the final projection
    [proj]. *)
Definition fusion_chain (tr : list event) (proj : string) (n : nat) : Prop :=
  exists a x b y outs,
    In {| ev_op := Call (Sub "conv_in"); ev_args := [a]; ev_out := Fresh x |}
       tr
    /\ In {| ev_op := Call (Sub proj); ev_args := [b]; ev_out := Fresh y |} tr
    /\ length outs = n
    /\ List.filter is_block_call tr = chain_events x y outs 0.

(** The value [v] is a tensor that is not in the caller's heap [h] and is in
    the heap [hp] after the call: the call created it. *)
Definition created_by_call (h hp : list shape) (v : value) : Prop :=
  exists l, v = VTensor l /\ length h <= l < length hp.

(** Every entry of [d] holds a tensor the call created. *)
Definition returns_new_tensors (h hp : list shape) (d : pydict) : Prop :=
  Forall (fun kv => created_by_call h hp (snd kv)) d.

(** No two keys of [d] hold the same reference. *)
Definition no_aliasing (d : pydict) : Prop := NoDup (map snd d).

(** What a forward call that returns was given.  The condition has the
    input channels of [conv_in] and is at least [scale_factor] pixels high
    and wide, for a positive [scale_factor]. *)
Definition accepts_condition (input_channels : nat) (scale_factor : Z)
    (sh : shape) (B F : nat) : Prop :=
  exists HH W,
    sh = [B; input_channels; F; HH; W]
    /\ 0 < input_channels
    /\ (0 < scale_factor <= Z.of_nat HH)%Z
    /\ (scale_factor <= Z.of_nat W)%Z.

(** The coefficients are a rank-3 tensor whose elements split evenly over
    the [B * F] frames of the condition. *)
Definition accepts_coefficients (sh : shape) (B F : nat) : Prop :=
  exists b f c,
    sh = [b; f; c] /\ B * F <> 0 /\ (b * (f * c)) mod (B * F) = 0.

(** The face-part embeddings are a rank-4 tensor with as many frames as the
    condition and 1024 features. *)
Definition accepts_face_parts (sh : shape) (B F : nat) : Prop :=
  exists b f r, sh = [b; f; r; 1024] /\ b * f = B * F.

(** The fusion blocks whose output goes through the adapters of
    [HMV3ControlNet] give the channels the adapter takes: the block at up
    index 2 those of [conv_up2_down0], the block at up index 1 those of
    [conv_up1_down1]. *)
Definition feeds_adapters (obj : HMV3ControlNet.t) (i : nat) : Prop :=
  forall j blk,
    j < i -> HMV3ControlNet.blocks_down obj !! j = Some blk ->
    let up_idx :=
      (Z.of_nat (length (HMV3ControlNet.blocks_down obj)) - Z.of_nat j - 1)%Z
    in
    (up_idx = 2%Z ->
     SKCrossAttention.channel_out blk
     = Conv2d.in_channels (HMV3ControlNet.conv_up2_down0 obj))
    /\ (up_idx = 1%Z ->
        SKCrossAttention.channel_out blk
        = Conv2d.in_channels (HMV3ControlNet.conv_up1_down1 obj)).

(** The value [v] is the tensor obtained by un-flattening the output of the
    1x1 convolution [adapter] applied to the output of the fusion block
    [blocks_down[i]]. *)
Definition stores_adapter_output (tr : list event) (adapter : string)
    (i : nat) (v : value) : Prop :=
  exists e args y l axes,
    In {| ev_op := Call (SubItem "blocks_down" i);
          ev_args := args; ev_out := Fresh e |} tr
    /\ In {| ev_op := Call (Sub adapter);
             ev_args := [VTensor e]; ev_out := Fresh y |} tr
    /\ In {| ev_op := Rearrange "(b f) c h w -> b c f h w" axes;
             ev_args := [VTensor y]; ev_out := Fresh l |} tr
    /\ v = VTensor l.

(** The entries the stages [0 .. i-1] of [HMV3ControlNet] leave in the
    dictionary [d], the module having [n] fusion blocks: the output of
    block [j] under ["up3_{n-1-j}"], and, through the adapters, under
    ["down3_0"] when [n-1-j] is 2 and under ["down3_1"] when it is 1. *)
Definition HMV3_wiring (tr : list event) (n : nat) (d : pydict) (i : nat)
  : Prop :=
  forall j,
    j < i ->
    let up_idx := (Z.of_nat n - Z.of_nat j - 1)%Z in
    (exists v,
        dict_get d ("up3_" +:+ pretty up_idx) = Some v
        /\ stores_block_output tr (descending_key "up3_" n) j
             ("up3_" +:+ pretty up_idx, v))
    /\ (up_idx = 2%Z ->
        exists v, dict_get d "down3_0" = Some v
                  /\ stores_adapter_output tr "conv_up2_down0" j v)
    /\ (up_idx = 1%Z ->
        exists v, dict_get d "down3_1" = Some v
                  /\ stores_adapter_output tr "conv_up1_down1" j v).

(** Two runs side by side: one on the module [obj], the other on the module
    [obj'] of another class (or of the same class with another field), with
    the same tensors and the same operations so far. *)
Definition side_by_side {S1 S2} (obj : S1) (obj' : S2)
    (s1 : state S1) (s2 : state S2) : Prop :=
  self s1 = obj /\ self s2 = obj'
  /\ heap s2 = heap s1 /\ trace s2 = trace s1.

(** Two results agree: both are normal and related by [R], or both are the
    same exception. *)
Definition agree {A1 A2} (R : A1 -> A2 -> Prop)
    (r1 : result A1) (r2 : result A2) : Prop :=
  match r1, r2 with
  | Ok a1, Ok a2 => R a1 a2
  | Err e1, Err e2 => e1 = e2
  | _, _ => False
  end.

(** [m2] on [obj'] does what [m1] does on [obj]: from states side by side
    they perform the same operations on the same tensors and their results
    agree. *)
Definition simulates {S1 S2 A1 A2} (obj : S1) (obj' : S2)
    (R : A1 -> A2 -> Prop) (m1 : M S1 A1) (m2 : M S2 A2) : Prop :=
  forall s1 s2,
    side_by_side obj obj' s1 s2 ->
    agree R (fst (m1 s1)) (fst (m2 s2))
    /\ side_by_side obj obj' (snd (m1 s1)) (snd (m2 s2)).

(** The dictionaries [d1] and [d2] hold the same tensors in the same order,
    [d1] under the keys [key1 0, key1 1, ...] and [d2] under
    [key2 0, key2 1, ...]. *)
Definition same_tensors_renamed (key1 key2 : nat -> string) (n : nat)
    (d1 d2 : pydict) : Prop :=
  keys d1 = map key1 (seq 0 n)
  /\ keys d2 = map key2 (seq 0 n)
  /\ map snd d1 = map snd d2.

(** [HMControlNet] and [HMControlNet2] modules seen as modules of the
    classes with descending keys: the same fields. *)
Definition as_HMV2ControlNet (m : HMControlNet.t) : HMV2ControlNet.t :=
  {| HMV2ControlNet.scale_factor := HMControlNet.scale_factor m;
     HMV2ControlNet.embedding_channels := HMControlNet.embedding_channels m;
     HMV2ControlNet.cross_attention_dim := HMControlNet.cross_attention_dim m;
     HMV2ControlNet.conv_in := HMControlNet.conv_in m;
     HMV2ControlNet.exp_embedding := HMControlNet.exp_embedding m;
     HMV2ControlNet.exp_proj := HMControlNet.exp_proj m;
     HMV2ControlNet.face_proj := HMControlNet.face_proj m;
     HMV2ControlNet.blocks_down := HMControlNet.blocks_down m |}.

Definition as_HMV2ControlNet2 (m : HMControlNet2.t) : HMV2ControlNet2.t :=
  {| HMV2ControlNet2.scale_factor := HMControlNet2.scale_factor m;
     HMV2ControlNet2.embedding_channels := HMControlNet2.embedding_channels m;
     HMV2ControlNet2.cross_attention_dim :=
       HMControlNet2.cross_attention_dim m;
     HMV2ControlNet2.conv_in := HMControlNet2.conv_in m;
     HMV2ControlNet2.exp_embedding := HMControlNet2.exp_embedding m;
     HMV2ControlNet2.emo_proj := HMControlNet2.emo_proj m;
     HMV2ControlNet2.blocks_down := HMControlNet2.blocks_down m |}.

(** A configuration with another [embedding_channels]. *)
Definition with_embedding_channels (n : nat) (c : config) : config :=
  {| cfg_embedding_channels := n;
     cfg_input_channels := cfg_input_channels c;
     cfg_scale_factor := cfg_scale_factor c;
     cfg_cross_attention_dim := cfg_cross_attention_dim c;
     cfg_block_out_channels := cfg_block_out_channels c |}.

(** Two calls with the same outcome: the same result, the same tensors
    created, the same operations performed. *)
Definition same_outcome {S1 S2 A} (out1 : result A * state S1)
    (out2 : result A * state S2) : Prop :=
  fst out2 = fst out1
  /\ heap (snd out2) = heap (snd out1)
  /\ trace (snd out2) = trace (snd out1).

(** The call raises, and if it got past [conv_in] the exception is the
    [TypeError] of multiplying [None] by the constant [c], the last
    operation the call performed. *)
Definition raises_at_scaling {S} (out : result pydict * state S) (c : Z)
  : Prop :=
  (exists e, fst out = Err e)
  /\ (existsb (called "conv_in") (trace (snd out)) = true ->
      fst out = Err TypeError
      /\ last (trace (snd out))
         = Some {| ev_op := Mul (float_of c);
                   ev_args := [VNone];
                   ev_out := Raised TypeError |}).

(** The fusion chain of [fusion_chain], with the shapes of what enters it:
    the feature map [conv_in] returns has shape [shx] and the driving
    embedding the final projection returns has shape [shy] in the heap
    [hp]. *)
Definition fusion_chain_inputs (tr : list event) (hp : list shape)
    (proj : string) (n : nat) (shx shy : shape) : Prop :=
  exists a x b y outs,
    In {| ev_op := Call (Sub "conv_in"); ev_args := [a]; ev_out := Fresh x |}
       tr
    /\ In {| ev_op := Call (Sub proj); ev_args := [b]; ev_out := Fresh y |} tr
    /\ length outs = n
    /\ List.filter is_block_call tr = chain_events x y outs 0
    /\ hp !! x = Some shx
    /\ hp !! y = Some shy.

(** The shape of the feature map that enters the chain, for a condition of
    shape [(B, C, F, H, W)]: the frames are in the batch, the channels are
    the first width, the picture is divided by [scale_factor]. *)
Definition entry_feature_map (cfg : config) (B F HH W : nat) : shape :=
  [B * F; item (cfg_block_out_channels cfg) 0;
   Z.to_nat (Z.of_nat HH / cfg_scale_factor cfg);
   Z.to_nat (Z.of_nat W / cfg_scale_factor cfg)].

(** The shape of the driving embedding, for [regions] face regions and
    coefficients of [elements] elements: one row per frame, one token per
    region and per coefficient of the frame. *)
Definition driving_embedding (cfg : config) (B F regions elements : nat)
  : shape :=
  [B * F; regions + elements / (B * F); cfg_cross_attention_dim cfg].

(** * Examples *)

Example parse_b_f : Einops.parse "b c f h w -> (b f) c h w"
  = ([["b"]; ["c"]; ["f"]; ["h"]; ["w"]], [["b"; "f"]; ["c"]; ["h"]; ["w"]]).
Proof. reflexivity. Qed.

Example rearrange_in_ex :
  Einops.rearrange_shape "b c f h w -> (b f) c h w" [] [2; 3; 5; 64; 48]
  = Ok [10; 3; 64; 48].
Proof. reflexivity. Qed.

Example rearrange_out_ex :
  Einops.rearrange_shape "(b f) c h w -> b c f h w" [("f", 5)] [10; 3; 64; 48]
  = Ok [2; 3; 5; 64; 48].
Proof. reflexivity. Qed.

Example rearrange_zero_frames :
  Einops.rearrange_shape "(b f) c h w -> b c f h w" [("f", 0)] [0; 3; 64; 48]
  = Err ZeroDivisionError.
Proof. reflexivity. Qed.

(** * Reasoning rules *)

Section Rules.
Context {S : Type}.

(** ** Successful runs, step by step *)

Lemma ret_ok_inv {A} (a b : A) (s s' : state S) :
  ret a s = (Ok b, s') -> b = a /\ s' = s.
Proof. unfold ret. intros [= -> ->]. auto. Qed.

Lemma bind_ok_inv {A B} (m : M S A) (k : A -> M S B) s b s2 :
  bind m k s = (Ok b, s2) ->
  exists a s1, m s = (Ok a, s1) /\ k a s1 = (Ok b, s2).
Proof.
  unfold bind. destruct (m s) as [[a|e] s1]; intros Hk.
  - exists a, s1. auto.
  - discriminate.
Qed.

Lemma attr_ok_inv {A} (f : S -> A) s a s' :
  attr f s = (Ok a, s') -> a = f (self s) /\ s' = s.
Proof. unfold attr. intros [= <- <-]. auto. Qed.

Lemma tensor_op_ok_inv o args sem (s : state S) v s' :
  tensor_op o args sem s = (Ok v, s') ->
  exists sh l,
    sem (heap s) = Ok sh /\ l = length (heap s) /\ v = VTensor l
    /\ s' = log s [sh] {| ev_op := o; ev_args := args; ev_out := Fresh l |}.
Proof.
  unfold tensor_op. destruct (sem (heap s)) as [sh|e]; intros [= <- <-].
  exists sh, (length (heap s)). auto.
Qed.

Lemma py_op_ok_inv {A} o args (sem : list shape -> result A) (s : state S) a s' :
  py_op o args sem s = (Ok a, s') ->
  sem (heap s) = Ok a
  /\ s' = log s [] {| ev_op := o; ev_args := args; ev_out := Pure |}.
Proof.
  unfold py_op. destruct (sem (heap s)) as [x|e]; intros [= <- <-]. auto.
Qed.

(** A loop invariant over the iterations that complete. *)
Lemma for_enumerate_ok {B L} (body : nat -> B -> L -> M S L)
    (I : nat -> L -> state S -> Prop) (all : list B) :
  (forall i x l s l' s',
      all !! i = Some x -> I i l s -> body i x l s = (Ok l', s') ->
      I (Datatypes.S i) l' s') ->
  forall items done l s l' s',
    all = done ++ items ->
    I (length done) l s ->
    for_enumerate items (length done) body l s = (Ok l', s') ->
    I (length all) l' s'.
Proof.
  intros Hbody items. induction items as [|x items IH];
    intros done l s l' s' Hall HI Hrun.
  - apply ret_ok_inv in Hrun as [-> ->].
    subst all. rewrite app_nil_r. exact HI.
  - cbn [for_enumerate] in Hrun.
    apply bind_ok_inv in Hrun as (l1 & s1 & Hx & Hrest).
    apply (IH (done ++ [x]) l1 s1).
    + rewrite <- app_assoc. exact Hall.
    + rewrite length_app, Nat.add_1_r.
      apply (Hbody (length done) x l s); auto.
      subst all. rewrite lookup_app_r by lia.
      replace (length done - length done) with 0 by lia. reflexivity.
    + rewrite length_app, Nat.add_1_r. exact Hrest.
Qed.

(** ** Relations every step keeps *)

Section Respects.
Context (R : state S -> state S -> Prop) `{!PreOrder R}.

Lemma respects_ret {A} (a : A) : respects R (ret a).
Proof. intros s. reflexivity. Qed.

Lemma respects_attr {A} (f : S -> A) : respects R (attr f).
Proof. intros s. reflexivity. Qed.

Lemma respects_bind {A B} (m : M S A) (k : A -> M S B) :
  respects R m -> (forall a, respects R (k a)) -> respects R (bind m k).
Proof.
  intros Hm Hk s. unfold bind. specialize (Hm s).
  destruct (m s) as [[a|e] s1]; cbn in *.
  - transitivity s1; [exact Hm | apply Hk].
  - exact Hm.
Qed.

Lemma respects_tensor_op o args sem :
  (forall s new out,
      R s (log s new {| ev_op := o; ev_args := args; ev_out := out |})) ->
  respects R (tensor_op o args sem).
Proof.
  intros Hlog s. unfold tensor_op. destruct (sem (heap s)); apply Hlog.
Qed.

Lemma respects_py_op {A} o args (sem : list shape -> result A) :
  (forall s new out,
      R s (log s new {| ev_op := o; ev_args := args; ev_out := out |})) ->
  respects R (py_op o args sem).
Proof.
  intros Hlog s. unfold py_op. destruct (sem (heap s)); apply Hlog.
Qed.

Lemma respects_for_enumerate {B L} (body : nat -> B -> L -> M S L) items :
  (forall i x l, respects R (body i x l)) ->
  forall idx l, respects R (for_enumerate items idx body l).
Proof.
  intros Hbody. induction items as [|x items IH]; intros idx l; cbn.
  - apply respects_ret.
  - apply respects_bind; [apply Hbody | intros l'; apply IH].
Qed.

End Respects.

#[global] Instance frame_rel_preorder : PreOrder (@frame_rel S).
Proof.
  split.
  - intros s. split; [reflexivity | exists []; symmetry; apply app_nil_r].
  - intros s1 s2 s3 [H1 [n1 E1]] [H2 [n2 E2]]. split; [congruence|].
    exists (n1 ++ n2). rewrite E2, E1, app_assoc. reflexivity.
Qed.

Lemma frame_log (s : state S) new ev : frame_rel s (log s new ev).
Proof. split; [reflexivity | exists new; reflexivity]. Qed.

#[global] Instance emits_rel_preorder P : PreOrder (@emits_rel S P).
Proof.
  split.
  - intros s. exists []. split; [symmetry; apply app_nil_r | constructor].
  - intros s1 s2 s3 (n1 & E1 & F1) (n2 & E2 & F2).
    exists (n1 ++ n2). split.
    + rewrite E2, E1, app_assoc. reflexivity.
    + apply Forall_app. auto.
Qed.

Lemma emits_log (P : event -> Prop) (s : state S) new ev :
  P ev -> emits_rel P s (log s new ev).
Proof. intros HP. exists [ev]. split; [reflexivity | repeat constructor; exact HP]. Qed.

#[global] Instance tracks_rel_preorder I : PreOrder (@tracks_rel S I).
Proof.
  split.
  - intros s H. exact H.
  - intros s1 s2 s3 H12 H23 H. apply H23, H12, H.
Qed.

End Rules.

(** ** Walking a forward method *)

Ltac unfold_ops :=
  unfold get_shape, unpack5, floordiv, mul, rearrange, interpolate,
    to_dtype_of, cat, conv2d, timesteps, timestep_embedding,
    sk_cross_attention, getitem.

Ltac unfold_forward :=
  unfold HMControlNet.forward, HMControlNet2.forward, HMV2ControlNet.forward,
    HMV3ControlNet.forward, HMV2ControlNet2.forward.

(** [walk prim] proves [respects R m] along the structure of [m]; [prim]
    discharges what each logged operation owes to [R]. *)
Ltac walk prim :=
  repeat first
    [ apply respects_ret; exact _
    | apply respects_attr; exact _
    | apply respects_bind; [exact _ | | intros ?]
    | apply respects_for_enumerate; [exact _ | intros ? ? ?]
    | apply respects_tensor_op; intros ? ? ?; prim
    | apply respects_py_op; intros ? ? ?; prim
    | match goal with
      | |- respects _ (if ?b then _ else _) => destruct b
      | |- respects _ (let '(_, _) := ?x in _) => destruct x
      end ].

(** ** History independence and exception propagation, rule by rule *)

Section MoreRules.
Context {S : Type}.







Lemma passes_through_ret {A} (a : A) : passes_through (S:=S) (ret a).
Proof.
  intros s. exists []. cbn. split; [symmetry; apply app_nil_r | constructor].
Qed.

Lemma passes_through_attr {A} (f : S -> A) : passes_through (attr f).
Proof.
  intros s. exists []. cbn. split; [symmetry; apply app_nil_r | constructor].
Qed.

Lemma passes_through_bind {A B} (m : M S A) (k : A -> M S B) :
  passes_through m -> (forall a, passes_through (k a)) ->
  passes_through (bind m k).
Proof.
  intros Hm Hk s. unfold bind.
  destruct (Hm s) as (n1 & E1 & P1).
  destruct (m s) as [[a|e] s1]; cbn in *.
  - destruct (Hk a s1) as (n2 & E2 & P2).
    exists (n1 ++ n2). split.
    + rewrite E2, E1, app_assoc. reflexivity.
    + destruct (fst (k a s1)) as [b|e]; cbn in *.
      * apply Forall_app. auto.
      * destruct P2 as (pre & ev & -> & Hpre & Hev).
        exists (n1 ++ pre), ev. rewrite app_assoc.
        repeat split; auto. apply Forall_app. auto.
  - exists n1. auto.
Qed.

Lemma passes_through_tensor_op o args sem :
  passes_through (S:=S) (tensor_op o args sem).
Proof.
  intros s. unfold tensor_op. destruct (sem (heap s)) as [sh|e]; cbn.
  - eexists. split; [reflexivity|]. repeat constructor.
  - eexists. split; [reflexivity|]. eexists [], _. repeat split. constructor.
Qed.

Lemma passes_through_py_op {A} o args (sem : list shape -> result A) :
  passes_through (S:=S) (py_op o args sem).
Proof.
  intros s. unfold py_op. destruct (sem (heap s)) as [sh|e]; cbn.
  - eexists. split; [reflexivity|]. repeat constructor.
  - eexists. split; [reflexivity|]. eexists [], _. repeat split. constructor.
Qed.

Lemma passes_through_for_enumerate {B L} (body : nat -> B -> L -> M S L) items :
  (forall i x l, passes_through (body i x l)) ->
  forall idx l, passes_through (for_enumerate items idx body l).
Proof.
  intros Hbody. induction items as [|x items IH]; intros idx l; cbn.
  - apply passes_through_ret.
  - apply passes_through_bind; [apply Hbody | intros l'; apply IH].
Qed.

End MoreRules.


Ltac walk_exceptions :=
  repeat first
    [ apply passes_through_ret
    | apply passes_through_attr
    | apply passes_through_bind; [| intros ?]
    | apply passes_through_for_enumerate; intros ? ? ?
    | apply passes_through_tensor_op
    | apply passes_through_py_op
    | match goal with
      | |- passes_through (if ?b then _ else _) => destruct b
      | |- passes_through (let '(_, _) := ?x in _) => destruct x
      end ].


(** One goal per variant. *)
Ltac split5 := split; [| split; [| split; [| split]]].


(** ** The forward pass leaves the module alone *)


(** ** Exceptions propagate untouched *)

(** C9: for every variant, the forward method has no error handling of its
    own: when a call returns normally no operation raised, and when it
    raises, the exception is the one raised by the last operation it
    performed (all earlier operations having returned normally), passed
    through unchanged. *)
Theorem forward_propagates_exceptions `{HMBlocks} :
  (forall c d f, passes_through (HMControlNet.forward c d f))
  /\ (forall c e, passes_through (HMControlNet2.forward c e))
  /\ (forall c d f, passes_through (HMV2ControlNet.forward c d f))
  /\ (forall c d f e, passes_through (HMV3ControlNet.forward c d f e))
  /\ (forall c e, passes_through (HMV2ControlNet2.forward c e)).
Proof.
  split5; intros; unfold_forward; unfold_ops; walk_exceptions.
Qed.

(** ** Runs that may raise, step by step *)

Section Inversion.
Context {S : Type}.

Lemma bind_inv {A B} (m : M S A) (k : A -> M S B) s r s2 :
  bind m k s = (r, s2) ->
  (exists a s1, m s = (Ok a, s1) /\ k a s1 = (r, s2))
  \/ (exists e, m s = (Err e, s2) /\ r = Err e).
Proof.
  unfold bind. destruct (m s) as [[a|e] s1]; intros Hk.
  - left. exists a, s1. auto.
  - right. exists e. injection Hk as <- <-. auto.
Qed.

Lemma attr_inv {A} (f : S -> A) s r s' :
  attr f s = (r, s') -> r = Ok (f (self s)) /\ s' = s.
Proof. unfold attr. intros [= <- <-]. auto. Qed.

Lemma tensor_op_err_inv o args sem (s : state S) e s' :
  tensor_op o args sem s = (Err e, s') ->
  sem (heap s) = Err e
  /\ s' = log s [] {| ev_op := o; ev_args := args; ev_out := Raised e |}.
Proof.
  unfold tensor_op. destruct (sem (heap s)) as [sh|e']; intros [= <- <-]. auto.
Qed.

Lemma py_op_err_inv {A} o args (sem : list shape -> result A) (s : state S) e s' :
  py_op o args sem s = (Err e, s') ->
  sem (heap s) = Err e
  /\ s' = log s [] {| ev_op := o; ev_args := args; ev_out := Raised e |}.
Proof.
  unfold py_op. destruct (sem (heap s)) as [sh|e']; intros [= <- <-]. auto.
Qed.


Lemma respects_run (R : state S -> state S -> Prop) {A} (m : M S A) s r s' :
  respects R m -> m s = (r, s') -> R s s'.
Proof. intros Hm Hrun. specialize (Hm s). rewrite Hrun in Hm. exact Hm. Qed.



End Inversion.


(** Splitting a run at its first step that is a logged operation.  On the
    branch where the step raised, [fail_tac] closes the goal. *)
Ltac inv_ok_step Hstep :=
  first
    [ apply attr_ok_inv in Hstep as [-> ->]
    | apply tensor_op_ok_inv in Hstep as (? & ? & ? & ? & -> & ->)
    | apply py_op_ok_inv in Hstep as (? & ->) ].

Ltac inv_err_step Hstep :=
  first
    [ apply tensor_op_err_inv in Hstep as (? & ->)
    | apply py_op_err_inv in Hstep as (? & ->)
    | apply attr_inv in Hstep as [? _]; discriminate ].

Ltac destruct_tuples H :=
  repeat match type of H with
         | context [let '(_, _) := ?x in _] => destruct x
         end.

Ltac step_ok H :=
  let Hstep := fresh "Hstep" in
  apply bind_ok_inv in H as (? & ? & Hstep & H);
  inv_ok_step Hstep; cbv beta in H; destruct_tuples H.

Ltac step_any H fail_tac :=
  let Hstep := fresh "Hstep" in
  apply bind_inv in H as [(? & ? & Hstep & H) | (? & Hstep & ->)];
  [ inv_ok_step Hstep; cbv beta in H; destruct_tuples H
  | inv_err_step Hstep; fail_tac ].

Ltac unfold_ops_in H :=
  unfold get_shape, unpack5, floordiv, mul, rearrange, interpolate,
    to_dtype_of, cat, conv2d, timesteps, timestep_embedding,
    sk_cross_attention, getitem in H.


(** ** Routing of HMV3ControlNet *)

Section Routing.
Context `{HMBlocks}.







End Routing.

(** ** A missing emotion embedding on the emotion path *)

(** C10: when [drive_coeff] or [face_parts] is [None] and [emo_embedding] is
    [None] as well, [HMV3ControlNet.forward] raises; if the call got past the
    shared [conv_in], whatever the other dual-signal argument is, the
    exception is the [TypeError] of [emo_embedding * 20.] on [None], the last
    operation the call performed. *)
Theorem HMV3_none_emotion_raises `{HMBlocks} c d f obj h :
  HMV3ControlNet.both_supplied d f = false ->
  let out := run (HMV3ControlNet.forward c d f VNone) obj h in
  (exists e, fst out = Err e)
  /\ (existsb (called "conv_in") (trace (snd out)) = true ->
      fst out = Err TypeError
      /\ last (trace (snd out))
         = Some {| ev_op := Mul (float_of 20);
                   ev_args := [VNone];
                   ev_out := Raised TypeError |}).
Proof.
  intros Hb out. subst out. unfold run.
  destruct (HMV3ControlNet.forward c d f VNone _) as [r s'] eqn:Hrun.
  cbn [fst snd].
  unfold HMV3ControlNet.forward in Hrun. unfold_ops_in Hrun.
  do 10 step_any Hrun
     ltac:(split; [eexists; reflexivity | cbn; discriminate]).
  assert (Hbranch : HMV3ControlNet.is_none d || HMV3ControlNet.is_none f = true)
    by (unfold HMV3ControlNet.both_supplied in Hb;
        destruct (HMV3ControlNet.is_none d || HMV3ControlNet.is_none f);
        [reflexivity | discriminate]).
  rewrite Hbranch in Hrun.
  apply bind_inv in Hrun as [(v & s1 & Hemo & _) | (e1 & Hemo & ->)].
  - apply bind_ok_inv in Hemo as (v1 & s2 & Hmul & _).
    apply tensor_op_ok_inv in Hmul as (? & ? & Hsem & _). discriminate.
  - apply bind_inv in Hemo as [(v1 & s2 & Hmul & _) | (e2 & Hmul & [= ->])].
    + apply tensor_op_ok_inv in Hmul as (? & ? & Hsem & _). discriminate.
    + apply tensor_op_err_inv in Hmul as (Hsem & ->).
      cbn in Hsem. injection Hsem as <-.
      split; [eexists; reflexivity|]. intros _. split; reflexivity.
Qed.

(** ** Scaling before the sinusoidal encoder *)

Lemma bind_assoc {S A B C} (m : M S A) (k1 : A -> M S B) (k2 : B -> M S C) s :
  bind (bind m k1) k2 s = bind m (fun a => bind (k1 a) k2) s.
Proof. unfold bind. destruct (m s) as [[a|e] s1]; reflexivity. Qed.

Lemma no_encoder_call tr encoder x c :
  Forall (fun ev => is_call encoder ev = false) tr ->
  encoder_input_scaled tr encoder x c.
Proof.
  intros Hall k ev Hk Hcall.
  rewrite Forall_lookup in Hall. rewrite (Hall k ev Hk) in Hcall.
  discriminate.
Qed.

Lemma forallb_not_call tr encoder :
  forallb (fun ev => negb (is_call encoder ev)) tr = true ->
  Forall (fun ev => is_call encoder ev = false) tr.
Proof.
  intros Hall. apply Forall_forall. intros ev Hin.
  apply list_elem_of_In in Hin. rewrite forallb_forall in Hall.
  specialize (Hall ev Hin). destruct (is_call encoder ev);
    [discriminate | reflexivity].
Qed.

Lemma no_encoder_call_b tr encoder x c :
  forallb (fun ev => negb (is_call encoder ev)) tr = true ->
  encoder_input_scaled tr encoder x c.
Proof. intros Hall. apply no_encoder_call, forallb_not_call, Hall. Qed.

Lemma scaled_at (pre : list event) (m r t : event) (new : list event)
    encoder x c l0 l :
  forallb (fun ev => negb (is_call encoder ev)) pre = true ->
  m = {| ev_op := Mul (float_of c); ev_args := [x]; ev_out := Fresh l0 |} ->
  r = {| ev_op := Rearrange "b f c -> (b f c)" [];
         ev_args := [VTensor l0]; ev_out := Fresh l |} ->
  ev_args t = [VTensor l] ->
  Forall (fun ev => is_call encoder ev = false) new ->
  encoder_input_scaled (pre ++ m :: r :: t :: new) encoder x c.
Proof.
  intros Hpre -> -> Ht Hnew k ev Hk Hcall.
  apply lookup_app_Some in Hk as [Hk | [Hlen Hk]].
  - apply forallb_not_call in Hpre. rewrite Forall_lookup in Hpre.
    rewrite (Hpre k ev Hk) in Hcall. discriminate.
  - destruct (k - length pre) as [|[|[|j]]] eqn:Hj; cbn in Hk.
    + injection Hk as <-. discriminate.
    + injection Hk as <-. discriminate.
    + injection Hk as <-. exists l0, l. split; [lia|].
      split; [|split]; [| |exact Ht].
      * rewrite lookup_app_r by lia.
        replace (k - 2 - length pre) with 0 by lia. reflexivity.
      * rewrite lookup_app_r by lia.
        replace (k - 1 - length pre) with 1 by lia. reflexivity.
    + rewrite Forall_lookup in Hnew. rewrite (Hnew j ev Hk) in Hcall.
      discriminate.
Qed.

Lemma emits_from_empty {S A} (P : event -> Prop) (m : M S A) obj h :
  respects (emits_rel P) m -> Forall P (trace (snd (run m obj h))).
Proof.
  intros Hm. destruct (Hm {| self := obj; heap := h; trace := [] |})
    as (new & Hnew & HP).
  unfold run. rewrite Hnew. exact HP.
Qed.

Section Scaling.
Context `{HMBlocks}.

(** What follows the call of the encoder never calls it again. *)
Ltac quiet_rest Hrest enc :=
  lazymatch type of Hrest with
  | ?m ?s = (?r, ?s') =>
      let E := fresh "Hquiet" in
      assert (E : emits_rel (fun ev => is_call enc ev = false) s s')
        by (apply (respects_run _ m s r s');
            [walk ltac:(apply emits_log; reflexivity) | exact Hrest])
  end.

(** [Hrun] is at the call of the encoder, seven prelude events, the
    multiplication and the flattening behind it. *)
Ltac scaling_tail Hrun enc :=
  let Hts := fresh "Hts" in
  let Hrest := fresh "Hrest" in
  apply bind_inv in Hrun as [(? & ? & Hts & Hrest) | (? & Hts & ->)];
  [ apply tensor_op_ok_inv in Hts as (? & ? & ? & ? & -> & ->);
    cbv beta in Hrest;
    quiet_rest Hrest enc;
    match goal with Hq : emits_rel _ _ _ |- _ =>
      destruct Hq as (? & -> & ?) end;
    split;
    [ cbn [trace log app];
      eapply (scaled_at [_; _; _; _; _; _; _]);
      [ reflexivity | reflexivity | reflexivity | reflexivity | assumption ]
    | intros _; cbn; reflexivity ]
  | apply tensor_op_err_inv in Hts as (? & ->);
    split;
    [ cbn [trace log app];
      eapply (scaled_at [_; _; _; _; _; _; _] _ _ _ []);
      [ reflexivity | reflexivity | reflexivity | reflexivity | constructor ]
    | intros [? ?]; discriminate ] ].

Ltac before_encoder :=
  split; [apply no_encoder_call_b; cbn; reflexivity
         | intros [? ?]; discriminate].

Lemma HMControlNet_scales c d f obj h :
  scales_before_embedding (run (HMControlNet.forward c d f) obj h)
                          "exp_embedding" d 500.
Proof.
  unfold scales_before_embedding, run.
  destruct (HMControlNet.forward c d f _) as [r s'] eqn:Hrun. cbn [fst snd].
  unfold HMControlNet.forward in Hrun. unfold_ops_in Hrun.
  do 13 step_any Hrun before_encoder.
  scaling_tail Hrun "exp_embedding".
Qed.

Lemma HMControlNet2_scales c e obj h :
  scales_before_embedding (run (HMControlNet2.forward c e) obj h)
                          "exp_embedding" e 20.
Proof.
  unfold scales_before_embedding, run.
  destruct (HMControlNet2.forward c e _) as [r s'] eqn:Hrun. cbn [fst snd].
  unfold HMControlNet2.forward in Hrun. unfold_ops_in Hrun.
  do 13 step_any Hrun before_encoder.
  scaling_tail Hrun "exp_embedding".
Qed.








End Scaling.

(** ** Dictionaries *)

Lemma dict_get_set d k k' v :
  dict_get (dict_set d k v) k' = if String.eqb k k' then Some v else dict_get d k'.
Proof.
  induction d as [|[k0 v0] d IH]; cbn.
  - reflexivity.
  - destruct (String.eqb_spec k0 k) as [->|Hne]; cbn.
    + destruct (String.eqb_spec k k'); reflexivity.
    + destruct (String.eqb_spec k0 k') as [->|Hne'].
      * destruct (String.eqb_spec k k'); [congruence | reflexivity].
      * exact IH.
Qed.

Lemma dict_get_set_eq d k v : dict_get (dict_set d k v) k = Some v.
Proof. rewrite dict_get_set, String.eqb_refl. reflexivity. Qed.

Lemma dict_get_set_ne d k k' v :
  k <> k' -> dict_get (dict_set d k v) k' = dict_get d k'.
Proof.
  intros Hne. rewrite dict_get_set.
  destruct (String.eqb_spec k k'); [contradiction | reflexivity].
Qed.

Lemma dict_set_fresh d k v :
  ~ In k (keys d) -> dict_set d k v = d ++ [(k, v)].
Proof.
  induction d as [|[k0 v0] d IH]; cbn; intros Hfresh.
  - reflexivity.
  - destruct (String.eqb_spec k0 k) as [->|Hne].
    + exfalso. apply Hfresh. left. reflexivity.
    + rewrite IH; [reflexivity|]. intros Hin. apply Hfresh. right. exact Hin.
Qed.

Lemma keys_app d1 d2 : keys (d1 ++ d2) = keys d1 ++ keys d2.
Proof. unfold keys. apply map_app. Qed.

(** Rendering of keys. *)
Lemma key_inj_nat prefix (i j : nat) :
  prefix +:+ pretty i = prefix +:+ pretty j -> i = j.
Proof.
  induction prefix as [|a prefix IH]; cbn; intros Heq.
  - exact (inj pretty _ _ Heq).
  - injection Heq as Heq. apply IH, Heq.
Qed.

Lemma key_inj_Z prefix (i j : Z) :
  prefix +:+ pretty i = prefix +:+ pretty j -> i = j.
Proof.
  induction prefix as [|a prefix IH]; cbn; intros Heq.
  - exact (inj pretty _ _ Heq).
  - injection Heq as Heq. apply IH, Heq.
Qed.

(** [H : m s = (r, s')] for a structured [m]: [s'] has the module of [s] and
    a heap that extends the heap of [s]. *)
Ltac frame_state H :=
  lazymatch type of H with
  | ?m ?s = (?r, ?s') =>
      let E := fresh "Hframe" in
      assert (E : frame_rel s s')
        by (apply (respects_run _ m s r s');
            [walk ltac:(apply frame_log) | exact H])
  end.

(** A conditional statement of a loop body: both ways through it. *)
Ltac inv_if Hrun :=
  let Hif := fresh "Hif" in
  apply bind_ok_inv in Hrun as (? & ? & Hif & Hrun);
  lazymatch type of Hif with
  | (if ?c then _ else _) _ = _ =>
      let E := fresh "Hcond" in
      destruct c eqn:E;
      [ repeat step_ok Hif | ];
      apply ret_ok_inv in Hif as [-> ->]; cbv beta in Hrun
  end.

Lemma for_enumerate_from_0 {S B L} (body : nat -> B -> L -> M S L)
    (I : nat -> L -> state S -> Prop) (all : list B) l s l' s' :
  (forall i x l s l' s',
      all !! i = Some x -> I i l s -> body i x l s = (Ok l', s') ->
      I (Datatypes.S i) l' s') ->
  I 0 l s ->
  for_enumerate all 0 body l s = (Ok l', s') ->
  I (length all) l' s'.
Proof.
  intros Hbody HI Hrun.
  exact (for_enumerate_ok body I all Hbody all [] l s l' s' eq_refl HI Hrun).
Qed.

(** ** Aliasing in the dictionary of HMV3ControlNet *)

Lemma up3_key_0 : "up3_" +:+ pretty 0%Z = "up3_0".
Proof. reflexivity. Qed.

Lemma up3_key_ne_0 (u : Z) : u <> 0%Z -> "up3_" +:+ pretty u <> "up3_0".
Proof.
  intros Hu Heq. rewrite <- up3_key_0 in Heq. apply key_inj_Z in Heq.
  contradiction.
Qed.

Ltac key_neq :=
  first [ discriminate
        | cbn [String.app]; discriminate
        | apply up3_key_ne_0; assumption ].

Ltac dict_simpl :=
  repeat first [ rewrite dict_get_set_eq
               | rewrite dict_get_set_ne by key_neq ].

Ltac dict_simpl_in H :=
  repeat first [ rewrite dict_get_set_eq in H
               | rewrite dict_get_set_ne in H by key_neq ].

Ltac eqb_to_eq :=
  repeat match goal with
         | Hc : (_ =? _)%Z = true |- _ => apply Z.eqb_eq in Hc
         | Hc : (_ =? _)%Z = false |- _ => apply Z.eqb_neq in Hc
         end.

(** C2: when [HMV3ControlNet.forward] returns, whatever is stored under
    ["up3_0"] is a tensor reference and the very same reference is stored
    under ["down3_2"] and ["down3_3"]; and ["up3_0"] is present as soon as the
    module has a fusion block. *)
Theorem HMV3_down3_aliases_up3_0 `{HMBlocks} c d f e obj h ret_dict :
  fst (run (HMV3ControlNet.forward c d f e) obj h) = Ok ret_dict ->
  aliases_up3_0 ret_dict
  /\ (HMV3ControlNet.blocks_down obj <> [] ->
      exists l, dict_get ret_dict "up3_0" = Some (VTensor l)).
Proof.
  unfold run. destruct (HMV3ControlNet.forward c d f e _) as [r s'] eqn:Hrun.
  cbn [fst]. intros ->.
  unfold HMV3ControlNet.forward in Hrun. unfold_ops_in Hrun.
  do 10 step_ok Hrun.
  apply bind_ok_inv in Hrun as (drive & s1 & Hbranch & Hrun).
  frame_state Hbranch. destruct Hframe as [Hself _]. cbn in Hself.
  clear Hbranch.
  step_ok Hrun.
  apply bind_ok_inv in Hrun as ([emb rd] & s2 & Hloop & Hret).
  apply ret_ok_inv in Hret as [-> ->].
  rewrite Hself in Hloop.
  set (nb := length (HMV3ControlNet.blocks_down obj)).
  pose (I := fun (i : nat) (l : value * pydict)
                 (s : state HMV3ControlNet.t) =>
               self s = obj /\ aliases_up3_0 (snd l)
               /\ (i = nb -> 0 < nb ->
                   exists l0, dict_get (snd l) "up3_0" = Some (VTensor l0))).
  apply (for_enumerate_from_0 _ I) in Hloop.
  - destruct Hloop as (_ & Hal & Hex). split; [exact Hal|].
    intros Hne. apply Hex; [reflexivity|].
    subst nb. destruct (HMV3ControlNet.blocks_down obj);
      [contradiction | cbn; lia].
  - clear. intros i blk [emb0 rd0] s [emb1 rd1] s1 Hblk (Hself & Hal & _) Hbody.
    step_ok Hbody. step_ok Hbody. step_ok Hbody.
    cbn [self log] in Hbody. rewrite Hself in Hbody. fold nb in Hbody.
    inv_if Hbody; inv_if Hbody; inv_if Hbody.
    all: apply ret_ok_inv in Hbody as [[= -> ->] ->].
    all: eqb_to_eq.
    all: try lia.
    all: split; [cbn [self log]; exact Hself|]; cbn [snd] in *.
    all: try match goal with
             | Hz : (_ - _ - 1)%Z = 0%Z |- _ =>
                 rewrite Hz in *; rewrite up3_key_0 in *;
                 repeat match goal with
                        | Hg : match dict_get _ _ with _ => _ end = Ok _
                          |- _ =>
                            dict_simpl_in Hg; injection Hg as <-
                        end;
                 split;
                 [ intros v Hv; dict_simpl_in Hv; injection Hv as <-;
                   dict_simpl; eauto
                 | intros _ _; dict_simpl; eauto ]
             end.
    all: (split;
          [ intros v Hv; dict_simpl_in Hv;
            destruct (Hal v Hv) as (A & B & C); dict_simpl; auto
          | intros Hn; lia ]).
  - split; [exact Hself|]. split.
    + intros v Hv. discriminate.
    + intros Hn Hpos. lia.
Qed.

Lemma HMV3_down3_aliases_up3_0_witness :
  fst (run (HMV3ControlNet.forward (H:=spatial_block)
              (VTensor 0) (VTensor 1) (VTensor 2) VNone)
           default_HMV3ControlNet example_heap)
  = Ok [("up3_3", VTensor 19); ("up3_2", VTensor 21);
        ("down3_0", VTensor 23); ("up3_1", VTensor 25);
        ("down3_1", VTensor 27); ("up3_0", VTensor 29);
        ("down3_2", VTensor 29); ("down3_3", VTensor 29)]
  /\ aliases_up3_0
       [("up3_3", VTensor 19); ("up3_2", VTensor 21);
        ("down3_0", VTensor 23); ("up3_1", VTensor 25);
        ("down3_1", VTensor 27); ("up3_0", VTensor 29);
        ("down3_2", VTensor 29); ("down3_3", VTensor 29)].
Proof.
  split; [vm_compute; reflexivity|].
  apply (HMV3_down3_aliases_up3_0 (H:=spatial_block)
           (VTensor 0) (VTensor 1) (VTensor 2) VNone
           default_HMV3ControlNet example_heap).
  vm_compute. reflexivity.
Defined.

(** ** One entry per fusion block *)

Lemma stage_outputs_keys tr key n d :
  stage_outputs tr key n d -> keys d = map key (seq 0 n).
Proof.
  unfold stage_outputs. generalize (seq 0 n). intros l Hall.
  unfold keys.
  induction Hall as [|i kv l d [Hk _] _ IH]; cbn [map]; [reflexivity|].
  rewrite Hk, IH. reflexivity.
Qed.

Lemma stage_outputs_length tr key n d :
  stage_outputs tr key n d -> length d = n.
Proof.
  intros Hd. apply Forall2_length in Hd. rewrite length_seq in Hd.
  symmetry. exact Hd.
Qed.

Lemma stage_outputs_step tr tr' key i d v :
  stage_outputs tr key i d ->
  (forall ev, In ev tr -> In ev tr') ->
  (forall j, j < i -> key j <> key i) ->
  stores_block_output tr' key i (key i, v) ->
  stage_outputs tr' key (Datatypes.S i) (dict_set d (key i) v).
Proof.
  intros Hd Hsub Hinj Hnew. unfold stage_outputs.
  rewrite dict_set_fresh.
  - rewrite seq_S. cbn.
    apply Forall2_app; [|constructor; [exact Hnew | constructor]].
    eapply Forall2_impl; [exact Hd|].
    intros j kv (Hk & e & l & args & axes & H1 & H2 & H3).
    split; [exact Hk|]. exists e, l, args, axes. auto.
  - rewrite (stage_outputs_keys _ _ _ _ Hd). intros Hin.
    apply in_map_iff in Hin as (j & Hj & Hin). apply in_seq in Hin.
    apply (Hinj j); [lia | exact Hj].
Qed.

Section Stages.
Context `{HMBlocks}.

(** The loop of the four variants with one key per block: [Hloop] is the
    run of the loop from a state whose module is [obj]. *)
Ltac stage_loop Hloop obj key key_inj :=
  let I := fresh "I" in
  pose (I := fun (i : nat) (l : value * pydict) s =>
               self s = obj /\ stage_outputs (trace s) key i (snd l));
  apply (for_enumerate_from_0 _ I) in Hloop;
  [ apply Hloop
  | clear; intros i blk [emb0 rd0] s [emb1 rd1] s1 Hblk (Hself & Hd) Hbody;
    repeat step_ok Hbody;
    apply ret_ok_inv in Hbody as [[= -> ->] ->];
    subst I; cbn [self log snd trace] in *; rewrite ?Hself;
    split; [reflexivity|];
    apply (stage_outputs_step (trace s) _ key i rd0);
    [ exact Hd
    | intros ev Hin; rewrite !in_app_iff; auto
    | intros j Hj Heq; apply key_inj in Heq; lia
    | split; [reflexivity|]; eexists _, _, _, _;
      split; [|split; [|reflexivity]]; rewrite !in_app_iff; cbn; eauto ]
  | split; [reflexivity | constructor] ].

Ltac to_loop Hrun Hloop :=
  repeat step_ok Hrun;
  apply bind_ok_inv in Hrun as ([? ?] & ? & Hloop & Hrun);
  apply ret_ok_inv in Hrun as [-> ->];
  cbn [self log] in Hloop.

Lemma HMControlNet_stage_outputs c d f obj h ret_dict :
  fst (run (HMControlNet.forward c d f) obj h) = Ok ret_dict ->
  stage_outputs (trace (snd (run (HMControlNet.forward c d f) obj h)))
    (ascending_key "down_") (length (HMControlNet.blocks_down obj)) ret_dict.
Proof.
  unfold run. destruct (HMControlNet.forward c d f _) as [r s'] eqn:Hrun.
  cbn [fst snd]. intros ->.
  unfold HMControlNet.forward in Hrun. unfold_ops_in Hrun.
  to_loop Hrun Hloop.
  stage_loop Hloop obj (ascending_key "down_") key_inj_nat.
Qed.

Lemma HMControlNet2_stage_outputs c e obj h ret_dict :
  fst (run (HMControlNet2.forward c e) obj h) = Ok ret_dict ->
  stage_outputs (trace (snd (run (HMControlNet2.forward c e) obj h)))
    (ascending_key "down2_") (length (HMControlNet2.blocks_down obj)) ret_dict.
Proof.
  unfold run. destruct (HMControlNet2.forward c e _) as [r s'] eqn:Hrun.
  cbn [fst snd]. intros ->.
  unfold HMControlNet2.forward in Hrun. unfold_ops_in Hrun.
  to_loop Hrun Hloop.
  stage_loop Hloop obj (ascending_key "down2_") key_inj_nat.
Qed.

Lemma HMV2ControlNet_stage_outputs c d f obj h ret_dict :
  fst (run (HMV2ControlNet.forward c d f) obj h) = Ok ret_dict ->
  stage_outputs (trace (snd (run (HMV2ControlNet.forward c d f) obj h)))
    (descending_key "up_v2_" (length (HMV2ControlNet.blocks_down obj)))
    (length (HMV2ControlNet.blocks_down obj)) ret_dict.
Proof.
  unfold run. destruct (HMV2ControlNet.forward c d f _) as [r s'] eqn:Hrun.
  cbn [fst snd]. intros ->.
  unfold HMV2ControlNet.forward in Hrun. unfold_ops_in Hrun.
  to_loop Hrun Hloop.
  stage_loop Hloop obj
    (descending_key "up_v2_" (length (HMV2ControlNet.blocks_down obj)))
    key_inj_Z.
Qed.

Lemma HMV2ControlNet2_stage_outputs c e obj h ret_dict :
  fst (run (HMV2ControlNet2.forward c e) obj h) = Ok ret_dict ->
  stage_outputs (trace (snd (run (HMV2ControlNet2.forward c e) obj h)))
    (descending_key "up2_v2_" (length (HMV2ControlNet2.blocks_down obj)))
    (length (HMV2ControlNet2.blocks_down obj)) ret_dict.
Proof.
  unfold run. destruct (HMV2ControlNet2.forward c e _) as [r s'] eqn:Hrun.
  cbn [fst snd]. intros ->.
  unfold HMV2ControlNet2.forward in Hrun. unfold_ops_in Hrun.
  to_loop Hrun Hloop.
  stage_loop Hloop obj
    (descending_key "up2_v2_" (length (HMV2ControlNet2.blocks_down obj)))
    key_inj_Z.
Qed.

End Stages.

(** ** The number of fusion blocks *)

Lemma length_range_1 n : length (range 1 n) = n - 1.
Proof. unfold range. apply length_seq. Qed.

Lemma HMControlNet_blocks cfg obj :
  HMControlNet.init cfg = Ok obj ->
  length (HMControlNet.blocks_down obj)
  = length (cfg_block_out_channels cfg) - 1.
Proof.
  unfold HMControlNet.init. destruct (first_item _); [|discriminate].
  intros [= <-]. cbn. rewrite length_map. apply length_range_1.
Qed.

Lemma HMControlNet2_blocks cfg obj :
  HMControlNet2.init cfg = Ok obj ->
  length (HMControlNet2.blocks_down obj)
  = length (cfg_block_out_channels cfg) - 1.
Proof.
  unfold HMControlNet2.init. destruct (first_item _); [|discriminate].
  intros [= <-]. cbn. rewrite length_map. apply length_range_1.
Qed.

Lemma HMV2ControlNet_blocks cfg obj :
  HMV2ControlNet.init cfg = Ok obj ->
  length (HMV2ControlNet.blocks_down obj)
  = length (cfg_block_out_channels cfg) - 1.
Proof.
  unfold HMV2ControlNet.init. destruct (first_item _); [|discriminate].
  intros [= <-]. cbn. rewrite length_map. apply length_range_1.
Qed.

Lemma HMV3ControlNet_blocks cfg obj :
  HMV3ControlNet.init cfg = Ok obj ->
  length (HMV3ControlNet.blocks_down obj)
  = length (cfg_block_out_channels cfg) - 1.
Proof.
  unfold HMV3ControlNet.init. destruct (first_item _); [|discriminate].
  intros [= <-]. cbn. rewrite length_map. apply length_range_1.
Qed.

Lemma HMV2ControlNet2_blocks cfg obj :
  HMV2ControlNet2.init cfg = Ok obj ->
  length (HMV2ControlNet2.blocks_down obj)
  = length (cfg_block_out_channels cfg) - 1.
Proof.
  unfold HMV2ControlNet2.init. destruct (first_item _); [|discriminate].
  intros [= <-]. cbn. rewrite length_map. apply length_range_1.
Qed.

(** ** The keys of HMV3ControlNet *)

Lemma keys_dict_set_fresh d k v :
  ~ In k (keys d) -> keys (dict_set d k v) = keys d ++ [k].
Proof. intros Hf. rewrite dict_set_fresh by exact Hf. apply keys_app. Qed.

Lemma stage_keys_cases n j k :
  In k (HMV3_stage_keys n j) ->
  let u := (Z.of_nat n - Z.of_nat j - 1)%Z in
  k = "up3_" +:+ pretty u
  \/ (k = "down3_0" /\ u = 2%Z)
  \/ (k = "down3_1" /\ u = 1%Z)
  \/ ((k = "down3_2" \/ k = "down3_3") /\ u = 0%Z).
Proof.
  unfold HMV3_stage_keys. cbn zeta. intros Hin.
  destruct (Z.eqb_spec (Z.of_nat n - Z.of_nat j - 1) 2) as [E2|E2];
  destruct (Z.eqb_spec (Z.of_nat n - Z.of_nat j - 1) 1) as [E1|E1];
  destruct (Z.eqb_spec (Z.of_nat n - Z.of_nat j - 1) 0) as [E0|E0];
  cbn in Hin; intuition (subst; auto).
Qed.

Lemma not_in_earlier n i k :
  (forall j, j < i -> ~ In k (HMV3_stage_keys n j)) ->
  ~ In k (flat_map (HMV3_stage_keys n) (seq 0 i)).
Proof.
  intros Hj Hin. apply in_flat_map in Hin as (j & Hin & Hk).
  apply in_seq in Hin. apply (Hj j); [lia | exact Hk].
Qed.

Lemma up3_fresh n i j :
  j < i ->
  ~ In ("up3_" +:+ pretty (Z.of_nat n - Z.of_nat i - 1)%Z)
       (HMV3_stage_keys n j).
Proof.
  intros Hlt Hin. apply stage_keys_cases in Hin. cbn zeta in Hin.
  destruct Hin as [Heq | [[Heq _] | [[Heq _] | [[Heq|Heq] _]]]].
  - apply key_inj_Z in Heq. lia.
  - discriminate Heq.
  - discriminate Heq.
  - discriminate Heq.
  - discriminate Heq.
Qed.

Lemma down3_fresh n i j k (u0 : Z) :
  j < i -> (Z.of_nat n - Z.of_nat i - 1)%Z = u0 ->
  (k = "down3_0" /\ u0 = 2%Z) \/ (k = "down3_1" /\ u0 = 1%Z)
  \/ ((k = "down3_2" \/ k = "down3_3") /\ u0 = 0%Z) ->
  ~ In k (HMV3_stage_keys n j).
Proof.
  intros Hlt Hu Hk Hin. apply stage_keys_cases in Hin. cbn zeta in Hin.
  destruct Hk as [[-> ->] | [[-> ->] | [[-> | ->] ->]]];
    destruct Hin as [Heq | [[Heq Hj] | [[Heq Hj] | [[Heq|Heq] Hj]]]];
    try discriminate Heq; lia.
Qed.

Lemma fresh_up3 n i d :
  keys d = flat_map (HMV3_stage_keys n) (seq 0 i) ->
  ~ In ("up3_" +:+ pretty (Z.of_nat n - Z.of_nat i - 1)%Z) (keys d).
Proof.
  intros ->. apply not_in_earlier. intros j Hj. apply up3_fresh, Hj.
Qed.

Lemma fresh_down3 n i d k u0 rest :
  keys d = flat_map (HMV3_stage_keys n) (seq 0 i) ->
  (Z.of_nat n - Z.of_nat i - 1)%Z = u0 ->
  (k = "down3_0" /\ u0 = 2%Z) \/ (k = "down3_1" /\ u0 = 1%Z)
  \/ ((k = "down3_2" \/ k = "down3_3") /\ u0 = 0%Z) ->
  ~ In k rest ->
  ~ In k (keys d ++ rest).
Proof.
  intros -> Hu Hk Hrest Hin. apply in_app_iff in Hin as [Hin | Hin];
    [|contradiction].
  revert Hin. apply not_in_earlier. intros j Hj.
  apply (down3_fresh n i j k u0); assumption.
Qed.

Lemma HMV3ControlNet_keys `{HMBlocks} c d f e obj h ret_dict :
  fst (run (HMV3ControlNet.forward c d f e) obj h) = Ok ret_dict ->
  keys ret_dict
  = flat_map (HMV3_stage_keys (length (HMV3ControlNet.blocks_down obj)))
             (seq 0 (length (HMV3ControlNet.blocks_down obj))).
Proof.
  unfold run. destruct (HMV3ControlNet.forward c d f e _) as [r s'] eqn:Hrun.
  cbn [fst]. intros ->.
  unfold HMV3ControlNet.forward in Hrun. unfold_ops_in Hrun.
  do 10 step_ok Hrun.
  apply bind_ok_inv in Hrun as (drive & s1 & Hbranch & Hrun).
  frame_state Hbranch. destruct Hframe as [Hself _]. cbn in Hself.
  clear Hbranch.
  step_ok Hrun.
  apply bind_ok_inv in Hrun as ([emb rd] & s2 & Hloop & Hret).
  apply ret_ok_inv in Hret as [-> ->].
  rewrite Hself in Hloop.
  set (nb := length (HMV3ControlNet.blocks_down obj)).
  pose (I := fun (i : nat) (l : value * pydict)
                 (s : state HMV3ControlNet.t) =>
               self s = obj
               /\ keys (snd l) = flat_map (HMV3_stage_keys nb) (seq 0 i)).
  apply (for_enumerate_from_0 _ I) in Hloop.
  - apply Hloop.
  - clear. intros i blk [emb0 rd0] s [emb1 rd1] s1 Hblk (Hself & Hkeys) Hbody.
    step_ok Hbody. step_ok Hbody. step_ok Hbody.
    cbn [self log] in Hbody. rewrite Hself in Hbody. fold nb in Hbody.
    inv_if Hbody; inv_if Hbody; inv_if Hbody.
    all: apply ret_ok_inv in Hbody as [[= -> ->] ->].
    all: subst I; cbn [self log snd] in *; split; [exact Hself|].
    all: rewrite seq_S, flat_map_app; cbn [flat_map Nat.add];
      rewrite app_nil_r.
    all: unfold HMV3_stage_keys at 2; cbn zeta.
    all: repeat match goal with Hc : (_ =? _)%Z = _ |- _ => rewrite Hc end.
    all: eqb_to_eq; try lia.
    all: repeat rewrite keys_dict_set_fresh.
    all: rewrite <- ?app_assoc.
    all: try (rewrite Hkeys; reflexivity).
    all: first
           [ apply (fresh_up3 nb i), Hkeys
           | eapply (fresh_down3 nb i);
             [ exact Hkeys
             | eassumption
             | first [ left; split; reflexivity
                     | right; left; split; reflexivity
                     | right; right; split; [left; reflexivity | reflexivity]
                     | right; right; split; [right; reflexivity | reflexivity] ]
             | cbn [In app]; intros Hin;
               repeat (destruct Hin as [Hin | Hin]; [discriminate Hin|]);
               exact Hin ] ].
  - split; [exact Hself | reflexivity].
Qed.

Lemma prefix_app p s : String.prefix p (p +:+ s) = true.
Proof.
  induction p as [|a p IH].
  - destruct s; reflexivity.
  - change (String a p +:+ s) with (String a (p +:+ s)). simpl.
    destruct (ascii_dec a a); [exact IH | contradiction].
Qed.

Lemma HMV3_stage_keys_up3 n i :
  List.filter (String.prefix "up3_") (HMV3_stage_keys n i)
  = ["up3_" +:+ pretty (Z.of_nat n - Z.of_nat i - 1)%Z].
Proof.
  unfold HMV3_stage_keys. cbn zeta. cbn [app List.filter].
  rewrite prefix_app.
  destruct (_ =? 2)%Z, (_ =? 1)%Z, (_ =? 0)%Z; reflexivity.
Qed.

Lemma HMV3_stage_keys_prefixes n i :
  forallb (fun k => String.prefix "up3_" k || String.prefix "down3_" k)
          (HMV3_stage_keys n i) = true.
Proof.
  unfold HMV3_stage_keys. cbn zeta. cbn [app forallb].
  rewrite prefix_app.
  destruct (_ =? 2)%Z, (_ =? 1)%Z, (_ =? 0)%Z; reflexivity.
Qed.

Lemma HMV3_up3_count n m :
  length (List.filter (String.prefix "up3_")
                      (flat_map (HMV3_stage_keys n) (seq 0 m))) = m.
Proof.
  induction m as [|m IH]; [reflexivity|].
  rewrite seq_S, flat_map_app, List.filter_app, length_app, IH.
  cbn [flat_map Nat.add]. rewrite app_nil_r, HMV3_stage_keys_up3.
  cbn. lia.
Qed.

Lemma HMV3_all_prefixed n m :
  forallb (fun k => String.prefix "up3_" k || String.prefix "down3_" k)
          (flat_map (HMV3_stage_keys n) (seq 0 m)) = true.
Proof.
  induction m as [|m IH]; [reflexivity|].
  rewrite seq_S, flat_map_app, forallb_app, IH.
  cbn [flat_map Nat.add]. rewrite app_nil_r. apply HMV3_stage_keys_prefixes.
Qed.

(** ** Keys of the returned dictionary *)

(** C3, as the code has it: for a module built by the constructor and a
    forward call that returns, [HMControlNet], [HMControlNet2],
    [HMV2ControlNet] and [HMV2ControlNet2] return exactly
    [len(block_out_channels) - 1] keys, with the prefixes [down_], [down2_],
    [up_v2_] and [up2_v2_]; [HMV3ControlNet] returns
    [len(block_out_channels) - 1] keys with the prefix [up3_] and, besides
    them, the keys with the prefix [down3_] that its loop adds at the stages
    2, 1 and 0. *)
Theorem output_keys_by_variant `{HMBlocks} :
  (forall cfg obj c d f h ret_dict,
     HMControlNet.init cfg = Ok obj ->
     fst (run (HMControlNet.forward c d f) obj h) = Ok ret_dict ->
     let n := length (cfg_block_out_channels cfg) - 1 in
     length ret_dict = n
     /\ keys ret_dict = map (ascending_key "down_") (seq 0 n))
  /\ (forall cfg obj c e h ret_dict,
        HMControlNet2.init cfg = Ok obj ->
        fst (run (HMControlNet2.forward c e) obj h) = Ok ret_dict ->
        let n := length (cfg_block_out_channels cfg) - 1 in
        length ret_dict = n
        /\ keys ret_dict = map (ascending_key "down2_") (seq 0 n))
  /\ (forall cfg obj c d f h ret_dict,
        HMV2ControlNet.init cfg = Ok obj ->
        fst (run (HMV2ControlNet.forward c d f) obj h) = Ok ret_dict ->
        let n := length (cfg_block_out_channels cfg) - 1 in
        length ret_dict = n
        /\ keys ret_dict = map (descending_key "up_v2_" n) (seq 0 n))
  /\ (forall cfg obj c d f e h ret_dict,
        HMV3ControlNet.init cfg = Ok obj ->
        fst (run (HMV3ControlNet.forward c d f e) obj h) = Ok ret_dict ->
        let n := length (cfg_block_out_channels cfg) - 1 in
        keys ret_dict = flat_map (HMV3_stage_keys n) (seq 0 n)
        /\ length (List.filter (String.prefix "up3_") (keys ret_dict)) = n
        /\ forallb (fun k => String.prefix "up3_" k
                             || String.prefix "down3_" k)
                   (keys ret_dict) = true)
  /\ (forall cfg obj c e h ret_dict,
        HMV2ControlNet2.init cfg = Ok obj ->
        fst (run (HMV2ControlNet2.forward c e) obj h) = Ok ret_dict ->
        let n := length (cfg_block_out_channels cfg) - 1 in
        length ret_dict = n
        /\ keys ret_dict = map (descending_key "up2_v2_" n) (seq 0 n)).
Proof.
  split5.
  - intros cfg obj c d f h rd Hinit Hrun n. subst n.
    rewrite <- (HMControlNet_blocks _ _ Hinit).
    apply HMControlNet_stage_outputs in Hrun.
    split; [eapply stage_outputs_length | eapply stage_outputs_keys];
      exact Hrun.
  - intros cfg obj c e h rd Hinit Hrun n. subst n.
    rewrite <- (HMControlNet2_blocks _ _ Hinit).
    apply HMControlNet2_stage_outputs in Hrun.
    split; [eapply stage_outputs_length | eapply stage_outputs_keys];
      exact Hrun.
  - intros cfg obj c d f h rd Hinit Hrun n. subst n.
    rewrite <- (HMV2ControlNet_blocks _ _ Hinit).
    apply HMV2ControlNet_stage_outputs in Hrun.
    split; [eapply stage_outputs_length | eapply stage_outputs_keys];
      exact Hrun.
  - intros cfg obj c d f e h rd Hinit Hrun n. subst n.
    rewrite <- (HMV3ControlNet_blocks _ _ Hinit).
    apply HMV3ControlNet_keys in Hrun. rewrite Hrun.
    split; [reflexivity|]. split.
    + apply HMV3_up3_count.
    + apply HMV3_all_prefixed.
  - intros cfg obj c e h rd Hinit Hrun n. subst n.
    rewrite <- (HMV2ControlNet2_blocks _ _ Hinit).
    apply HMV2ControlNet2_stage_outputs in Hrun.
    split; [eapply stage_outputs_length | eapply stage_outputs_keys];
      exact Hrun.
Qed.

(** The default [HMV3ControlNet] has five channel widths, hence four fusion
    blocks, and returns eight keys. *)
Lemma HMV3_key_count_counterexample :
  HMV3ControlNet.init HMV3ControlNet.default_config
  = Ok default_HMV3ControlNet
  /\ exists ret_dict,
       fst (run (HMV3ControlNet.forward (H:=spatial_block)
                   (VTensor 0) (VTensor 1) (VTensor 2) VNone)
                default_HMV3ControlNet example_heap) = Ok ret_dict
       /\ length ret_dict = 8
       /\ length ret_dict
          <> length (cfg_block_out_channels HMV3ControlNet.default_config) - 1.
Proof.
  split; [reflexivity|]. eexists. split; [vm_compute; reflexivity|].
  split; [reflexivity | discriminate].
Qed.

Lemma output_keys_by_variant_witness :
  keys [("up3_3", VTensor 19); ("up3_2", VTensor 21);
        ("down3_0", VTensor 23); ("up3_1", VTensor 25);
        ("down3_1", VTensor 27); ("up3_0", VTensor 29);
        ("down3_2", VTensor 29); ("down3_3", VTensor 29)]
  = flat_map (HMV3_stage_keys 4) (seq 0 4)
  /\ length (List.filter (String.prefix "up3_")
       (keys [("up3_3", VTensor 19); ("up3_2", VTensor 21);
              ("down3_0", VTensor 23); ("up3_1", VTensor 25);
              ("down3_1", VTensor 27); ("up3_0", VTensor 29);
              ("down3_2", VTensor 29); ("down3_3", VTensor 29)])) = 4
  /\ forallb (fun k => String.prefix "up3_" k || String.prefix "down3_" k)
       (keys [("up3_3", VTensor 19); ("up3_2", VTensor 21);
              ("down3_0", VTensor 23); ("up3_1", VTensor 25);
              ("down3_1", VTensor 27); ("up3_0", VTensor 29);
              ("down3_2", VTensor 29); ("down3_3", VTensor 29)]) = true.
Proof.
  destruct (output_keys_by_variant (H:=spatial_block)) as (_ & _ & _ & Hv3 & _).
  apply (Hv3 HMV3ControlNet.default_config default_HMV3ControlNet
             (VTensor 0) (VTensor 1) (VTensor 2) VNone example_heap).
  - reflexivity.
  - vm_compute. reflexivity.
Defined.

(** ** Descending keys *)



Lemma HMV3_none_emotion_raises_witness :
  fst (run (HMV3ControlNet.forward (H:=spatial_block)
              (VTensor 0) (VTensor 1) VNone VNone)
           default_HMV3ControlNet example_heap) = Err TypeError.
Proof.
  apply (HMV3_none_emotion_raises (H:=spatial_block)
           (VTensor 0) (VTensor 1) VNone
           default_HMV3ControlNet example_heap).
  - reflexivity.
  - vm_compute. reflexivity.
Defined.

(** ** Shapes *)

Lemma grows_refl h : grows h h.
Proof. intros l sh Hl. exact Hl. Qed.

Lemma grows_app h new : grows h (h ++ new).
Proof. intros l sh Hl. apply lookup_app_l_Some. exact Hl. Qed.

Lemma grows_eq (h h' : list shape) : h' = h -> grows h h'.
Proof. intros ->. apply grows_refl. Qed.

Lemma frame_grows {S} (s s' : state S) :
  frame_rel s s' -> grows (heap s) (heap s').
Proof. intros [_ [new ->]]. apply grows_app. Qed.

Lemma rearrange_in_shape b c f h w :
  Einops.rearrange_shape "b c f h w -> (b f) c h w" [] [b; c; f; h; w]
  = Ok [b * f; c; h; w].
Proof. reflexivity. Qed.

Lemma rearrange_out_eq n c f h w :
  Einops.rearrange_shape "(b f) c h w -> b c f h w" [("f", f)] [n; c; h; w]
  = if f =? 0 then Err ZeroDivisionError
    else if n mod f =? 0 then Ok [n / f; c; f; h; w] else Err EinopsError.
Proof.
  cbv -[Nat.eqb Nat.div Nat.modulo Nat.mul].
  destruct (f =? 0); [reflexivity|].
  destruct (n mod f =? 0); reflexivity.
Qed.

Lemma rearrange_out_shape n c f h w r :
  Einops.rearrange_shape "(b f) c h w -> b c f h w" [("f", f)] [n; c; h; w]
  = Ok r ->
  f <> 0 /\ r = [n / f; c; f; h; w].
Proof.
  rewrite rearrange_out_eq. destruct (f =? 0) eqn:Hf; [discriminate|].
  destruct (n mod f =? 0); [|discriminate].
  intros [= <-]. apply Nat.eqb_neq in Hf. auto.
Qed.




Lemma block_sem_ok `{HMBlocks} hp y m n c h w e r :
  block_contract H ->
  rbind (tensor_shape hp y e)
        (fun sy => SKCrossAttention_forward m [n; c; h; w] sy) = Ok r ->
  exists h' w', r = [n; SKCrossAttention.channel_out m; h'; w'].
Proof.
  intros Hc. destruct (tensor_shape hp y e) as [sy|]; [|discriminate].
  cbn [rbind]. apply Hc.
Qed.

Lemma tensor_shape_lookup (h : list shape) l e sh :
  h !! l = Some sh -> tensor_shape h (VTensor l) e = Ok sh.
Proof. intros Hl. cbn. rewrite Hl. reflexivity. Qed.

Lemma tensor_op_ok_heap {S} o args sem (s : state S) v s' :
  tensor_op o args sem s = (Ok v, s') ->
  exists sh l,
    sem (heap s) = Ok sh /\ v = VTensor l /\ heap s' !! l = Some sh
    /\ self s' = self s /\ grows (heap s) (heap s').
Proof.
  intros Hop. apply tensor_op_ok_inv in Hop as (sh & l & Hsem & -> & -> & ->).
  exists sh, (length (heap s)). cbn.
  repeat split; auto.
  - apply list_lookup_middle. reflexivity.
  - apply grows_app.
Qed.

Lemma py_op_ok_heap {S A} o args (sem : list shape -> result A)
    (s : state S) a s' :
  py_op o args sem s = (Ok a, s') ->
  sem (heap s) = Ok a /\ self s' = self s /\ heap s' = heap s.
Proof.
  intros Hop. apply py_op_ok_inv in Hop as (Hsem & ->). cbn.
  rewrite app_nil_r. auto.
Qed.

Lemma Forall_dict_set (P : string * value -> Prop) d k v :
  Forall P d -> P (k, v) -> Forall P (dict_set d k v).
Proof.
  intros Hd Hkv. induction Hd as [|[k0 v0] d H0 Hd IH]; cbn.
  - constructor; [exact Hkv | constructor].
  - destruct (String.eqb_spec k0 k) as [->|Hne].
    + constructor; [exact Hkv | exact Hd].
    + constructor; [exact H0 | exact IH].
Qed.



(** One step of a successful run, keeping what is known of the heap. *)
Ltac transport Hgrow :=
  lazymatch type of Hgrow with
  | grows (heap ?s) _ =>
      repeat match goal with
             | Hx : heap s !! _ = Some _ |- _ => apply Hgrow in Hx
             end
  end.

Lemma rbind_ok {A B} (a : A) (k : A -> result B) : rbind (Ok a) k = k a.
Proof. reflexivity. Qed.

Ltac simpl_sem Hsem :=
  repeat (erewrite tensor_shape_lookup in Hsem by eassumption;
          rewrite ?rbind_ok in Hsem; cbv beta in Hsem).




Lemma spatial_block_contract : block_contract spatial_block.
Proof.
  intros m n c h w y r. unfold SKCrossAttention_forward, spatial_block.
  destruct y as [|n' [|k [|d' [|]]]]; try discriminate.
  destruct (_ && _); [|discriminate].
  intros [= <-]. eauto.
Qed.

Lemma lookup_map {A B} (g : A -> B) (l : list A) i :
  map g l !! i = g <$> (l !! i).
Proof.
  revert i. induction l as [|a l IH]; intros [|i]; cbn; auto.
Qed.

Lemma made_blocks_lookup (mk : nat -> SKCrossAttention.t) (widths : list nat)
    i blk :
  map mk (range 1 (length widths)) !! i = Some blk ->
  Datatypes.S i < length widths /\ blk = mk (Datatypes.S i).
Proof.
  unfold range. rewrite lookup_map. intros Hl.
  destruct (seq 1 (length widths - 1) !! i) as [j|] eqn:Hj; [|discriminate].
  injection Hl as <-. apply lookup_seq in Hj as [-> Hlt].
  split; [lia | reflexivity].
Qed.

Section Shapes.
Context `{HMBlocks}.










End Shapes.

(** ** Widths of the stages of a constructed module *)




Lemma HMV3ControlNet_block_width cfg obj i blk :
  HMV3ControlNet.init cfg = Ok obj ->
  HMV3ControlNet.blocks_down obj !! i = Some blk ->
  Datatypes.S i < length (cfg_block_out_channels cfg)
  /\ SKCrossAttention.channel_out blk
     = item (cfg_block_out_channels cfg) (Datatypes.S i).
Proof.
  unfold HMV3ControlNet.init. destruct (first_item _); [|discriminate].
  intros [= <-]. cbn [HMV3ControlNet.blocks_down]. intros Hl.
  apply made_blocks_lookup in Hl as [Hlt ->]. auto.
Qed.






(** ** HMControlNet2 against HMControlNet *)

(** The two default configurations are the same, and the fusion blocks the
    two constructors build from it differ. *)
Lemma HMControlNet2_same_structure_counterexample :
  HMControlNet.default_config = HMControlNet2.default_config
  /\ HMControlNet.init HMControlNet.default_config = Ok default_HMControlNet
  /\ HMControlNet2.init HMControlNet2.default_config
     = Ok default_HMControlNet2
  /\ ~ same_structure default_HMControlNet default_HMControlNet2.
Proof.
  split; [reflexivity|]. split; [reflexivity|]. split; [reflexivity|].
  intros (_ & _ & _ & _ & _ & Hblocks). vm_compute in Hblocks.
  discriminate Hblocks.
Qed.

Lemma HMControlNet2_never_calls_face_proj `{HMBlocks} c e obj h :
  Forall (fun ev => is_call "face_proj" ev = false)
         (trace (snd (run (HMControlNet2.forward c e) obj h))).
Proof.
  apply emits_from_empty. unfold_forward; unfold_ops.
  walk ltac:(apply emits_log; reflexivity).
Qed.

(** C7, as the code has it: built from the same arguments, [HMControlNet2]
    has the configuration fields, the input convolution, the sinusoidal
    encoder and the final projection of [HMControlNet], and the same chain of
    fusion blocks except that [num_positional_embeddings_hidden] is 1024
    where [HMControlNet] has 64; it has no [face_proj] and never calls one;
    and it scales its single emotion input by 20 where [HMControlNet] scales
    the expression coefficients by 500. *)
Theorem HMControlNet2_mirrors_HMControlNet `{HMBlocks} cfg m1 m2 :
  HMControlNet.init cfg = Ok m1 ->
  HMControlNet2.init cfg = Ok m2 ->
  same_structure_up_to_hidden m1 m2
  /\ (forall c d f h,
        encoder_input_scaled
          (trace (snd (run (HMControlNet.forward c d f) m1 h)))
          "exp_embedding" d 500)
  /\ (forall c e h,
        encoder_input_scaled
          (trace (snd (run (HMControlNet2.forward c e) m2 h)))
          "exp_embedding" e 20
        /\ Forall (fun ev => is_call "face_proj" ev = false)
                  (trace (snd (run (HMControlNet2.forward c e) m2 h)))).
Proof.
  intros H1 H2. split; [|split].
  - unfold HMControlNet.init in H1. unfold HMControlNet2.init in H2.
    destruct (first_item _); [|discriminate].
    injection H1 as <-. injection H2 as <-.
    unfold same_structure_up_to_hidden. cbn.
    repeat (split; [reflexivity|]).
    split; [|split].
    + rewrite map_map. reflexivity.
    + apply Forall_forall. intros b Hb.
      apply list_elem_of_In, in_map_iff in Hb as (i & <- & _). reflexivity.
    + apply Forall_forall. intros b Hb.
      apply list_elem_of_In, in_map_iff in Hb as (i & <- & _). reflexivity.
  - intros c d f h. apply HMControlNet_scales.
  - intros c e h. split.
    + apply HMControlNet2_scales.
    + apply HMControlNet2_never_calls_face_proj.
Qed.

Lemma HMControlNet2_mirrors_HMControlNet_witness :
  same_structure_up_to_hidden default_HMControlNet default_HMControlNet2.
Proof.
  apply (HMControlNet2_mirrors_HMControlNet (H:=spatial_block)
           HMControlNet.default_config
           default_HMControlNet default_HMControlNet2);
    reflexivity.
Defined.

(** ** The statements on concrete calls *)



(** * Entry of the forward methods *)

Section Early.
Context `{HMBlocks}.

(** ** Running a call forward *)

Lemma bind_attr {S A B} (f : S -> A) (k : A -> M S B) s :
  bind (attr f) k s = k (f (self s)) s.
Proof. reflexivity. Qed.

Lemma bind_tensor_op_ok {S B} o args sem (k : value -> M S B) s sh :
  sem (heap s) = Ok sh ->
  bind (tensor_op o args sem) k s
  = k (VTensor (length (heap s)))
      (log s [sh] {| ev_op := o; ev_args := args;
                     ev_out := Fresh (length (heap s)) |}).
Proof. intros Hsem. unfold bind, tensor_op. rewrite Hsem. reflexivity. Qed.

Lemma bind_tensor_op_err {S B} o args sem (k : value -> M S B) s e :
  sem (heap s) = Err e ->
  bind (tensor_op o args sem) k s
  = (Err e, log s [] {| ev_op := o; ev_args := args; ev_out := Raised e |}).
Proof. intros Hsem. unfold bind, tensor_op. rewrite Hsem. reflexivity. Qed.

Lemma bind_py_op_ok {S A B} o args (sem : list shape -> result A)
    (k : A -> M S B) s a :
  sem (heap s) = Ok a ->
  bind (py_op o args sem) k s
  = k a (log s [] {| ev_op := o; ev_args := args; ev_out := Pure |}).
Proof. intros Hsem. unfold bind, py_op. rewrite Hsem. reflexivity. Qed.

Lemma bind_py_op_err {S A B} o args (sem : list shape -> result A)
    (k : A -> M S B) s e :
  sem (heap s) = Err e ->
  bind (py_op o args sem) k s
  = (Err e, log s [] {| ev_op := o; ev_args := args; ev_out := Raised e |}).
Proof. intros Hsem. unfold bind, py_op. rewrite Hsem. reflexivity. Qed.

Lemma unpack5_shape_err sh :
  length sh <> 5 -> unpack5_shape sh = Err ValueError.
Proof.
  destruct sh as [|a [|b [|c [|d [|e [|g sh]]]]]]; cbn; intros Hl;
    try reflexivity. lia.
Qed.

Lemma interpolate_shape_rejects size n c h w :
  (0 <? fst size)%Z = false \/ (0 <? snd size)%Z = false ->
  interpolate_shape size [n; c; h; w] = Err RuntimeError.
Proof.
  intros Hs. unfold interpolate_shape.
  destruct Hs as [-> | ->]; rewrite ?andb_false_r; reflexivity.
Qed.

(** The first steps of every forward: the shape of the condition, its
    unpacking, the flattening of the frames into the batch. *)
Ltac run_entry Hc :=
  unfold raises_before_modules, run; unfold_forward; unfold_ops;
  erewrite bind_py_op_ok by (apply tensor_shape_lookup; exact Hc);
  erewrite bind_py_op_ok by reflexivity; cbv beta iota;
  erewrite bind_tensor_op_ok
    by (cbn [heap log]; rewrite !app_nil_r;
        rewrite (tensor_shape_lookup _ _ _ _ Hc); reflexivity);
  rewrite bind_attr.

Ltac prove_unpacks :=
  intros; split;
  [ intros obj h; unfold raises_before_modules, run;
    unfold_forward; unfold_ops;
    erewrite bind_py_op_err by reflexivity; split; reflexivity
  | intros obj h lc sh Hc Hlen; unfold raises_before_modules, run;
    unfold_forward; unfold_ops;
    erewrite bind_py_op_ok by (apply tensor_shape_lookup; exact Hc);
    erewrite bind_py_op_err by (apply unpack5_shape_err; exact Hlen);
    split; reflexivity ].

(** X3: every forward method begins by unpacking [condition.shape] into
    five names: a call with [condition = None] raises [AttributeError], a
    call with a condition that does not have five axes raises [ValueError],
    and in both cases no sub-module has been called. *)
Theorem condition_shape_is_unpacked_first :
  (forall d f, unpacks_condition_first
                 (fun c => HMControlNet.forward c d f))
  /\ (forall e, unpacks_condition_first
                  (fun c => HMControlNet2.forward c e))
  /\ (forall d f, unpacks_condition_first
                    (fun c => HMV2ControlNet.forward c d f))
  /\ (forall d f e, unpacks_condition_first
                      (fun c => HMV3ControlNet.forward c d f e))
  /\ (forall e, unpacks_condition_first
                  (fun c => HMV2ControlNet2.forward c e)).
Proof. split5; prove_unpacks. Qed.

Lemma floordiv_int_ok a b :
  b <> 0%Z -> floordiv_int a b = Ok (Z.of_nat a / b)%Z.
Proof.
  intros Hb. unfold floordiv_int.
  destruct (Z.eqb_spec b 0); [contradiction | reflexivity].
Qed.

Lemma floordiv_not_positive a b :
  (b < 0 \/ Z.of_nat a < b)%Z -> (0 <? Z.of_nat a / b)%Z = false.
Proof.
  intros Hb. apply Z.ltb_ge. destruct Hb as [Hneg | Hsmall].
  - assert (Hne : b <> 0%Z) by lia.
    pose proof (Z.div_mod (Z.of_nat a) b Hne) as Hdm.
    pose proof (Z.mod_neg_bound (Z.of_nat a) b Hneg) as Hm. nia.
  - rewrite Z.div_small by lia. lia.
Qed.

Ltac prove_guard :=
  intros; intros obj h lc B C F HH W Hc; split;
  [ intros Hsf; run_entry Hc; cbn [self log]; rewrite Hsf;
    erewrite bind_py_op_err by reflexivity; split; reflexivity
  | intros Hsf; run_entry Hc; cbn [self log];
    erewrite bind_py_op_ok by (apply floordiv_int_ok; lia);
    rewrite bind_attr; cbn [self log];
    erewrite bind_py_op_ok by (apply floordiv_int_ok; lia);
    erewrite bind_tensor_op_err
      by (cbn [heap log]; rewrite !app_nil_r;
          erewrite tensor_shape_lookup
            by (apply list_lookup_middle; reflexivity);
          apply interpolate_shape_rejects; cbn [fst snd];
          destruct Hsf as [Hn | [Hh | Hw]];
          [ left; apply floordiv_not_positive; auto
          | left; apply floordiv_not_positive; auto
          | right; apply floordiv_not_positive; auto ]);
    split; reflexivity ].

(** X4: the condition is down-sampled to [h // scale_factor] by
    [w // scale_factor].  For a condition of five axes, a module whose
    [scale_factor] is 0 raises [ZeroDivisionError], and a [scale_factor] that
    is negative or larger than the height or the width makes
    [F.interpolate] raise [RuntimeError]; in both cases no sub-module has
    been called. *)
Theorem downsampling_is_guarded :
  (forall d f, guards_downsampling HMControlNet.scale_factor
                 (fun c => HMControlNet.forward c d f))
  /\ (forall e, guards_downsampling HMControlNet2.scale_factor
                  (fun c => HMControlNet2.forward c e))
  /\ (forall d f, guards_downsampling HMV2ControlNet.scale_factor
                    (fun c => HMV2ControlNet.forward c d f))
  /\ (forall d f e, guards_downsampling HMV3ControlNet.scale_factor
                      (fun c => HMV3ControlNet.forward c d f e))
  /\ (forall e, guards_downsampling HMV2ControlNet2.scale_factor
                  (fun c => HMV2ControlNet2.forward c e)).
Proof. split5; prove_guard. Qed.


(** ** Inputs the selected path of HMV3ControlNet does not read *)

(** X5: [HMV3ControlNet.forward] reads only the inputs of the path it
    takes.  With both [drive_coeff] and [face_parts] supplied,
    [emo_embedding] has no effect on the call; with one of them missing, the
    other one has no effect: the call is the call with both of them
    [None]. *)
Theorem HMV3_ignores_the_other_inputs c d f e obj h :
  (HMV3ControlNet.both_supplied d f = true ->
   forall e',
     run (HMV3ControlNet.forward c d f e') obj h
     = run (HMV3ControlNet.forward c d f e) obj h)
  /\ (HMV3ControlNet.both_supplied d f = false ->
      run (HMV3ControlNet.forward c d f e) obj h
      = run (HMV3ControlNet.forward c VNone VNone e) obj h).
Proof.
  split.
  - intros Hb e'. destruct d, f; try discriminate Hb. reflexivity.
  - intros Hb. destruct d, f; try discriminate Hb; reflexivity.
Qed.

End Early.

Lemma downsampling_is_guarded_witness :
  raises_before_modules
    (run (HMControlNet.forward (H:=spatial_block)
            (VTensor 0) (VTensor 1) (VTensor 2))
         (get_ok (HMControlNet.init
                    (with_scale_factor 0 HMControlNet.default_config)) I)
         example_heap)
    ZeroDivisionError
  /\ raises_before_modules
       (run (HMV3ControlNet.forward (H:=spatial_block)
               (VTensor 0) (VTensor 1) (VTensor 2) VNone)
            (get_ok (HMV3ControlNet.init
                       (with_scale_factor 128 HMV3ControlNet.default_config))
                    I)
            example_heap)
       RuntimeError.
Proof.
  destruct (downsampling_is_guarded (H:=spatial_block)) as (Hv1 & _ & _ & Hv3 & _). split.
  - apply (Hv1 (VTensor 1) (VTensor 2) _ example_heap 0 1 3 2 64 64);
      reflexivity.
  - apply (Hv3 (VTensor 1) (VTensor 2) VNone _ example_heap 0 1 3 2 64 64);
      [reflexivity | right; left; reflexivity].
Defined.

Lemma condition_shape_is_unpacked_first_witness :
  raises_before_modules
    (run (HMControlNet2.forward (H:=spatial_block) (VTensor 1) (VTensor 3))
         default_HMControlNet2 example_heap)
    ValueError.
Proof.
  destruct (condition_shape_is_unpacked_first (H:=spatial_block)) as (_ & Hv & _).
  apply (proj2 (Hv (VTensor 3)) default_HMControlNet2 example_heap 1 [1; 2; 5]);
    [reflexivity | discriminate].
Defined.

Lemma HMV3_ignores_the_other_inputs_witness :
  run (HMV3ControlNet.forward (H:=spatial_block)
         (VTensor 0) (VTensor 1) VNone (VTensor 3))
      default_HMV3ControlNet example_heap
  = run (HMV3ControlNet.forward (H:=spatial_block)
           (VTensor 0) VNone VNone (VTensor 3))
        default_HMV3ControlNet example_heap.
Proof.
  apply (proj2 (HMV3_ignores_the_other_inputs (H:=spatial_block)
                  (VTensor 0) (VTensor 1) VNone (VTensor 3)
                  default_HMV3ControlNet example_heap)).
  reflexivity.
Defined.

(** * The constructors *)

(** ** What the constructors build *)

Lemma chained_made (mk : nat -> SKCrossAttention.t) (widths : list nat) :
  (forall i, SKCrossAttention.channel_in (mk i) = item widths (i - 1)) ->
  (forall i, SKCrossAttention.channel_out (mk i) = item widths i) ->
  forall n k, chained (item widths k) (map mk (seq (Datatypes.S k) n)).
Proof.
  intros Hin Hout n. induction n as [|n IH]; intros k; cbn [seq map chained].
  - exact I.
  - split.
    + rewrite Hin. f_equal. lia.
    + rewrite Hout. apply IH.
Qed.

Lemma first_item_is_item l c0 : first_item l = Ok c0 -> c0 = item l 0.
Proof. destruct l; [discriminate|]. intros [= <-]. reflexivity. Qed.

Ltac prove_well_formed :=
  split;
  [ unfold range; cbn -[item seq chained];
    apply chained_made; intros; reflexivity
  | apply Forall_forall; intros b Hb;
    apply list_elem_of_In, in_map_iff in Hb as (i & <- & _); reflexivity ].

Ltac prove_chain Hinit :=
  let c0 := fresh "c0" in
  let Hc0 := fresh "Hc0" in
  destruct (first_item _) as [c0|] eqn:Hc0; [|discriminate Hinit];
  apply first_item_is_item in Hc0; subst c0;
  cbn [rbind] in Hinit; injection Hinit as <-;
  prove_well_formed.

(** X1: the fusion blocks a constructor builds from [block_out_channels]
    form a chain: the first block takes the channels [conv_in] gives, every
    next block takes the channels the previous one gives, and every block
    attends to embeddings of the width the final projection produces
    ([exp_proj], [emo_proj], and both for [HMV3ControlNet]). *)
Theorem constructors_chain_the_blocks cfg :
  (forall obj, HMControlNet.init cfg = Ok obj ->
     well_formed_chain (HMControlNet.conv_in obj) (HMControlNet.exp_proj obj)
                       (HMControlNet.blocks_down obj))
  /\ (forall obj, HMControlNet2.init cfg = Ok obj ->
        well_formed_chain (HMControlNet2.conv_in obj)
                          (HMControlNet2.emo_proj obj)
                          (HMControlNet2.blocks_down obj))
  /\ (forall obj, HMV2ControlNet.init cfg = Ok obj ->
        well_formed_chain (HMV2ControlNet.conv_in obj)
                          (HMV2ControlNet.exp_proj obj)
                          (HMV2ControlNet.blocks_down obj))
  /\ (forall obj, HMV3ControlNet.init cfg = Ok obj ->
        well_formed_chain (HMV3ControlNet.conv_in obj)
                          (HMV3ControlNet.exp_proj obj)
                          (HMV3ControlNet.blocks_down obj)
        /\ well_formed_chain (HMV3ControlNet.conv_in obj)
                             (HMV3ControlNet.emo_proj obj)
                             (HMV3ControlNet.blocks_down obj))
  /\ (forall obj, HMV2ControlNet2.init cfg = Ok obj ->
        well_formed_chain (HMV2ControlNet2.conv_in obj)
                          (HMV2ControlNet2.emo_proj obj)
                          (HMV2ControlNet2.blocks_down obj)).
Proof.
  split5; intros obj Hinit.
  - unfold HMControlNet.init in Hinit. prove_chain Hinit.
  - unfold HMControlNet2.init in Hinit. prove_chain Hinit.
  - unfold HMV2ControlNet.init in Hinit. prove_chain Hinit.
  - unfold HMV3ControlNet.init in Hinit.
    destruct (first_item _) as [c0|] eqn:Hc0; [|discriminate Hinit].
    apply first_item_is_item in Hc0; subst c0.
    cbn [rbind] in Hinit; injection Hinit as <-.
    split; prove_well_formed.
  - unfold HMV2ControlNet2.init in Hinit. prove_chain Hinit.
Qed.

Lemma constructors_chain_the_blocks_witness :
  well_formed_chain (HMV2ControlNet.conv_in default_HMV2ControlNet)
                    (HMV2ControlNet.exp_proj default_HMV2ControlNet)
                    (HMV2ControlNet.blocks_down default_HMV2ControlNet).
Proof.
  destruct (constructors_chain_the_blocks HMV2ControlNet.default_config)
    as (_ & _ & Hv & _).
  apply Hv. reflexivity.
Defined.

(** ** Channel schedules too short for a fusion block *)

Lemma length_0_nil {A} (l : list A) : length l = 0 -> l = [].
Proof. destruct l; [reflexivity | discriminate]. Qed.

Lemma is_ok_inv {A} (r : result A) : is_ok r -> exists a, r = Ok a.
Proof. destruct r as [a|e]; [eauto | contradiction]. Qed.

(** X2: with an empty [block_out_channels] every constructor raises
    [IndexError] (from [block_out_channels[0]]); with a single width it
    builds a module without fusion blocks, and every forward call of such a
    module that returns, returns the empty dictionary. *)
Theorem short_channel_schedules `{HMBlocks} cfg :
  (cfg_block_out_channels cfg = [] ->
   HMControlNet.init cfg = Err IndexError
   /\ HMControlNet2.init cfg = Err IndexError
   /\ HMV2ControlNet.init cfg = Err IndexError
   /\ HMV3ControlNet.init cfg = Err IndexError
   /\ HMV2ControlNet2.init cfg = Err IndexError)
  /\ (forall c0,
        cfg_block_out_channels cfg = [c0] ->
        (forall obj c d f h,
            HMControlNet.init cfg = Ok obj ->
            is_ok (fst (run (HMControlNet.forward c d f) obj h)) ->
            fst (run (HMControlNet.forward c d f) obj h) = Ok [])
        /\ (forall obj c e h,
               HMControlNet2.init cfg = Ok obj ->
               is_ok (fst (run (HMControlNet2.forward c e) obj h)) ->
               fst (run (HMControlNet2.forward c e) obj h) = Ok [])
        /\ (forall obj c d f h,
               HMV2ControlNet.init cfg = Ok obj ->
               is_ok (fst (run (HMV2ControlNet.forward c d f) obj h)) ->
               fst (run (HMV2ControlNet.forward c d f) obj h) = Ok [])
        /\ (forall obj c d f e h,
               HMV3ControlNet.init cfg = Ok obj ->
               is_ok (fst (run (HMV3ControlNet.forward c d f e) obj h)) ->
               fst (run (HMV3ControlNet.forward c d f e) obj h) = Ok [])
        /\ (forall obj c e h,
               HMV2ControlNet2.init cfg = Ok obj ->
               is_ok (fst (run (HMV2ControlNet2.forward c e) obj h)) ->
               fst (run (HMV2ControlNet2.forward c e) obj h) = Ok [])).
Proof.
  split.
  - intros Hnil.
    unfold HMControlNet.init, HMControlNet2.init, HMV2ControlNet.init,
      HMV3ControlNet.init, HMV2ControlNet2.init.
    rewrite Hnil. repeat split; reflexivity.
  - intros c0 Hone. split5.
    + intros obj c d f h Hinit Hok.
      apply is_ok_inv in Hok as [rd Hrun]. rewrite Hrun. f_equal.
      apply HMControlNet_stage_outputs, stage_outputs_length in Hrun.
      rewrite (HMControlNet_blocks _ _ Hinit), Hone in Hrun.
      apply length_0_nil, Hrun.
    + intros obj c e h Hinit Hok.
      apply is_ok_inv in Hok as [rd Hrun]. rewrite Hrun. f_equal.
      apply HMControlNet2_stage_outputs, stage_outputs_length in Hrun.
      rewrite (HMControlNet2_blocks _ _ Hinit), Hone in Hrun.
      apply length_0_nil, Hrun.
    + intros obj c d f h Hinit Hok.
      apply is_ok_inv in Hok as [rd Hrun]. rewrite Hrun. f_equal.
      apply HMV2ControlNet_stage_outputs, stage_outputs_length in Hrun.
      rewrite (HMV2ControlNet_blocks _ _ Hinit), Hone in Hrun.
      apply length_0_nil, Hrun.
    + intros obj c d f e h Hinit Hok.
      apply is_ok_inv in Hok as [rd Hrun]. rewrite Hrun. f_equal.
      apply HMV3ControlNet_keys in Hrun.
      rewrite (HMV3ControlNet_blocks _ _ Hinit), Hone in Hrun.
      destruct rd; [reflexivity | discriminate Hrun].
    + intros obj c e h Hinit Hok.
      apply is_ok_inv in Hok as [rd Hrun]. rewrite Hrun. f_equal.
      apply HMV2ControlNet2_stage_outputs, stage_outputs_length in Hrun.
      rewrite (HMV2ControlNet2_blocks _ _ Hinit), Hone in Hrun.
      apply length_0_nil, Hrun.
Qed.

Lemma short_channel_schedules_witness :
  HMV3ControlNet.init
    (with_block_out_channels [] HMV3ControlNet.default_config)
  = Err IndexError
  /\ fst (run (HMControlNet.forward (H:=spatial_block)
                 (VTensor 0) (VTensor 1) (VTensor 2))
              (get_ok (HMControlNet.init
                         (with_block_out_channels
                            [128] HMControlNet.default_config)) I)
              example_heap)
     = Ok [].
Proof.
  split.
  - apply (proj1 (short_channel_schedules (H:=spatial_block)
                    (with_block_out_channels
                       [] HMV3ControlNet.default_config))).
    reflexivity.
  - destruct (proj2 (short_channel_schedules (H:=spatial_block)
                (with_block_out_channels [128] HMControlNet.default_config))
                128 eq_refl) as (Hv1 & _).
    apply Hv1; [reflexivity | vm_compute; exact I].
Defined.

(** * The calls of the fusion blocks *)

Lemma last_nonempty_default {A} (a : A) (l : list A) (d d' : A) :
  List.last (a :: l) d = List.last (a :: l) d'.
Proof.
  revert a. induction l as [|b l IH]; intros a; [reflexivity|].
  change (List.last (b :: l) d = List.last (b :: l) d'). apply IH.
Qed.

Lemma chain_events_snoc x y outs o i :
  chain_events x y (outs ++ [o]) i
  = chain_events x y outs i
    ++ [{| ev_op := Call (SubItem "blocks_down" (i + length outs));
           ev_args := [VTensor (List.last outs x); VTensor y];
           ev_out := Fresh o |}].
Proof.
  revert x i. induction outs as [|o' outs IH]; intros x i.
  - cbn. rewrite Nat.add_0_r. reflexivity.
  - cbn [app chain_events length]. rewrite IH. cbn [app].
    replace (Datatypes.S i + length outs) with (i + Datatypes.S (length outs))
      by lia.
    destruct outs as [|l outs]; [reflexivity|].
    change (List.last (o' :: l :: outs) x) with (List.last (l :: outs) x).
    rewrite (last_nonempty_default l outs x o'). reflexivity.
Qed.

Section Chain.
Context `{HMBlocks}.

(** The loop of the four variants with one key per block. *)
Lemma simple_loop_chain {S} (key : nat -> string) (axes : Einops.axes)
    (y : loc) (blocks : list SKCrossAttention.t) x rd0 (s : state S)
    emb rd s' :
  for_enumerate blocks 0
    (fun idx block '(embedding, ret_dict) =>
       let* embedding :=
         sk_cross_attention (SubItem "blocks_down" idx) block
                            embedding (VTensor y) in
       let* out := rearrange embedding "(b f) c h w -> b c f h w" axes in
       ret (embedding, dict_set ret_dict (key idx) out))
    (VTensor x, rd0) s = (Ok (emb, rd), s') ->
  exists outs new,
    length outs = length blocks
    /\ trace s' = trace s ++ new
    /\ List.filter is_block_call new = chain_events x y outs 0.
Proof.
  intros Hloop.
  pose (I := fun (i : nat) (l : value * pydict) (t : state S) =>
               exists outs new,
                 length outs = i
                 /\ fst l = VTensor (List.last outs x)
                 /\ trace t = trace s ++ new
                 /\ List.filter is_block_call new = chain_events x y outs 0).
  apply (for_enumerate_from_0 _ I) in Hloop.
  - destruct Hloop as (outs & new & Hlen & _ & Htr & Hf). eauto.
  - clear. intros i blk [emb0 rd0] t [emb1 rd1] t1 Hblk
                  (outs & new & Hlen & Hemb & Htr & Hf) Hbody.
    cbn [fst] in Hemb. subst emb0.
    unfold_ops_in Hbody. repeat step_ok Hbody.
    apply ret_ok_inv in Hbody as [[= -> ->] ->].
    match goal with
    | |- I _ (VTensor ?l, _) _ => exists (outs ++ [l])
    end.
    eexists. split; [rewrite length_app; cbn; lia|].
    split; [cbn [fst]; rewrite last_last; reflexivity|].
    cbn [trace log]. rewrite Htr, <- !app_assoc. split; [reflexivity|].
    rewrite List.filter_app, Hf, chain_events_snoc, Hlen. reflexivity.
  - exists [], []. cbn. rewrite app_nil_r. auto.
Qed.

(** The loop of the two variants with descending keys. *)
Lemma descending_loop_chain {S} (blocks_of : S -> list SKCrossAttention.t)
    (prefix : string) (axes : Einops.axes)
    (y : loc) (blocks : list SKCrossAttention.t) x rd0 (s : state S)
    emb rd s' :
  for_enumerate blocks 0
    (fun idx block '(embedding, ret_dict) =>
       let* embedding :=
         sk_cross_attention (SubItem "blocks_down" idx) block
                            embedding (VTensor y) in
       let* out := rearrange embedding "(b f) c h w -> b c f h w" axes in
       let* n := attr (fun self => length (blocks_of self)) in
       let up_idx := (Z.of_nat n - Z.of_nat idx - 1)%Z in
       ret (embedding, dict_set ret_dict (prefix +:+ pretty up_idx) out))
    (VTensor x, rd0) s = (Ok (emb, rd), s') ->
  exists outs new,
    length outs = length blocks
    /\ trace s' = trace s ++ new
    /\ List.filter is_block_call new = chain_events x y outs 0.
Proof.
  intros Hloop.
  pose (I := fun (i : nat) (l : value * pydict) (t : state S) =>
               exists outs new,
                 length outs = i
                 /\ fst l = VTensor (List.last outs x)
                 /\ trace t = trace s ++ new
                 /\ List.filter is_block_call new = chain_events x y outs 0).
  apply (for_enumerate_from_0 _ I) in Hloop.
  - destruct Hloop as (outs & new & Hlen & _ & Htr & Hf). eauto.
  - clear. intros i blk [emb0 rd0] t [emb1 rd1] t1 Hblk
                  (outs & new & Hlen & Hemb & Htr & Hf) Hbody.
    cbn [fst] in Hemb. subst emb0.
    unfold_ops_in Hbody. repeat step_ok Hbody.
    apply ret_ok_inv in Hbody as [[= -> ->] ->].
    match goal with
    | |- I _ (VTensor ?l, _) _ => exists (outs ++ [l])
    end.
    eexists. split; [rewrite length_app; cbn; lia|].
    split; [cbn [fst]; rewrite last_last; reflexivity|].
    cbn [trace log]. rewrite Htr, <- !app_assoc. split; [reflexivity|].
    rewrite List.filter_app, Hf, chain_events_snoc, Hlen. reflexivity.
  - exists [], []. cbn. rewrite app_nil_r. auto.
Qed.

Ltac to_loop Hrun Hloop :=
  repeat step_ok Hrun;
  apply bind_ok_inv in Hrun as ([? ?] & ? & Hloop & Hrun);
  apply ret_ok_inv in Hrun as [-> ->];
  cbn [self log] in Hloop.

Ltac in_list := cbn; repeat first [left; reflexivity | right].

Ltac close_chain Hloop :=
  first [ eapply simple_loop_chain in Hloop
        | eapply descending_loop_chain in Hloop ];
  destruct Hloop as (outs & new & Hlen & Htr & Hf);
  rewrite Htr; unfold fusion_chain;
  eexists _, _, _, _, outs;
  split; [rewrite in_app_iff; left; in_list|];
  split; [rewrite in_app_iff; left; in_list|];
  split; [exact Hlen|];
  rewrite List.filter_app, Hf; reflexivity.

Lemma HMControlNet_chain c d f obj h ret_dict :
  fst (run (HMControlNet.forward c d f) obj h) = Ok ret_dict ->
  fusion_chain (trace (snd (run (HMControlNet.forward c d f) obj h)))
               "exp_proj" (length (HMControlNet.blocks_down obj)).
Proof.
  unfold run. destruct (HMControlNet.forward c d f _) as [r s'] eqn:Hrun.
  cbn [fst snd]. intros ->.
  unfold HMControlNet.forward in Hrun. unfold_ops_in Hrun.
  to_loop Hrun Hloop.
  close_chain Hloop.
Qed.

Lemma HMControlNet2_chain c e obj h ret_dict :
  fst (run (HMControlNet2.forward c e) obj h) = Ok ret_dict ->
  fusion_chain (trace (snd (run (HMControlNet2.forward c e) obj h)))
               "emo_proj" (length (HMControlNet2.blocks_down obj)).
Proof.
  unfold run. destruct (HMControlNet2.forward c e _) as [r s'] eqn:Hrun.
  cbn [fst snd]. intros ->.
  unfold HMControlNet2.forward in Hrun. unfold_ops_in Hrun.
  to_loop Hrun Hloop.
  close_chain Hloop.
Qed.

Lemma HMV2ControlNet_chain c d f obj h ret_dict :
  fst (run (HMV2ControlNet.forward c d f) obj h) = Ok ret_dict ->
  fusion_chain (trace (snd (run (HMV2ControlNet.forward c d f) obj h)))
               "exp_proj" (length (HMV2ControlNet.blocks_down obj)).
Proof.
  unfold run. destruct (HMV2ControlNet.forward c d f _) as [r s'] eqn:Hrun.
  cbn [fst snd]. intros ->.
  unfold HMV2ControlNet.forward in Hrun. unfold_ops_in Hrun.
  to_loop Hrun Hloop.
  close_chain Hloop.
Qed.

Lemma HMV2ControlNet2_chain c e obj h ret_dict :
  fst (run (HMV2ControlNet2.forward c e) obj h) = Ok ret_dict ->
  fusion_chain (trace (snd (run (HMV2ControlNet2.forward c e) obj h)))
               "emo_proj" (length (HMV2ControlNet2.blocks_down obj)).
Proof.
  unfold run. destruct (HMV2ControlNet2.forward c e _) as [r s'] eqn:Hrun.
  cbn [fst snd]. intros ->.
  unfold HMV2ControlNet2.forward in Hrun. unfold_ops_in Hrun.
  to_loop Hrun Hloop.
  close_chain Hloop.
Qed.

(** The loop of [HMV3ControlNet]: the adapters and the copies of ["up3_0"]
    are no calls of a fusion block. *)
Lemma HMV3_loop_chain (axes : Einops.axes) (y : loc)
    (blocks : list SKCrossAttention.t) x rd0
    (s : state HMV3ControlNet.t) emb rd s' :
  for_enumerate blocks 0
    (fun idx block '(embedding, ret_dict) =>
       let* embedding :=
         sk_cross_attention (SubItem "blocks_down" idx) block
                            embedding (VTensor y) in
       let* n := attr (fun self => length (HMV3ControlNet.blocks_down self)) in
       let up_idx := (Z.of_nat n - Z.of_nat idx - 1)%Z in
       let* out := rearrange embedding "(b f) c h w -> b c f h w" axes in
       let ret_dict := dict_set ret_dict ("up3_" +:+ pretty up_idx) out in
       let* ret_dict :=
         if (up_idx =? 2)%Z then
           let* conv := attr HMV3ControlNet.conv_up2_down0 in
           let* y := conv2d (Sub "conv_up2_down0") conv embedding in
           let* out := rearrange y "(b f) c h w -> b c f h w" axes in
           ret (dict_set ret_dict "down3_0" out)
         else ret ret_dict in
       let* ret_dict :=
         if (up_idx =? 1)%Z then
           let* conv := attr HMV3ControlNet.conv_up1_down1 in
           let* y := conv2d (Sub "conv_up1_down1") conv embedding in
           let* out := rearrange y "(b f) c h w -> b c f h w" axes in
           ret (dict_set ret_dict "down3_1" out)
         else ret ret_dict in
       let* ret_dict :=
         if (up_idx =? 0)%Z then
           let* v := getitem ret_dict "up3_0" in
           let ret_dict := dict_set ret_dict "down3_2" v in
           let* v := getitem ret_dict "up3_0" in
           ret (dict_set ret_dict "down3_3" v)
         else ret ret_dict in
       ret (embedding, ret_dict))
    (VTensor x, rd0) s = (Ok (emb, rd), s') ->
  exists outs new,
    length outs = length blocks
    /\ trace s' = trace s ++ new
    /\ List.filter is_block_call new = chain_events x y outs 0.
Proof.
  intros Hloop.
  pose (I := fun (i : nat) (l : value * pydict)
                 (t : state HMV3ControlNet.t) =>
               exists outs new,
                 length outs = i
                 /\ fst l = VTensor (List.last outs x)
                 /\ trace t = trace s ++ new
                 /\ List.filter is_block_call new = chain_events x y outs 0).
  apply (for_enumerate_from_0 _ I) in Hloop.
  - destruct Hloop as (outs & new & Hlen & _ & Htr & Hf). eauto.
  - clear. intros i blk [emb0 rd0] t [emb1 rd1] t1 Hblk
                  (outs & new & Hlen & Hemb & Htr & Hf) Hbody.
    cbn [fst] in Hemb. subst emb0.
    unfold_ops_in Hbody. do 3 step_ok Hbody.
    inv_if Hbody; inv_if Hbody; inv_if Hbody.
    all: apply ret_ok_inv in Hbody as [[= -> ->] ->].
    all: match goal with
         | |- _ _ (VTensor ?l, _) _ => exists (outs ++ [l])
         end.
    all: eexists; split; [rewrite length_app; cbn; lia|].
    all: split; [cbn [fst]; rewrite last_last; reflexivity|].
    all: cbn [trace log]; rewrite Htr, <- !app_assoc; split; [reflexivity|].
    all: rewrite List.filter_app, Hf, chain_events_snoc, Hlen; reflexivity.
  - exists [], []. cbn. rewrite app_nil_r. auto.
Qed.

Lemma HMV3ControlNet_chain c d f e obj h ret_dict :
  fst (run (HMV3ControlNet.forward c d f e) obj h) = Ok ret_dict ->
  fusion_chain (trace (snd (run (HMV3ControlNet.forward c d f e) obj h)))
               (if HMV3ControlNet.both_supplied d f
                then "exp_proj" else "emo_proj")
               (length (HMV3ControlNet.blocks_down obj)).
Proof.
  unfold run. destruct (HMV3ControlNet.forward c d f e _) as [r s'] eqn:Hrun.
  cbn [fst snd]. intros ->.
  unfold HMV3ControlNet.forward in Hrun. unfold_ops_in Hrun.
  do 10 step_ok Hrun.
  destruct d, f; cbn [HMV3ControlNet.is_none orb] in Hrun;
    cbn [HMV3ControlNet.both_supplied HMV3ControlNet.is_none orb negb].
  all: repeat first [rewrite bind_assoc in Hrun | step_ok Hrun].
  all: apply bind_ok_inv in Hrun as ([? ?] & ? & Hloop & Hrun);
    apply ret_ok_inv in Hrun as [-> ->]; cbn [self log] in Hloop.
  all: eapply HMV3_loop_chain in Hloop;
    destruct Hloop as (outs & new & Hlen & Htr & Hf);
    rewrite Htr; unfold fusion_chain;
    eexists _, _, _, _, outs;
    (split; [rewrite in_app_iff; left; in_list|]);
    (split; [rewrite in_app_iff; left; in_list|]);
    (split; [exact Hlen|]);
    rewrite List.filter_app, Hf; reflexivity.
Qed.

End Chain.

(** * The tensors a call returns *)

Lemma created_by_call_grows h hp hp' v :
  length hp <= length hp' ->
  created_by_call h hp v -> created_by_call h hp' v.
Proof. intros Hle (l & -> & Hl). exists l. split; [reflexivity | lia]. Qed.

Lemma returns_new_tensors_grows h hp hp' d :
  length hp <= length hp' ->
  returns_new_tensors h hp d -> returns_new_tensors h hp' d.
Proof.
  intros Hle Hd. eapply Forall_impl; [exact Hd|].
  intros kv. apply created_by_call_grows, Hle.
Qed.

Lemma returns_new_tensors_get h hp d k v :
  returns_new_tensors h hp d -> dict_get d k = Some v ->
  created_by_call h hp v.
Proof.
  intros Hd. induction Hd as [|[k0 v0] d H0 Hd IH]; cbn; [discriminate|].
  destruct (String.eqb k0 k); [intros [= <-]; exact H0 | exact IH].
Qed.

Lemma values_dict_set d k v x :
  In x (map snd (dict_set d k v)) -> x = v \/ In x (map snd d).
Proof.
  induction d as [|[k0 v0] d IH]; cbn [dict_set map snd].
  - intros [<- | []]. left. reflexivity.
  - destruct (String.eqb k0 k); cbn [map snd In].
    + intros [<- | Hin]; auto.
    + intros [<- | Hin]; auto. destruct (IH Hin); auto.
Qed.

Lemma no_aliasing_set d k v :
  ~ In v (map snd d) -> no_aliasing d -> no_aliasing (dict_set d k v).
Proof.
  unfold no_aliasing. intros Hv Hd.
  induction d as [|[k0 v0] d IH]; cbn [dict_set map snd].
  - apply NoDup_singleton.
  - cbn [map snd] in Hv, Hd. apply NoDup_cons in Hd as [Hv0 Hd].
    destruct (String.eqb k0 k); cbn [map snd].
    + apply NoDup_cons. split; [|exact Hd].
      intros Hin. apply Hv. right. apply list_elem_of_In, Hin.
    + apply NoDup_cons. split.
      * intros Hin. apply list_elem_of_In, values_dict_set in Hin
          as [-> | Hin].
        -- apply Hv. left. reflexivity.
        -- apply Hv0, list_elem_of_In, Hin.
      * apply IH; [|exact Hd]. intros Hin. apply Hv. right. exact Hin.
Qed.

Lemma created_not_yet h hp d l :
  returns_new_tensors h hp d -> length hp <= l ->
  ~ In (VTensor l) (map snd d).
Proof.
  intros Hd Hl Hin. apply in_map_iff in Hin as (kv & Hkv & Hin).
  unfold returns_new_tensors in Hd. rewrite Forall_forall in Hd.
  apply list_elem_of_In in Hin. destruct (Hd kv Hin) as (l' & Heq & Hb).
  rewrite Hkv in Heq. injection Heq as <-. lia.
Qed.

Section Fresh.
Context `{HMBlocks}.

Ltac loop_steps Hbody := repeat first [step_ok Hbody | inv_if Hbody].

Ltac heap_lengths :=
  subst; cbn [heap log]; rewrite ?length_app; cbn [length]; lia.

Lemma frame_rel_length {S} (s s' : state S) :
  frame_rel s s' -> length (heap s) <= length (heap s').
Proof. intros [_ [new ->]]. rewrite length_app. lia. Qed.

(** The heap of a state reached by logging operations extends the heap the
    call started with. *)
Ltac entry_heap :=
  lazymatch goal with
  | |- length ?h <= length (heap ?s) =>
      lazymatch s with
      | context [ {| self := ?obj; heap := h; trace := ?tr |} ] =>
          apply (frame_rel_length {| self := obj; heap := h; trace := tr |});
          repeat (etransitivity; [| apply frame_log]); reflexivity
      end
  end.

Ltac to_loop Hrun Hloop :=
  repeat step_ok Hrun;
  apply bind_ok_inv in Hrun as ([? ?] & ? & Hloop & Hrun);
  apply ret_ok_inv in Hrun as [-> ->];
  cbn [self log] in Hloop.

(** The loop of a variant with one key per block, from a state whose heap
    extends the caller's. *)
Ltac fresh_loop Hloop h :=
  let I := fresh "I" in
  lazymatch type of Hloop with
  | for_enumerate _ _ _ _ ?s0 = _ =>
  let T := type of s0 in
  pose (I := fun (i : nat) (l : value * pydict) (s : T) =>
               length h <= length (heap s)
               /\ returns_new_tensors h (heap s) (snd l)
               /\ no_aliasing (snd l));
  apply (for_enumerate_from_0 _ I) in Hloop;
  [ destruct Hloop as (_ & Hnew & Hno); split; assumption
  | clear; intros i blk [emb0 rd0] s [emb1 rd1] s1 Hblk (Hle & Hnew & Hno) Hbody;
    cbn [snd] in Hnew, Hno;
    loop_steps Hbody;
    apply ret_ok_inv in Hbody as [[= -> ->] ->];
    subst I; cbn [snd];
    split; [heap_lengths|]; split;
    [ apply Forall_dict_set;
      [ eapply returns_new_tensors_grows; [|exact Hnew]; heap_lengths
      | eexists; split; [reflexivity|]; heap_lengths ]
    | apply no_aliasing_set; [|exact Hno];
      eapply created_not_yet; [exact Hnew|]; heap_lengths ]
  | subst I; cbn [snd]; split; [entry_heap|];
    split; [constructor | apply NoDup_nil_2] ]
  end.

Lemma HMControlNet_outputs_new c d f obj h ret_dict :
  fst (run (HMControlNet.forward c d f) obj h) = Ok ret_dict ->
  returns_new_tensors
    h (heap (snd (run (HMControlNet.forward c d f) obj h))) ret_dict
  /\ no_aliasing ret_dict.
Proof.
  unfold run. destruct (HMControlNet.forward c d f _) as [r s'] eqn:Hrun.
  cbn [fst snd]. intros ->.
  unfold HMControlNet.forward in Hrun. unfold_ops_in Hrun.
  to_loop Hrun Hloop.
  fresh_loop Hloop h.
Qed.

Lemma HMControlNet2_outputs_new c e obj h ret_dict :
  fst (run (HMControlNet2.forward c e) obj h) = Ok ret_dict ->
  returns_new_tensors
    h (heap (snd (run (HMControlNet2.forward c e) obj h))) ret_dict
  /\ no_aliasing ret_dict.
Proof.
  unfold run. destruct (HMControlNet2.forward c e _) as [r s'] eqn:Hrun.
  cbn [fst snd]. intros ->.
  unfold HMControlNet2.forward in Hrun. unfold_ops_in Hrun.
  to_loop Hrun Hloop.
  fresh_loop Hloop h.
Qed.

Lemma HMV2ControlNet_outputs_new c d f obj h ret_dict :
  fst (run (HMV2ControlNet.forward c d f) obj h) = Ok ret_dict ->
  returns_new_tensors
    h (heap (snd (run (HMV2ControlNet.forward c d f) obj h))) ret_dict
  /\ no_aliasing ret_dict.
Proof.
  unfold run. destruct (HMV2ControlNet.forward c d f _) as [r s'] eqn:Hrun.
  cbn [fst snd]. intros ->.
  unfold HMV2ControlNet.forward in Hrun. unfold_ops_in Hrun.
  to_loop Hrun Hloop.
  fresh_loop Hloop h.
Qed.

Lemma HMV2ControlNet2_outputs_new c e obj h ret_dict :
  fst (run (HMV2ControlNet2.forward c e) obj h) = Ok ret_dict ->
  returns_new_tensors
    h (heap (snd (run (HMV2ControlNet2.forward c e) obj h))) ret_dict
  /\ no_aliasing ret_dict.
Proof.
  unfold run. destruct (HMV2ControlNet2.forward c e _) as [r s'] eqn:Hrun.
  cbn [fst snd]. intros ->.
  unfold HMV2ControlNet2.forward in Hrun. unfold_ops_in Hrun.
  to_loop Hrun Hloop.
  fresh_loop Hloop h.
Qed.

(** An entry the loop of [HMV3ControlNet] stores: a tensor an operation
    just returned, or a value read back from the dictionary. *)
Ltac new_entry Hnew :=
  cbn [snd];
  first
    [ eexists; split; [reflexivity|]; heap_lengths
    | lazymatch goal with
      | Hg : match dict_get ?D ?k with _ => _ end = Ok ?v
        |- created_by_call _ _ ?v =>
          let E := fresh "E" in
          destruct (dict_get D k) eqn:E; [|discriminate Hg];
          injection Hg as <-;
          eapply returns_new_tensors_get; [|exact E]; new_dict Hnew
      end ]
with new_dict Hnew :=
  first
    [ apply Forall_dict_set; [new_dict Hnew | new_entry Hnew]
    | eapply returns_new_tensors_grows; [|exact Hnew]; heap_lengths ].

Lemma HMV3ControlNet_outputs_new c d f e obj h ret_dict :
  fst (run (HMV3ControlNet.forward c d f e) obj h) = Ok ret_dict ->
  returns_new_tensors
    h (heap (snd (run (HMV3ControlNet.forward c d f e) obj h))) ret_dict.
Proof.
  unfold run. destruct (HMV3ControlNet.forward c d f e _) as [r s'] eqn:Hrun.
  cbn [fst snd]. intros ->.
  unfold HMV3ControlNet.forward in Hrun. unfold_ops_in Hrun.
  do 10 step_ok Hrun.
  apply bind_ok_inv in Hrun as (drive & s1 & Hbranch & Hrun).
  frame_state Hbranch. clear Hbranch.
  assert (Hentry : length h <= length (heap s1)).
  { etransitivity; [|apply (frame_rel_length _ _ Hframe)]. entry_heap. }
  clear Hframe.
  step_ok Hrun.
  apply bind_ok_inv in Hrun as ([emb rd] & s2 & Hloop & Hret).
  apply ret_ok_inv in Hret as [-> ->].
  pose (I := fun (i : nat) (l : value * pydict)
                 (s : state HMV3ControlNet.t) =>
               length h <= length (heap s)
               /\ returns_new_tensors h (heap s) (snd l)).
  apply (for_enumerate_from_0 _ I) in Hloop.
  - apply Hloop.
  - clear. intros i blk [emb0 rd0] s [emb1 rd1] t1 Hblk (Hle & Hnew) Hbody.
    cbn [snd] in Hnew.
    do 3 step_ok Hbody.
    inv_if Hbody; inv_if Hbody; inv_if Hbody.
    all: apply ret_ok_inv in Hbody as [[= -> ->] ->].
    all: subst I; cbn [snd]; split; [heap_lengths|].
    all: new_dict Hnew.
  - subst I. cbn [snd]. split; [exact Hentry | constructor].
Qed.

End Fresh.

(** * Inputs of a call that returns *)

(** ** The patterns of the driving-signal branch, on shapes *)

Lemma tensor_shape_ok_inv h x e sh :
  tensor_shape h x e = Ok sh -> exists l, x = VTensor l /\ h !! l = Some sh.
Proof.
  destruct x as [|l]; cbn; [discriminate|].
  destruct (h !! l) as [sh'|] eqn:Hl; [|discriminate].
  intros [= <-]. eauto.
Qed.

Lemma unpack5_shape_ok_inv sh r :
  unpack5_shape sh = Ok r ->
  exists a b c d e, sh = [a; b; c; d; e] /\ r = (a, b, c, d, e).
Proof.
  destruct sh as [|a [|b [|c [|d [|e [|g sh]]]]]]; try discriminate.
  intros [= <-]. eauto 10.
Qed.

Lemma flatten_all_shape sh r :
  Einops.rearrange_shape "b f c -> (b f c)" [] sh = Ok r ->
  exists b f c, sh = [b; f; c] /\ r = [b * (f * c)].
Proof.
  destruct sh as [|b [|f [|c [|g sh]]]]; try discriminate.
  intros [= <-]. eauto.
Qed.

Lemma unflatten_all_shape bs F D n d r :
  Einops.rearrange_shape "(b f c) d -> b f c d"
    [("b", bs); ("f", F); ("d", D)] [n; d] = Ok r ->
  bs * F <> 0 /\ n mod (bs * F) = 0 /\ d = D
  /\ r = [bs; F; n / (bs * F); D].
Proof.
  cbv -[Nat.eqb Nat.div Nat.modulo Nat.mul].
  destruct (bs * F =? 0) eqn:H0; [discriminate|].
  destruct (n mod (bs * F) =? 0) eqn:Hm; [|discriminate].
  destruct (d =? D) eqn:Hd; [|discriminate].
  intros [= <-].
  apply Nat.eqb_neq in H0. apply Nat.eqb_eq in Hm, Hd. auto.
Qed.

Lemma flatten_frames_shape sh r :
  Einops.rearrange_shape "b f c d -> (b f) c d" [] sh = Ok r ->
  exists b f c d, sh = [b; f; c; d] /\ r = [b * f; c; d].
Proof.
  destruct sh as [|b [|f [|c [|d [|g sh]]]]]; try discriminate.
  intros [= <-]. eauto 10.
Qed.

Lemma unflatten_frames_shape F n c d r :
  Einops.rearrange_shape "(b f) c d -> b f c d" [("f", F)] [n; c; d] = Ok r ->
  F <> 0 /\ n mod F = 0 /\ r = [n / F; F; c; d].
Proof.
  cbv -[Nat.eqb Nat.div Nat.modulo Nat.mul].
  destruct (F =? 0) eqn:H0; [discriminate|].
  destruct (n mod F =? 0) eqn:Hm; [|discriminate].
  intros [= <-].
  apply Nat.eqb_neq in H0. apply Nat.eqb_eq in Hm. auto.
Qed.

Lemma timesteps_shape_inv m sh r :
  timesteps_shape m sh = Ok r ->
  exists n, sh = [n] /\ r = [n; Timesteps.num_channels m].
Proof.
  destruct sh as [|n [|g sh]]; try discriminate. intros [= <-]. eauto.
Qed.

Lemma timestep_embedding_shape_inv m a b c r :
  timestep_embedding_shape m [a; b; c] = Ok r ->
  c = TimestepEmbedding.in_channels m
  /\ r = [a; b; TimestepEmbedding.time_embed_dim m].
Proof.
  unfold timestep_embedding_shape. cbn.
  destruct (c =? TimestepEmbedding.in_channels m) eqn:Hc; [|discriminate].
  cbn. rewrite Nat.eqb_refl. intros [= <-].
  apply Nat.eqb_eq in Hc. auto.
Qed.

Lemma cat_regions_shape a b c d a' b' c' d' r :
  cat_shape 2 [a; b; c; d] [a'; b'; c'; d'] = Ok r ->
  a = a' /\ b = b' /\ d = d' /\ r = [a; b; c + c'; d].
Proof.
  cbn. destruct (a =? a') eqn:Ha; [|discriminate].
  destruct (b =? b') eqn:Hb; [|discriminate]. cbn.
  destruct (d =? d') eqn:Hd; [|discriminate]. cbn.
  intros [= <-]. apply Nat.eqb_eq in Ha, Hb, Hd. auto.
Qed.

Lemma interpolate_shape_inv size n c h w r :
  interpolate_shape size [n; c; h; w] = Ok r ->
  (0 < fst size)%Z /\ (0 < snd size)%Z /\ 0 < c /\ 0 < h /\ 0 < w
  /\ r = [n; c; Z.to_nat (fst size); Z.to_nat (snd size)].
Proof.
  unfold interpolate_shape.
  destruct (0 <? c) eqn:Hc; [|discriminate].
  destruct (0 <? h) eqn:Hh; [|discriminate].
  destruct (0 <? w) eqn:Hw; [|discriminate].
  destruct (0 <? fst size)%Z eqn:H1; [|discriminate].
  destruct (0 <? snd size)%Z eqn:H2; [|discriminate].
  cbn. intros [= <-].
  apply Nat.ltb_lt in Hc, Hh, Hw. apply Z.ltb_lt in H1, H2. auto 10.
Qed.

Lemma conv2d_shape_inv m n c h w r :
  conv2d_shape m [n; c; h; w] = Ok r ->
  c = Conv2d.in_channels m
  /\ exists h' w', r = [n; Conv2d.out_channels m; h'; w'].
Proof.
  unfold conv2d_shape.
  destruct (c =? Conv2d.in_channels m) eqn:Hc; [|discriminate].
  destruct (_ && _); [|discriminate]. cbn.
  intros [= <-]. apply Nat.eqb_eq in Hc. eauto.
Qed.

Lemma floordiv_int_inv a b q :
  floordiv_int a b = Ok q -> b <> 0%Z /\ q = (Z.of_nat a / b)%Z.
Proof.
  unfold floordiv_int. destruct (Z.eqb_spec b 0); [discriminate|].
  intros [= <-]. auto.
Qed.


Lemma timesteps_shape_1 m n r :
  timesteps_shape m [n] = Ok r -> r = [n; Timesteps.num_channels m].
Proof. intros [= <-]. reflexivity. Qed.

Lemma flatten_frames_shape_4 b f c d :
  Einops.rearrange_shape "b f c d -> (b f) c d" [] [b; f; c; d]
  = Ok [b * f; c; d].
Proof. reflexivity. Qed.

Ltac use_sem_inv :=
  repeat match goal with
         | Hs : Ok _ = Ok _ |- _ => injection Hs as <-
         | Hs : unpack5_shape ?sh = Ok _ |- _ =>
             is_var sh;
             apply unpack5_shape_ok_inv in Hs as (? & ? & ? & ? & ? & -> & ->)
         | Hs : Einops.rearrange_shape "b c f h w -> (b f) c h w" []
                  [_; _; _; _; _] = Ok _ |- _ =>
             rewrite rearrange_in_shape in Hs
         | Hs : Einops.rearrange_shape "b f c -> (b f c)" [] ?sh = Ok _ |- _ =>
             is_var sh;
             apply flatten_all_shape in Hs as (? & ? & ? & -> & ->)
         | Hs : Einops.rearrange_shape "(b f c) d -> b f c d" _ [_; _] = Ok _
           |- _ =>
             apply unflatten_all_shape in Hs as (? & ? & ? & ->)
         | Hs : Einops.rearrange_shape "b f c d -> (b f) c d" []
                  [_; _; _; _] = Ok _ |- _ =>
             rewrite flatten_frames_shape_4 in Hs
         | Hs : Einops.rearrange_shape "b f c d -> (b f) c d" [] ?sh = Ok _
           |- _ =>
             is_var sh;
             apply flatten_frames_shape in Hs as (? & ? & ? & ? & -> & ->)
         | Hs : Einops.rearrange_shape "(b f) c d -> b f c d" _ [_; _; _]
                = Ok _ |- _ =>
             apply unflatten_frames_shape in Hs as (? & ? & ->)
         | Hs : timesteps_shape _ [_] = Ok _ |- _ =>
             apply timesteps_shape_1 in Hs as ->
         | Hs : timestep_embedding_shape _ [_; _; _] = Ok _ |- _ =>
             apply timestep_embedding_shape_inv in Hs as (? & ->)
         | Hs : cat_shape 2 [_; _; _; _] [_; _; _; _] = Ok _ |- _ =>
             apply cat_regions_shape in Hs as (? & ? & ? & ->)
         | Hs : interpolate_shape _ [_; _; _; _] = Ok _ |- _ =>
             apply interpolate_shape_inv in Hs
               as (? & ? & ? & ? & ? & ->)
         | Hs : conv2d_shape _ [_; _; _; _] = Ok _ |- _ =>
             apply conv2d_shape_inv in Hs as (? & ? & ? & ->)
         | Hs : floordiv_int _ _ = Ok _ |- _ =>
             apply floordiv_int_inv in Hs as (? & ->)
         end.

Ltac contract_step H Hobj :=
  let Hstep := fresh "Hstep" in
  let Hsem := fresh "Hsem" in
  let Hself := fresh "Hself" in
  let Hgrow := fresh "Hgrow" in
  let Hl := fresh "Hl" in
  apply bind_ok_inv in H as (? & ? & Hstep & H);
  first
    [ apply attr_ok_inv in Hstep as [-> ->]; rewrite ?Hobj in H
    | apply tensor_op_ok_heap in Hstep
        as (? & ? & Hsem & -> & Hl & Hself & Hgrow);
      rewrite <- Hself in Hobj; clear Hself;
      simpl_sem Hsem; use_sem_inv; transport Hgrow; clear Hgrow
    | apply py_op_ok_heap in Hstep as (Hsem & Hself & Hgrow);
      rewrite <- Hself in Hobj; clear Hself;
      apply grows_eq in Hgrow;
      simpl_sem Hsem; use_sem_inv; transport Hgrow; clear Hgrow ];
  cbv beta in H; destruct_tuples H.

Lemma floordiv_positive a b :
  (0 < Z.of_nat a / b)%Z -> (0 < b <= Z.of_nat a)%Z.
Proof.
  intros Hq.
  destruct (Z_lt_dec b 0) as [Hneg | Hnn].
  - pose proof (floordiv_not_positive a b (or_introl Hneg)) as Hn.
    apply Z.ltb_ge in Hn. lia.
  - destruct (Z_lt_dec (Z.of_nat a) b) as [Hsmall | Hbig].
    + pose proof (floordiv_not_positive a b (or_intror Hsmall)) as Hn.
      apply Z.ltb_ge in Hn. lia.
    + destruct (Z.eq_dec b 0%Z) as [-> | Hne]; [|lia].
      rewrite Z.div_0_r in Hq. lia.
Qed.

Lemma exact_quotient n F q : n mod F = 0 -> n / F = q -> n = q * F.
Proof.
  intros Hm Hq. pose proof (Nat.div_mod_eq n F) as Hdm.
  rewrite Hm, Hq in Hdm. lia.
Qed.

Ltac start_contract s0 obj h :=
  let Hs0 := fresh "Hs0" in
  remember {| self := obj; heap := h; trace := [] |} as s0 eqn:Hs0;
  assert (Hobj : self s0 = obj) by (subst s0; reflexivity);
  repeat match goal with
         | Hx : h !! ?l = Some ?sh |- _ =>
             assert (heap s0 !! l = Some sh) by (subst s0; exact Hx);
             clear Hx
         end;
  clear Hs0.

Ltac subst_widths :=
  repeat match goal with
         | Hx : ?x = cfg_input_channels _ |- _ => subst x
         | Hx : ?x = 1024 |- _ => subst x
         end.

Ltac close_condition :=
  eexists _, _; split; [reflexivity|]; split; [assumption|];
  match goal with
  | Hh : (0 < fst (_, _))%Z, Hw : (0 < snd (_, _))%Z |- _ =>
      cbn [fst snd] in Hh, Hw;
      apply floordiv_positive in Hh; apply floordiv_positive in Hw; lia
  end.

Ltac close_coefficients :=
  eexists _, _, _; split; [reflexivity|]; split; assumption.

Ltac close_face_parts :=
  eexists _, _, _; split; [reflexivity|];
  match goal with
  | Hm : ?n mod ?F = 0, Hq : ?n / ?F = _ |- _ =>
      exact (exact_quotient _ _ _ Hm Hq)
  end.

Section Contract.
Context `{HMBlocks}.

Lemma HMControlNet_inputs cfg obj lc ld lf shc shd shf h :
  HMControlNet.init cfg = Ok obj ->
  h !! lc = Some shc -> h !! ld = Some shd -> h !! lf = Some shf ->
  is_ok (fst (run (HMControlNet.forward (VTensor lc) (VTensor ld)
                                        (VTensor lf)) obj h)) ->
  exists B F,
    accepts_condition (cfg_input_channels cfg) (cfg_scale_factor cfg) shc B F
    /\ accepts_coefficients shd B F
    /\ accepts_face_parts shf B F.
Proof.
  intros Hinit Hc Hd Hf.
  unfold run. destruct (HMControlNet.forward _ _ _ _) as [r s'] eqn:Hrun.
  cbn [fst]. destruct r as [rd|]; [intros _ | contradiction].
  unfold HMControlNet.forward in Hrun. unfold_ops_in Hrun.
  start_contract s0 obj h.
  repeat contract_step Hrun Hobj. clear Hrun.
  unfold HMControlNet.init in Hinit.
  destruct (first_item _); [|discriminate Hinit].
  cbn [rbind] in Hinit. injection Hinit as <-.
  cbn [HMControlNet.conv_in HMControlNet.face_proj HMControlNet.scale_factor
       Conv2d.in_channels TimestepEmbedding.in_channels] in *.
  subst_widths. eexists _, _. split; [close_condition|].
  split; [close_coefficients | close_face_parts].
Qed.

Lemma HMV2ControlNet_inputs cfg obj lc ld lf shc shd shf h :
  HMV2ControlNet.init cfg = Ok obj ->
  h !! lc = Some shc -> h !! ld = Some shd -> h !! lf = Some shf ->
  is_ok (fst (run (HMV2ControlNet.forward (VTensor lc) (VTensor ld)
                                          (VTensor lf)) obj h)) ->
  exists B F,
    accepts_condition (cfg_input_channels cfg) (cfg_scale_factor cfg) shc B F
    /\ accepts_coefficients shd B F
    /\ accepts_face_parts shf B F.
Proof.
  intros Hinit Hc Hd Hf.
  unfold run. destruct (HMV2ControlNet.forward _ _ _ _) as [r s'] eqn:Hrun.
  cbn [fst]. destruct r as [rd|]; [intros _ | contradiction].
  unfold HMV2ControlNet.forward in Hrun. unfold_ops_in Hrun.
  start_contract s0 obj h.
  repeat contract_step Hrun Hobj. clear Hrun.
  unfold HMV2ControlNet.init in Hinit.
  destruct (first_item _); [|discriminate Hinit].
  cbn [rbind] in Hinit. injection Hinit as <-.
  cbn [HMV2ControlNet.conv_in HMV2ControlNet.face_proj
       HMV2ControlNet.scale_factor
       Conv2d.in_channels TimestepEmbedding.in_channels] in *.
  subst_widths. eexists _, _. split; [close_condition|].
  split; [close_coefficients | close_face_parts].
Qed.

Lemma HMV3ControlNet_dual_inputs cfg obj lc ld lf e shc shd shf h :
  HMV3ControlNet.init cfg = Ok obj ->
  h !! lc = Some shc -> h !! ld = Some shd -> h !! lf = Some shf ->
  is_ok (fst (run (HMV3ControlNet.forward (VTensor lc) (VTensor ld)
                                          (VTensor lf) e) obj h)) ->
  exists B F,
    accepts_condition (cfg_input_channels cfg) (cfg_scale_factor cfg) shc B F
    /\ accepts_coefficients shd B F
    /\ accepts_face_parts shf B F.
Proof.
  intros Hinit Hc Hd Hf.
  unfold run. destruct (HMV3ControlNet.forward _ _ _ _ _) as [r s'] eqn:Hrun.
  cbn [fst]. destruct r as [rd|]; [intros _ | contradiction].
  unfold HMV3ControlNet.forward in Hrun. unfold_ops_in Hrun.
  cbn [HMV3ControlNet.is_none orb] in Hrun.
  start_contract s0 obj h.
  repeat first [rewrite bind_assoc in Hrun | contract_step Hrun Hobj].
  clear Hrun.
  unfold HMV3ControlNet.init in Hinit.
  destruct (first_item _); [|discriminate Hinit].
  cbn [rbind] in Hinit. injection Hinit as <-.
  cbn [HMV3ControlNet.conv_in HMV3ControlNet.face_proj
       HMV3ControlNet.scale_factor
       Conv2d.in_channels TimestepEmbedding.in_channels] in *.
  subst_widths. eexists _, _. split; [close_condition|].
  split; [close_coefficients | close_face_parts].
Qed.

Lemma HMControlNet2_inputs cfg obj lc le shc she h :
  HMControlNet2.init cfg = Ok obj ->
  h !! lc = Some shc -> h !! le = Some she ->
  is_ok (fst (run (HMControlNet2.forward (VTensor lc) (VTensor le)) obj h)) ->
  exists B F,
    accepts_condition (cfg_input_channels cfg) (cfg_scale_factor cfg) shc B F
    /\ accepts_coefficients she B F.
Proof.
  intros Hinit Hc He.
  unfold run. destruct (HMControlNet2.forward _ _ _) as [r s'] eqn:Hrun.
  cbn [fst]. destruct r as [rd|]; [intros _ | contradiction].
  unfold HMControlNet2.forward in Hrun. unfold_ops_in Hrun.
  start_contract s0 obj h.
  repeat contract_step Hrun Hobj. clear Hrun.
  unfold HMControlNet2.init in Hinit.
  destruct (first_item _); [|discriminate Hinit].
  cbn [rbind] in Hinit. injection Hinit as <-.
  cbn [HMControlNet2.conv_in HMControlNet2.scale_factor
       Conv2d.in_channels] in *.
  subst_widths. eexists _, _. split; [close_condition | close_coefficients].
Qed.

Lemma HMV2ControlNet2_inputs cfg obj lc le shc she h :
  HMV2ControlNet2.init cfg = Ok obj ->
  h !! lc = Some shc -> h !! le = Some she ->
  is_ok (fst (run (HMV2ControlNet2.forward (VTensor lc) (VTensor le)) obj h)) ->
  exists B F,
    accepts_condition (cfg_input_channels cfg) (cfg_scale_factor cfg) shc B F
    /\ accepts_coefficients she B F.
Proof.
  intros Hinit Hc He.
  unfold run. destruct (HMV2ControlNet2.forward _ _ _) as [r s'] eqn:Hrun.
  cbn [fst]. destruct r as [rd|]; [intros _ | contradiction].
  unfold HMV2ControlNet2.forward in Hrun. unfold_ops_in Hrun.
  start_contract s0 obj h.
  repeat contract_step Hrun Hobj. clear Hrun.
  unfold HMV2ControlNet2.init in Hinit.
  destruct (first_item _); [|discriminate Hinit].
  cbn [rbind] in Hinit. injection Hinit as <-.
  cbn [HMV2ControlNet2.conv_in HMV2ControlNet2.scale_factor
       Conv2d.in_channels] in *.
  subst_widths. eexists _, _. split; [close_condition | close_coefficients].
Qed.

Lemma HMV3ControlNet_emo_inputs cfg obj lc d f le shc she h :
  HMV3ControlNet.init cfg = Ok obj ->
  HMV3ControlNet.both_supplied d f = false ->
  h !! lc = Some shc -> h !! le = Some she ->
  is_ok (fst (run (HMV3ControlNet.forward (VTensor lc) d f (VTensor le))
                  obj h)) ->
  exists B F,
    accepts_condition (cfg_input_channels cfg) (cfg_scale_factor cfg) shc B F
    /\ accepts_coefficients she B F.
Proof.
  intros Hinit Hb Hc He.
  unfold run. destruct (HMV3ControlNet.forward _ _ _ _ _) as [r s'] eqn:Hrun.
  cbn [fst]. destruct r as [rd|]; [intros _ | contradiction].
  unfold HMV3ControlNet.forward in Hrun. unfold_ops_in Hrun.
  assert (Hbranch : HMV3ControlNet.is_none d || HMV3ControlNet.is_none f = true)
    by (unfold HMV3ControlNet.both_supplied in Hb;
        destruct (HMV3ControlNet.is_none d || HMV3ControlNet.is_none f);
        [reflexivity | discriminate]).
  rewrite Hbranch in Hrun. clear Hb Hbranch.
  start_contract s0 obj h.
  repeat first [rewrite bind_assoc in Hrun | contract_step Hrun Hobj].
  clear Hrun.
  unfold HMV3ControlNet.init in Hinit.
  destruct (first_item _); [|discriminate Hinit].
  cbn [rbind] in Hinit. injection Hinit as <-.
  cbn [HMV3ControlNet.conv_in HMV3ControlNet.scale_factor
       Conv2d.in_channels] in *.
  subst_widths. eexists _, _. split; [close_condition | close_coefficients].
Qed.

End Contract.

(** * The adapters of HMV3ControlNet *)

Lemma rbind_tensor_shape_inv {B} h x e (k : shape -> result B) r :
  rbind (tensor_shape h x e) k = Ok r ->
  exists l sh, x = VTensor l /\ h !! l = Some sh /\ k sh = Ok r.
Proof.
  destruct (tensor_shape h x e) as [sh|] eqn:Hx; [|discriminate].
  cbn [rbind]. intros Hk.
  apply tensor_shape_ok_inv in Hx as (l & -> & Hl). eauto.
Qed.

Lemma rearrange_out_shape_inv F sh r :
  Einops.rearrange_shape "(b f) c h w -> b c f h w" [("f", F)] sh = Ok r ->
  exists n c h w, sh = [n; c; h; w] /\ r = [n / F; c; F; h; w].
Proof.
  destruct sh as [|n [|c [|h [|w [|g sh]]]]].
  1-4: cbv -[Nat.eqb Nat.div Nat.modulo Nat.mul];
       repeat match goal with
              | |- context [if ?b then _ else _] => destruct b
              end; discriminate.
  - intros Hr. apply rearrange_out_shape in Hr as [_ ->]. eauto 10.
  - cbv -[Nat.eqb Nat.div Nat.modulo Nat.mul].
    repeat match goal with
           | |- context [if ?b then _ else _] => destruct b
           end; discriminate.
Qed.

(** Arguments whose shape is not known yet. *)
Ltac use_sem_args :=
  repeat match goal with
         | Hs : tensor_shape _ ?x _ = Ok _ |- _ =>
             is_var x;
             apply tensor_shape_ok_inv in Hs as (? & -> & ?)
         | Hs : rbind (tensor_shape _ ?x _) _ = Ok _ |- _ =>
             is_var x;
             apply rbind_tensor_shape_inv in Hs as (? & ? & -> & ? & Hs);
             cbv beta in Hs
         end.

Ltac use_sem_blocks Hcontract :=
  repeat first
    [ progress use_sem_args
    | progress use_sem_inv
    | match goal with
      | Hs : Einops.rearrange_shape "(b f) c h w -> b c f h w" _
               [_; _; _; _] = Ok _ |- _ =>
          apply rearrange_out_shape in Hs as (? & ->)
      | Hs : rbind (tensor_shape _ _ _)
               (fun sy => SKCrossAttention_forward _ [_; _; _; _] sy)
             = Ok _ |- _ =>
          apply (block_sem_ok _ _ _ _ _ _ _ _ _ Hcontract) in Hs
            as (? & ? & ->)
      | Hs : SKCrossAttention_forward _ [_; _; _; _] _ = Ok _ |- _ =>
          apply Hcontract in Hs as (? & ? & ->)
      end ].

Ltac block_step H Hobj Hcontract :=
  let Hstep := fresh "Hstep" in
  let Hsem := fresh "Hsem" in
  let Hself := fresh "Hself" in
  let Hgrow := fresh "Hgrow" in
  let Hl := fresh "Hl" in
  apply bind_ok_inv in H as (? & ? & Hstep & H);
  first
    [ apply attr_ok_inv in Hstep as [-> ->]; rewrite ?Hobj in H
    | apply tensor_op_ok_heap in Hstep
        as (? & ? & Hsem & -> & Hl & Hself & Hgrow);
      rewrite <- Hself in Hobj; clear Hself;
      simpl_sem Hsem; use_sem_blocks Hcontract; transport Hgrow; clear Hgrow
    | apply py_op_ok_heap in Hstep as (Hsem & Hself & Hgrow);
      rewrite <- Hself in Hobj; clear Hself;
      apply grows_eq in Hgrow;
      simpl_sem Hsem; use_sem_blocks Hcontract; transport Hgrow; clear Hgrow ];
  cbv beta in H; destruct_tuples H.

Ltac block_if Hbody Hobj Hcontract :=
  let Hif := fresh "Hif" in
  apply bind_ok_inv in Hbody as (? & ? & Hif & Hbody);
  lazymatch type of Hif with
  | (if ?c then _ else _) _ = _ =>
      let E := fresh "Hcond" in
      destruct c eqn:E;
      [ repeat block_step Hif Hobj Hcontract | ];
      apply ret_ok_inv in Hif as [-> ->]; cbv beta in Hbody
  end.


Section Adapters.
Context `{HMBlocks}.

Lemma HMV3ControlNet_feeds_adapters c d f e obj h :
  block_contract H ->
  is_ok (fst (run (HMV3ControlNet.forward c d f e) obj h)) ->
  feeds_adapters obj (length (HMV3ControlNet.blocks_down obj)).
Proof.
  intros Hcontract.
  unfold run. destruct (HMV3ControlNet.forward _ _ _ _ _) as [r s'] eqn:Hrun.
  cbn [fst]. destruct r as [rd|]; [intros _ | contradiction].
  unfold HMV3ControlNet.forward in Hrun. unfold_ops_in Hrun.
  remember {| self := obj; heap := h; trace := [] |} as s0 eqn:Hs0.
  assert (Hobj : self s0 = obj) by (subst s0; reflexivity).
  clear Hs0.
  do 10 block_step Hrun Hobj Hcontract.
  apply bind_ok_inv in Hrun as (drive & s1 & Hbranch & Hrun).
  frame_state Hbranch. clear Hbranch.
  pose proof (frame_grows _ _ Hframe) as Hg.
  destruct Hframe as [Hself _]. rewrite <- Hself in Hobj. clear Hself.
  transport Hg. clear Hg.
  block_step Hrun Hobj Hcontract.
  apply bind_ok_inv in Hrun as ([emb rd'] & s2 & Hloop & Hret).
  apply ret_ok_inv in Hret as [-> ->].
  pose (I := fun (i : nat) (l : value * pydict)
                 (s : state HMV3ControlNet.t) =>
               self s = obj
               /\ (exists le n c hh ww,
                      fst l = VTensor le
                      /\ heap s !! le = Some [n; c; hh; ww])
               /\ feeds_adapters obj i).
  apply (for_enumerate_from_0 _ I) in Hloop.
  - apply Hloop.
  - clear - Hcontract.
    intros i blk [emb0 rd0] s [emb1 rd1] s1 Hblk
           (Hobj & (le & n & c & hh & ww & Hemb & Hle) & Hall) Hbody.
    cbn [fst snd] in Hemb; subst emb0.
    do 3 block_step Hbody Hobj Hcontract.
    block_if Hbody Hobj Hcontract; block_if Hbody Hobj Hcontract;
      block_if Hbody Hobj Hcontract.
    all: apply ret_ok_inv in Hbody as [[= -> ->] ->].
    all: eqb_to_eq; try lia.
    all: subst I; cbn [fst snd]; split; [exact Hobj|]; split; [eauto 10|].
    all: unfold feeds_adapters in *; intros j blk' Hj Hblk'; cbn zeta.
    all: destruct (Nat.eq_dec j i) as [-> | Hne];
      [ rewrite Hblk in Hblk'; injection Hblk' as <-;
        split; intros Hup; first [assumption | lia]
      | apply Hall; [lia | exact Hblk'] ].
  - subst I; cbn [fst snd]. split; [exact Hobj|]. split; [eauto 10|].
    unfold feeds_adapters. intros j blk Hj. lia.
Qed.

End Adapters.

(** * The dictionary of HMV3ControlNet *)

Lemma stores_block_output_mono tr tr' key i kv :
  (forall ev, In ev tr -> In ev tr') ->
  stores_block_output tr key i kv -> stores_block_output tr' key i kv.
Proof.
  intros Hsub (Hk & e & l & args & axes & H1 & H2 & H3).
  split; [exact Hk|]. exists e, l, args, axes. auto.
Qed.

Lemma stores_adapter_output_mono tr tr' adapter i v :
  (forall ev, In ev tr -> In ev tr') ->
  stores_adapter_output tr adapter i v ->
  stores_adapter_output tr' adapter i v.
Proof.
  intros Hsub (e & args & y & l & axes & H1 & H2 & H3 & H4).
  exists e, args, y, l, axes. auto.
Qed.

Section Wiring.
Context `{HMBlocks}.

Ltac key_ne :=
  first [ discriminate
        | cbn [String.app]; discriminate
        | let Heq := fresh in
          intros Heq; apply key_inj_Z in Heq; lia ].

Ltac dict_lookup :=
  repeat first [ rewrite dict_get_set_eq
               | rewrite dict_get_set_ne by key_ne ].

Ltac in_trace := cbn [trace log]; rewrite !in_app_iff; cbn [In]; eauto 20.

Ltac older := intros ev Hin; cbn [trace log]; rewrite !in_app_iff; tauto.

Lemma HMV3ControlNet_wiring c d f e obj h ret_dict :
  fst (run (HMV3ControlNet.forward c d f e) obj h) = Ok ret_dict ->
  HMV3_wiring (trace (snd (run (HMV3ControlNet.forward c d f e) obj h)))
              (length (HMV3ControlNet.blocks_down obj)) ret_dict
              (length (HMV3ControlNet.blocks_down obj)).
Proof.
  unfold run. destruct (HMV3ControlNet.forward c d f e _) as [r s'] eqn:Hrun.
  cbn [fst snd]. intros ->.
  unfold HMV3ControlNet.forward in Hrun. unfold_ops_in Hrun.
  do 10 step_ok Hrun.
  apply bind_ok_inv in Hrun as (drive & s1 & Hbranch & Hrun).
  frame_state Hbranch. destruct Hframe as [Hself _]. cbn in Hself.
  clear Hbranch.
  step_ok Hrun.
  apply bind_ok_inv in Hrun as ([emb rd] & s2 & Hloop & Hret).
  apply ret_ok_inv in Hret as [-> ->].
  rewrite Hself in Hloop.
  set (nb := length (HMV3ControlNet.blocks_down obj)).
  pose (I := fun (i : nat) (l : value * pydict)
                 (s : state HMV3ControlNet.t) =>
               self s = obj /\ HMV3_wiring (trace s) nb (snd l) i).
  apply (for_enumerate_from_0 _ I) in Hloop.
  - apply Hloop.
  - clear. intros i blk [emb0 rd0] s [emb1 rd1] s1 Hblk (Hself & Hall) Hbody.
    cbn [snd] in Hall.
    do 3 step_ok Hbody.
    cbn [self log] in Hbody. rewrite Hself in Hbody. fold nb in Hbody.
    inv_if Hbody; inv_if Hbody; inv_if Hbody.
    all: apply ret_ok_inv in Hbody as [[= -> ->] ->].
    all: eqb_to_eq; try lia.
    all: split; [cbn [self log]; exact Hself|]; cbn [snd].
    all: intros j Hj; cbn zeta.
    all: destruct (Nat.eq_dec j i) as [-> | Hne];
      [ clear Hall; split; [|split]
      | assert (Hlt : j < i) by lia;
        destruct (Hall j Hlt) as ((v & Hget & Hst) & Hd0 & Hd1);
        clear Hall; split; [|split] ].
    (* the stage of this iteration *)
    all: try (eexists; split; [dict_lookup; reflexivity|];
              split; [reflexivity|]; eexists _, _, _, _;
              split; [|split; [|reflexivity]]; in_trace).
    all: try (intros Hup;
              first
                [ exfalso; lia
                | eexists; split; [dict_lookup; reflexivity|];
                  eexists _, _, _, _, _;
                  split; [|split; [|split; [|reflexivity]]]; in_trace ]).
    (* the stages before it *)
    all: try (exists v; split;
              [ dict_lookup; exact Hget
              | eapply stores_block_output_mono; [|exact Hst]; older ]).
    all: intros Hup.
    all: first
           [ destruct (Hd0 Hup) as (v0 & Hg0 & Hs0)
           | destruct (Hd1 Hup) as (v0 & Hg0 & Hs0) ];
      exists v0; split;
      [ dict_lookup; exact Hg0
      | eapply stores_adapter_output_mono; [|exact Hs0]; older ].
  - split; [exact Hself|]. intros j Hj. lia.
Qed.

End Wiring.

(** * Forward methods side by side *)

Section Simulation.
Context {S1 S2 : Type} (obj : S1) (obj' : S2).

Lemma simulates_ret {A1 A2} (R : A1 -> A2 -> Prop) a1 a2 :
  R a1 a2 -> simulates obj obj' R (ret a1) (ret a2).
Proof. intros HR s1 s2 Hs. split; [exact HR | exact Hs]. Qed.

Lemma simulates_bind {A1 A2 B1 B2} (R : A1 -> A2 -> Prop)
    (Q : B1 -> B2 -> Prop) m1 m2 (k1 : A1 -> M S1 B1) (k2 : A2 -> M S2 B2) :
  simulates obj obj' R m1 m2 ->
  (forall a1 a2, R a1 a2 -> simulates obj obj' Q (k1 a1) (k2 a2)) ->
  simulates obj obj' Q (bind m1 k1) (bind m2 k2).
Proof.
  intros Hm Hk s1 s2 Hs. unfold bind.
  destruct (Hm s1 s2 Hs) as [Hr Hs'].
  destruct (m1 s1) as [[a1|e1] t1], (m2 s2) as [[a2|e2] t2];
    cbn in Hr, Hs' |- *; try contradiction.
  - apply Hk; assumption.
  - split; assumption.
Qed.

Lemma simulates_attr {A1 A2} (R : A1 -> A2 -> Prop)
    (g1 : S1 -> A1) (g2 : S2 -> A2) :
  R (g1 obj) (g2 obj') -> simulates obj obj' R (attr g1) (attr g2).
Proof.
  intros HR s1 s2 Hs. pose proof Hs as (H1 & H2 & _).
  cbn. rewrite H1, H2. split; [exact HR | exact Hs].
Qed.

(** An attribute only one of the two methods reads. *)
Lemma simulates_attr_right {A1 A2 B} (R : A1 -> A2 -> Prop)
    (m1 : M S1 A1) (g2 : S2 -> B) (k2 : B -> M S2 A2) :
  simulates obj obj' R m1 (k2 (g2 obj')) ->
  simulates obj obj' R m1 (bind (attr g2) k2).
Proof.
  intros Hk s1 s2 Hs. pose proof Hs as (_ & H2 & _).
  unfold bind, attr. cbn. rewrite H2. apply Hk, Hs.
Qed.

Lemma side_by_side_log s1 s2 new ev :
  side_by_side obj obj' s1 s2 ->
  side_by_side obj obj' (log s1 new ev) (log s2 new ev).
Proof.
  intros (H1 & H2 & Hh & Ht). repeat split; cbn; congruence.
Qed.

Lemma simulates_tensor_op o args sem :
  simulates obj obj' eq (tensor_op o args sem) (tensor_op o args sem).
Proof.
  intros s1 s2 Hs. pose proof Hs as (_ & _ & Hh & _).
  unfold tensor_op. rewrite Hh.
  destruct (sem (heap s1)); cbn;
    (split; [reflexivity | apply side_by_side_log, Hs]).
Qed.

Lemma simulates_py_op {A} o args (sem : list shape -> result A) :
  simulates obj obj' eq (py_op o args sem) (py_op o args sem).
Proof.
  intros s1 s2 Hs. pose proof Hs as (_ & _ & Hh & _).
  unfold py_op. rewrite Hh.
  destruct (sem (heap s1)); cbn;
    (split; [reflexivity | apply side_by_side_log, Hs]).
Qed.

Lemma simulates_for_enumerate {B L1 L2} (R : nat -> L1 -> L2 -> Prop)
    (body1 : nat -> B -> L1 -> M S1 L1) (body2 : nat -> B -> L2 -> M S2 L2)
    (all : list B) :
  (forall i x l1 l2,
      all !! i = Some x -> R i l1 l2 ->
      simulates obj obj' (R (Datatypes.S i)) (body1 i x l1) (body2 i x l2)) ->
  forall items done l1 l2,
    all = done ++ items ->
    R (length done) l1 l2 ->
    simulates obj obj' (R (length all))
      (for_enumerate items (length done) body1 l1)
      (for_enumerate items (length done) body2 l2).
Proof.
  intros Hbody items. induction items as [|x items IH];
    intros done l1 l2 Hall HR.
  - cbn. apply simulates_ret. subst all. rewrite app_nil_r. exact HR.
  - cbn [for_enumerate].
    eapply simulates_bind.
    + apply Hbody; [|exact HR]. subst all. rewrite lookup_app_r by lia.
      replace (length done - length done) with 0 by lia. reflexivity.
    + intros l1' l2' HR'.
      specialize (IH (done ++ [x]) l1' l2').
      rewrite length_app, Nat.add_1_r in IH. apply IH; [|exact HR'].
      rewrite <- app_assoc. exact Hall.
Qed.

End Simulation.

Lemma simulates_run {S1 S2 A1 A2} (obj : S1) (obj' : S2)
    (R : A1 -> A2 -> Prop) m1 m2 h :
  simulates obj obj' R m1 m2 ->
  agree R (fst (run m1 obj h)) (fst (run m2 obj' h))
  /\ heap (snd (run m2 obj' h)) = heap (snd (run m1 obj h))
  /\ trace (snd (run m2 obj' h)) = trace (snd (run m1 obj h)).
Proof.
  intros Hm. unfold run.
  destruct (Hm {| self := obj; heap := h; trace := [] |}
               {| self := obj'; heap := h; trace := [] |})
    as (Hr & _ & _ & Hh & Ht).
  - repeat split.
  - auto.
Qed.


Lemma agree_eq {A} (r1 r2 : result A) : agree eq r1 r2 -> r2 = r1.
Proof.
  destruct r1, r2; cbn; intros Hr; try contradiction; congruence.
Qed.

Lemma simulates_same_outcome {S1 S2 A} (obj : S1) (obj' : S2)
    (m1 : M S1 A) (m2 : M S2 A) h :
  simulates obj obj' eq m1 m2 ->
  same_outcome (run m1 obj h) (run m2 obj' h).
Proof.
  intros Hm. destruct (simulates_run obj obj' eq m1 m2 h Hm) as (Hr & Hh & Ht).
  split; [apply agree_eq, Hr | split; assumption].
Qed.

(** Walking two methods with the same text. *)
Ltac walk_same :=
  lazymatch goal with
  | |- simulates _ _ _ (ret _) _ => apply (simulates_ret _ _ eq); reflexivity
  | |- simulates _ _ _ (tensor_op _ _ _) _ => apply simulates_tensor_op
  | |- simulates _ _ _ (py_op _ _ _) _ => apply simulates_py_op
  | |- simulates _ _ _ (attr _) _ =>
      apply (simulates_attr _ _ eq); reflexivity
  | |- simulates _ _ _ (if ?b then _ else _) _ => destruct b; walk_same
  | |- simulates _ _ _ (let '(_, _) := ?x in _) _ => destruct x; walk_same
  | |- simulates _ _ _ (bind (for_enumerate ?items 0 ?b1 ?l1) _)
                       (bind (for_enumerate _ 0 ?b2 ?l2) _) =>
      eapply simulates_bind;
      [ apply (fun Hb => simulates_for_enumerate _ _ (fun _ => eq) b1 b2
                           items Hb items [] l1 l2 eq_refl eq_refl);
        intros ? ? ? ? _ <-; walk_same
      | intros ? ? <-; walk_same ]
  | |- simulates _ _ _ (bind _ _) _ =>
      eapply simulates_bind; [walk_same | intros ? ? <-; walk_same]
  end.

Section DeadParameter.
Context `{HMBlocks}.

Lemma HMControlNet_ignores_embedding_channels n cfg obj obj' c d f h :
  HMControlNet.init cfg = Ok obj ->
  HMControlNet.init (with_embedding_channels n cfg) = Ok obj' ->
  same_outcome (run (HMControlNet.forward c d f) obj h)
               (run (HMControlNet.forward c d f) obj' h).
Proof.
  unfold HMControlNet.init.
  cbn [with_embedding_channels cfg_block_out_channels].
  destruct (first_item _); [|discriminate]. cbn [rbind].
  intros [= <-] [= <-].
  match goal with
  | |- same_outcome (run _ ?o1 _) (run _ ?o2 _) =>
      set (m1 := o1); set (m2 := o2)
  end.
  apply simulates_same_outcome.
  unfold HMControlNet.forward; unfold_ops.
  walk_same.
Qed.

Lemma HMControlNet2_ignores_embedding_channels n cfg obj obj' c e h :
  HMControlNet2.init cfg = Ok obj ->
  HMControlNet2.init (with_embedding_channels n cfg) = Ok obj' ->
  same_outcome (run (HMControlNet2.forward c e) obj h)
               (run (HMControlNet2.forward c e) obj' h).
Proof.
  unfold HMControlNet2.init.
  cbn [with_embedding_channels cfg_block_out_channels].
  destruct (first_item _); [|discriminate]. cbn [rbind].
  intros [= <-] [= <-].
  match goal with
  | |- same_outcome (run _ ?o1 _) (run _ ?o2 _) =>
      set (m1 := o1); set (m2 := o2)
  end.
  apply simulates_same_outcome.
  unfold HMControlNet2.forward; unfold_ops.
  walk_same.
Qed.

Lemma HMV2ControlNet_ignores_embedding_channels n cfg obj obj' c d f h :
  HMV2ControlNet.init cfg = Ok obj ->
  HMV2ControlNet.init (with_embedding_channels n cfg) = Ok obj' ->
  same_outcome (run (HMV2ControlNet.forward c d f) obj h)
               (run (HMV2ControlNet.forward c d f) obj' h).
Proof.
  unfold HMV2ControlNet.init.
  cbn [with_embedding_channels cfg_block_out_channels].
  destruct (first_item _); [|discriminate]. cbn [rbind].
  intros [= <-] [= <-].
  match goal with
  | |- same_outcome (run _ ?o1 _) (run _ ?o2 _) =>
      set (m1 := o1); set (m2 := o2)
  end.
  apply simulates_same_outcome.
  unfold HMV2ControlNet.forward; unfold_ops.
  walk_same.
Qed.

Lemma HMV3ControlNet_ignores_embedding_channels n cfg obj obj' c d f e h :
  HMV3ControlNet.init cfg = Ok obj ->
  HMV3ControlNet.init (with_embedding_channels n cfg) = Ok obj' ->
  same_outcome (run (HMV3ControlNet.forward c d f e) obj h)
               (run (HMV3ControlNet.forward c d f e) obj' h).
Proof.
  unfold HMV3ControlNet.init.
  cbn [with_embedding_channels cfg_block_out_channels].
  destruct (first_item _); [|discriminate]. cbn [rbind].
  intros [= <-] [= <-].
  match goal with
  | |- same_outcome (run _ ?o1 _) (run _ ?o2 _) =>
      set (m1 := o1); set (m2 := o2)
  end.
  apply simulates_same_outcome.
  unfold HMV3ControlNet.forward; unfold_ops.
  walk_same.
Qed.

Lemma HMV2ControlNet2_ignores_embedding_channels n cfg obj obj' c e h :
  HMV2ControlNet2.init cfg = Ok obj ->
  HMV2ControlNet2.init (with_embedding_channels n cfg) = Ok obj' ->
  same_outcome (run (HMV2ControlNet2.forward c e) obj h)
               (run (HMV2ControlNet2.forward c e) obj' h).
Proof.
  unfold HMV2ControlNet2.init.
  cbn [with_embedding_channels cfg_block_out_channels].
  destruct (first_item _); [|discriminate]. cbn [rbind].
  intros [= <-] [= <-].
  match goal with
  | |- same_outcome (run _ ?o1 _) (run _ ?o2 _) =>
      set (m1 := o1); set (m2 := o2)
  end.
  apply simulates_same_outcome.
  unfold HMV2ControlNet2.forward; unfold_ops.
  walk_same.
Qed.

End DeadParameter.

(** ** The classes with descending keys against the classes with ascending
    keys *)

Lemma same_tensors_renamed_set key1 key2 i d1 d2 v :
  (forall j, j < i -> key1 j <> key1 i) ->
  (forall j, j < i -> key2 j <> key2 i) ->
  same_tensors_renamed key1 key2 i d1 d2 ->
  same_tensors_renamed key1 key2 (Datatypes.S i)
    (dict_set d1 (key1 i) v) (dict_set d2 (key2 i) v).
Proof.
  intros H1 H2 (Hk1 & Hk2 & Hv).
  assert (Hfresh : forall (key : nat -> string) d,
             (forall j, j < i -> key j <> key i) ->
             keys d = map key (seq 0 i) -> ~ In (key i) (keys d)).
  { intros key d Hinj Hk Hin. rewrite Hk in Hin.
    apply in_map_iff in Hin as (j & Hj & Hin). apply in_seq in Hin.
    apply (Hinj j); [lia | exact Hj]. }
  rewrite !dict_set_fresh by (apply Hfresh; assumption).
  unfold same_tensors_renamed.
  rewrite !keys_app, !map_app, seq_S, !map_app, Hk1, Hk2, Hv.
  repeat split; reflexivity.
Qed.

Section Renaming.
Context `{HMBlocks}.

Ltac walk_renamed key1 key2 inj1 inj2 :=
  lazymatch goal with
  | |- simulates _ _ _ (tensor_op _ _ _) _ => apply simulates_tensor_op
  | |- simulates _ _ _ (py_op _ _ _) _ => apply simulates_py_op
  | |- simulates _ _ _ (attr _) _ =>
      apply (simulates_attr _ _ eq); reflexivity
  | |- simulates _ _ _ (let '(_, _) := ?x in _) _ =>
      destruct x; walk_renamed key1 key2 inj1 inj2
  | |- simulates ?o _ _ (bind (attr ?g) _) _ =>
      eapply simulates_bind;
      [ apply (simulates_attr _ _ (fun a1 a2 => a1 = g o /\ a2 = a1));
        split; reflexivity
      | intros ? ? [-> ->]; walk_renamed key1 key2 inj1 inj2 ]
  | |- simulates _ _ _ (bind (for_enumerate ?items 0 ?b1 ?l1) _)
                       (bind (for_enumerate _ 0 ?b2 ?l2) _) =>
      eapply simulates_bind;
      [ apply (fun Hb =>
                 simulates_for_enumerate _ _
                   (fun i (p1 p2 : value * pydict) =>
                      fst p1 = fst p2
                      /\ same_tensors_renamed key1 key2 i (snd p1) (snd p2))
                   b1 b2 items Hb items [] l1 l2 eq_refl
                   (conj eq_refl (conj eq_refl (conj eq_refl eq_refl))));
        intros i blk [e1 d1] [e2 d2] _ [He Hd]; cbn [fst snd] in He, Hd;
        subst e2;
        eapply simulates_bind; [apply simulates_tensor_op | intros ? ? <-];
        eapply simulates_bind; [apply simulates_tensor_op | intros ? ? <-];
        apply simulates_attr_right; apply simulates_ret;
        split; [reflexivity|]; cbn [snd];
        apply (same_tensors_renamed_set key1 key2 i d1 d2);
        [ intros j Hj Heq; apply inj1 in Heq; lia
        | intros j Hj Heq; apply inj2 in Heq; lia
        | exact Hd ]
      | intros [e1 d1] [e2 d2] [He Hd]; apply simulates_ret; exact Hd ]
  | |- simulates _ _ _ (bind _ _) _ =>
      eapply simulates_bind;
      [ walk_renamed key1 key2 inj1 inj2
      | intros ? ? <-; walk_renamed key1 key2 inj1 inj2 ]
  end.

Lemma HMV2ControlNet_is_HMControlNet_renamed obj c d f h :
  let n := length (HMControlNet.blocks_down obj) in
  let out := run (HMControlNet.forward c d f) obj h in
  let out' := run (HMV2ControlNet.forward c d f) (as_HMV2ControlNet obj) h in
  agree (same_tensors_renamed (ascending_key "down_")
                              (descending_key "up_v2_" n) n)
        (fst out) (fst out')
  /\ heap (snd out') = heap (snd out)
  /\ trace (snd out') = trace (snd out).
Proof.
  intros n out out'. subst out out'.
  apply simulates_run.
  unfold HMControlNet.forward, HMV2ControlNet.forward; unfold_ops.
  walk_renamed (ascending_key "down_") (descending_key "up_v2_" n)
               key_inj_nat key_inj_Z.
Qed.

Lemma HMV2ControlNet2_is_HMControlNet2_renamed obj c e h :
  let n := length (HMControlNet2.blocks_down obj) in
  let out := run (HMControlNet2.forward c e) obj h in
  let out' :=
    run (HMV2ControlNet2.forward c e) (as_HMV2ControlNet2 obj) h in
  agree (same_tensors_renamed (ascending_key "down2_")
                              (descending_key "up2_v2_" n) n)
        (fst out) (fst out')
  /\ heap (snd out') = heap (snd out)
  /\ trace (snd out') = trace (snd out).
Proof.
  intros n out out'. subst out out'.
  apply simulates_run.
  unfold HMControlNet2.forward, HMV2ControlNet2.forward; unfold_ops.
  walk_renamed (ascending_key "down2_") (descending_key "up2_v2_" n)
               key_inj_nat key_inj_Z.
Qed.

End Renaming.

Lemma HMV2ControlNet2_init_as cfg obj :
  HMControlNet2.init cfg = Ok obj ->
  HMV2ControlNet2.init cfg = Ok (as_HMV2ControlNet2 obj).
Proof.
  unfold HMControlNet2.init, HMV2ControlNet2.init.
  destruct (first_item _); [|discriminate]. cbn [rbind].
  intros [= <-]. reflexivity.
Qed.

(** * The statements, class by class *)

(** X6: in a forward call that returns, the fusion blocks are called once
    each, in the order of [blocks_down]: the first on the output of
    [conv_in], every next one on the output of the previous one, and all of
    them with the same driving embedding, the output of the final projection
    ([exp_proj], or [emo_proj] for the emotion-driven classes and for the
    emotion path of [HMV3ControlNet]). *)
Theorem fusion_blocks_run_once_in_order `{HMBlocks} :
  (forall c d f obj h ret_dict,
     fst (run (HMControlNet.forward c d f) obj h) = Ok ret_dict ->
     fusion_chain (trace (snd (run (HMControlNet.forward c d f) obj h)))
                  "exp_proj" (length (HMControlNet.blocks_down obj)))
  /\ (forall c e obj h ret_dict,
        fst (run (HMControlNet2.forward c e) obj h) = Ok ret_dict ->
        fusion_chain (trace (snd (run (HMControlNet2.forward c e) obj h)))
                     "emo_proj" (length (HMControlNet2.blocks_down obj)))
  /\ (forall c d f obj h ret_dict,
        fst (run (HMV2ControlNet.forward c d f) obj h) = Ok ret_dict ->
        fusion_chain (trace (snd (run (HMV2ControlNet.forward c d f) obj h)))
                     "exp_proj" (length (HMV2ControlNet.blocks_down obj)))
  /\ (forall c d f e obj h ret_dict,
        fst (run (HMV3ControlNet.forward c d f e) obj h) = Ok ret_dict ->
        fusion_chain
          (trace (snd (run (HMV3ControlNet.forward c d f e) obj h)))
          (if HMV3ControlNet.both_supplied d f then "exp_proj" else "emo_proj")
          (length (HMV3ControlNet.blocks_down obj)))
  /\ (forall c e obj h ret_dict,
        fst (run (HMV2ControlNet2.forward c e) obj h) = Ok ret_dict ->
        fusion_chain (trace (snd (run (HMV2ControlNet2.forward c e) obj h)))
                     "emo_proj" (length (HMV2ControlNet2.blocks_down obj))).
Proof.
  split5.
  - apply HMControlNet_chain.
  - apply HMControlNet2_chain.
  - apply HMV2ControlNet_chain.
  - apply HMV3ControlNet_chain.
  - apply HMV2ControlNet2_chain.
Qed.

Lemma fusion_blocks_run_once_in_order_witness :
  fusion_chain
    (trace (snd (run (HMV3ControlNet.forward (H:=spatial_block)
                        (VTensor 0) VNone VNone (VTensor 3))
                     default_HMV3ControlNet example_heap)))
    "emo_proj" 4.
Proof.
  destruct (fusion_blocks_run_once_in_order (H:=spatial_block))
    as (_ & _ & _ & Hv3 & _).
  eapply (Hv3 (VTensor 0) VNone VNone (VTensor 3)
              default_HMV3ControlNet example_heap).
  vm_compute. reflexivity.
Defined.

(** X7: [HMControlNet] stores the un-flattened output of its [i]-th fusion
    block under ["down_{i}"], and [HMControlNet2] under ["down2_{i}"], one
    entry per block in ascending order. *)
Theorem ascending_keys_hold_block_outputs `{HMBlocks} :
  (forall cfg obj c d f h ret_dict,
     HMControlNet.init cfg = Ok obj ->
     fst (run (HMControlNet.forward c d f) obj h) = Ok ret_dict ->
     stage_outputs (trace (snd (run (HMControlNet.forward c d f) obj h)))
                   (ascending_key "down_")
                   (length (cfg_block_out_channels cfg) - 1) ret_dict)
  /\ (forall cfg obj c e h ret_dict,
        HMControlNet2.init cfg = Ok obj ->
        fst (run (HMControlNet2.forward c e) obj h) = Ok ret_dict ->
        stage_outputs (trace (snd (run (HMControlNet2.forward c e) obj h)))
                      (ascending_key "down2_")
                      (length (cfg_block_out_channels cfg) - 1) ret_dict).
Proof.
  split.
  - intros cfg obj c d f h rd Hinit Hrun.
    rewrite <- (HMControlNet_blocks _ _ Hinit).
    apply HMControlNet_stage_outputs, Hrun.
  - intros cfg obj c e h rd Hinit Hrun.
    rewrite <- (HMControlNet2_blocks _ _ Hinit).
    apply HMControlNet2_stage_outputs, Hrun.
Qed.

Lemma ascending_keys_hold_block_outputs_witness :
  stage_outputs
    (trace (snd (run (HMControlNet2.forward (H:=spatial_block)
                        (VTensor 0) (VTensor 3))
                     default_HMControlNet2 example_heap)))
    (ascending_key "down2_") 3
    [("down2_0", VTensor 15); ("down2_1", VTensor 17);
     ("down2_2", VTensor 19)].
Proof.
  destruct (ascending_keys_hold_block_outputs (H:=spatial_block))
    as (_ & Hv).
  apply (Hv HMControlNet2.default_config default_HMControlNet2
            (VTensor 0) (VTensor 3) example_heap).
  - reflexivity.
  - vm_compute. reflexivity.
Defined.

(** X8: when [HMV3ControlNet.forward] returns, for every fusion block [j]
    the key ["up3_{N-1-j}"] holds the un-flattened output of that block;
    ["down3_0"] holds the un-flattened output of [conv_up2_down0] applied to
    the output of the block with up index 2, and ["down3_1"] the un-flattened
    output of [conv_up1_down1] applied to the output of the block with up
    index 1 ([N = len(block_out_channels) - 1]). *)
Theorem HMV3_outputs_are_cross_wired `{HMBlocks} cfg obj c d f e h ret_dict :
  HMV3ControlNet.init cfg = Ok obj ->
  fst (run (HMV3ControlNet.forward c d f e) obj h) = Ok ret_dict ->
  let n := length (cfg_block_out_channels cfg) - 1 in
  HMV3_wiring (trace (snd (run (HMV3ControlNet.forward c d f e) obj h)))
              n ret_dict n.
Proof.
  intros Hinit Hrun n. subst n.
  rewrite <- (HMV3ControlNet_blocks _ _ Hinit).
  apply HMV3ControlNet_wiring, Hrun.
Qed.

Lemma HMV3_outputs_are_cross_wired_witness :
  HMV3_wiring
    (trace (snd (run (HMV3ControlNet.forward (H:=spatial_block)
                        (VTensor 0) (VTensor 1) (VTensor 2) VNone)
                     default_HMV3ControlNet example_heap)))
    4
    [("up3_3", VTensor 19); ("up3_2", VTensor 21);
     ("down3_0", VTensor 23); ("up3_1", VTensor 25);
     ("down3_1", VTensor 27); ("up3_0", VTensor 29);
     ("down3_2", VTensor 29); ("down3_3", VTensor 29)]
    4.
Proof.
  apply (HMV3_outputs_are_cross_wired (H:=spatial_block)
           HMV3ControlNet.default_config default_HMV3ControlNet
           (VTensor 0) (VTensor 1) (VTensor 2) VNone example_heap).
  - reflexivity.
  - vm_compute. reflexivity.
Defined.

(** X9: every tensor in the dictionary a forward call returns was created
    by that call: no variant returns one of its inputs or any other tensor
    of the caller.  In the four classes with one key per block no two keys
    hold the same tensor. *)
Theorem outputs_are_new_tensors `{HMBlocks} :
  (forall c d f obj h ret_dict,
     fst (run (HMControlNet.forward c d f) obj h) = Ok ret_dict ->
     returns_new_tensors
       h (heap (snd (run (HMControlNet.forward c d f) obj h))) ret_dict
     /\ no_aliasing ret_dict)
  /\ (forall c e obj h ret_dict,
        fst (run (HMControlNet2.forward c e) obj h) = Ok ret_dict ->
        returns_new_tensors
          h (heap (snd (run (HMControlNet2.forward c e) obj h))) ret_dict
        /\ no_aliasing ret_dict)
  /\ (forall c d f obj h ret_dict,
        fst (run (HMV2ControlNet.forward c d f) obj h) = Ok ret_dict ->
        returns_new_tensors
          h (heap (snd (run (HMV2ControlNet.forward c d f) obj h))) ret_dict
        /\ no_aliasing ret_dict)
  /\ (forall c d f e obj h ret_dict,
        fst (run (HMV3ControlNet.forward c d f e) obj h) = Ok ret_dict ->
        returns_new_tensors
          h (heap (snd (run (HMV3ControlNet.forward c d f e) obj h)))
          ret_dict)
  /\ (forall c e obj h ret_dict,
        fst (run (HMV2ControlNet2.forward c e) obj h) = Ok ret_dict ->
        returns_new_tensors
          h (heap (snd (run (HMV2ControlNet2.forward c e) obj h))) ret_dict
        /\ no_aliasing ret_dict).
Proof.
  split5.
  - apply HMControlNet_outputs_new.
  - apply HMControlNet2_outputs_new.
  - apply HMV2ControlNet_outputs_new.
  - apply HMV3ControlNet_outputs_new.
  - apply HMV2ControlNet2_outputs_new.
Qed.

Lemma outputs_are_new_tensors_witness :
  returns_new_tensors
    example_heap
    (heap (snd (run (HMV2ControlNet.forward (H:=spatial_block)
                       (VTensor 0) (VTensor 1) (VTensor 2))
                    default_HMV2ControlNet example_heap)))
    [("up_v2_3", VTensor 19); ("up_v2_2", VTensor 21);
     ("up_v2_1", VTensor 23); ("up_v2_0", VTensor 25)]
  /\ no_aliasing [("up_v2_3", VTensor 19); ("up_v2_2", VTensor 21);
                  ("up_v2_1", VTensor 23); ("up_v2_0", VTensor 25)].
Proof.
  destruct (outputs_are_new_tensors (H:=spatial_block)) as (_ & _ & Hv & _).
  apply (Hv (VTensor 0) (VTensor 1) (VTensor 2)
            default_HMV2ControlNet example_heap).
  vm_compute. reflexivity.
Defined.

(** X10: what the classes driven by expression coefficients and face
    parts accept.  If a forward call of a constructed [HMControlNet],
    [HMV2ControlNet] or [HMV3ControlNet] (both signals supplied) returns,
    then the condition has shape [(B, input_channels, F, H, W)] with
    [0 < scale_factor <= H, W]; [drive_coeff] has three axes and its elements
    split evenly over the [B * F] frames, [B * F] being non-zero; and
    [face_parts] has shape [(b, f, r, 1024)] with [b * f = B * F]. *)
Theorem dual_signal_inputs `{HMBlocks} cfg lc ld lf shc shd shf h :
  h !! lc = Some shc -> h !! ld = Some shd -> h !! lf = Some shf ->
  (forall obj,
      HMControlNet.init cfg = Ok obj ->
      is_ok (fst (run (HMControlNet.forward (VTensor lc) (VTensor ld)
                                            (VTensor lf)) obj h)) ->
      exists B F,
        accepts_condition (cfg_input_channels cfg) (cfg_scale_factor cfg)
                          shc B F
        /\ accepts_coefficients shd B F
        /\ accepts_face_parts shf B F)
  /\ (forall obj,
         HMV2ControlNet.init cfg = Ok obj ->
         is_ok (fst (run (HMV2ControlNet.forward (VTensor lc) (VTensor ld)
                                                 (VTensor lf)) obj h)) ->
         exists B F,
           accepts_condition (cfg_input_channels cfg) (cfg_scale_factor cfg)
                             shc B F
           /\ accepts_coefficients shd B F
           /\ accepts_face_parts shf B F)
  /\ (forall obj e,
         HMV3ControlNet.init cfg = Ok obj ->
         is_ok (fst (run (HMV3ControlNet.forward (VTensor lc) (VTensor ld)
                                                 (VTensor lf) e) obj h)) ->
         exists B F,
           accepts_condition (cfg_input_channels cfg) (cfg_scale_factor cfg)
                             shc B F
           /\ accepts_coefficients shd B F
           /\ accepts_face_parts shf B F).
Proof.
  intros Hc Hd Hf. split; [|split].
  - intros obj Hinit. apply (HMControlNet_inputs _ _ _ _ _ _ _ _ _ Hinit Hc Hd Hf).
  - intros obj Hinit.
    apply (HMV2ControlNet_inputs _ _ _ _ _ _ _ _ _ Hinit Hc Hd Hf).
  - intros obj e Hinit.
    apply (HMV3ControlNet_dual_inputs _ _ _ _ _ _ _ _ _ _ Hinit Hc Hd Hf).
Qed.

Lemma dual_signal_inputs_witness :
  exists B F,
    accepts_condition 3 4 [1; 3; 2; 64; 64] B F
    /\ accepts_coefficients [1; 2; 5] B F
    /\ accepts_face_parts [1; 2; 7; 1024] B F.
Proof.
  destruct (dual_signal_inputs (H:=spatial_block)
              HMV3ControlNet.default_config 0 1 2
              [1; 3; 2; 64; 64] [1; 2; 5] [1; 2; 7; 1024] example_heap
              eq_refl eq_refl eq_refl) as (_ & _ & Hv3).
  apply (Hv3 default_HMV3ControlNet VNone).
  - reflexivity.
  - vm_compute. exact I.
Defined.

(** X11: what the emotion-driven classes accept.  If a forward call of a
    constructed [HMControlNet2] or [HMV2ControlNet2], or of an
    [HMV3ControlNet] on its emotion path, returns, then the condition has
    shape [(B, input_channels, F, H, W)] with [0 < scale_factor <= H, W], and
    [emo_embedding] has three axes and its elements split evenly over the
    [B * F] frames, [B * F] being non-zero. *)
Theorem emotion_signal_inputs `{HMBlocks} cfg lc le shc she h :
  h !! lc = Some shc -> h !! le = Some she ->
  (forall obj,
      HMControlNet2.init cfg = Ok obj ->
      is_ok (fst (run (HMControlNet2.forward (VTensor lc) (VTensor le))
                      obj h)) ->
      exists B F,
        accepts_condition (cfg_input_channels cfg) (cfg_scale_factor cfg)
                          shc B F
        /\ accepts_coefficients she B F)
  /\ (forall obj,
         HMV2ControlNet2.init cfg = Ok obj ->
         is_ok (fst (run (HMV2ControlNet2.forward (VTensor lc) (VTensor le))
                         obj h)) ->
         exists B F,
           accepts_condition (cfg_input_channels cfg) (cfg_scale_factor cfg)
                             shc B F
           /\ accepts_coefficients she B F)
  /\ (forall obj d f,
         HMV3ControlNet.init cfg = Ok obj ->
         HMV3ControlNet.both_supplied d f = false ->
         is_ok (fst (run (HMV3ControlNet.forward (VTensor lc) d f
                                                 (VTensor le)) obj h)) ->
         exists B F,
           accepts_condition (cfg_input_channels cfg) (cfg_scale_factor cfg)
                             shc B F
           /\ accepts_coefficients she B F).
Proof.
  intros Hc He. split; [|split].
  - intros obj Hinit. apply (HMControlNet2_inputs _ _ _ _ _ _ _ Hinit Hc He).
  - intros obj Hinit. apply (HMV2ControlNet2_inputs _ _ _ _ _ _ _ Hinit Hc He).
  - intros obj d f Hinit Hb.
    apply (HMV3ControlNet_emo_inputs _ _ _ _ _ _ _ _ _ Hinit Hb Hc He).
Qed.

Lemma emotion_signal_inputs_witness :
  exists B F,
    accepts_condition 3 8 [1; 3; 2; 64; 64] B F
    /\ accepts_coefficients [1; 2; 4] B F.
Proof.
  destruct (emotion_signal_inputs (H:=spatial_block)
              HMControlNet2.default_config 0 3
              [1; 3; 2; 64; 64] [1; 2; 4] example_heap
              eq_refl eq_refl) as (Hv & _).
  apply (Hv default_HMControlNet2).
  - reflexivity.
  - vm_compute. exact I.
Defined.

(** X12: the two adapters of [HMV3ControlNet] are built for 1280 input
    channels whatever [block_out_channels] is.  With a fusion block that
    returns [channel_out] channels, a forward call can only return when the
    stages feeding the adapters are 1280 wide: [block_out_channels[-3]] when
    there are at least four widths and [block_out_channels[-2]] when there
    are at least three. *)
Lemma HMV3ControlNet_adapter_inputs cfg obj :
  HMV3ControlNet.init cfg = Ok obj ->
  Conv2d.in_channels (HMV3ControlNet.conv_up2_down0 obj) = 1280
  /\ Conv2d.in_channels (HMV3ControlNet.conv_up1_down1 obj) = 1280.
Proof.
  unfold HMV3ControlNet.init. destruct (first_item _); [|discriminate].
  intros [= <-]. split; reflexivity.
Qed.

Theorem HMV3_adapter_stages_are_1280 `{HMBlocks} cfg obj c d f e h :
  block_contract H ->
  HMV3ControlNet.init cfg = Ok obj ->
  is_ok (fst (run (HMV3ControlNet.forward c d f e) obj h)) ->
  let widths := cfg_block_out_channels cfg in
  (4 <= length widths -> item widths (length widths - 3) = 1280)
  /\ (3 <= length widths -> item widths (length widths - 2) = 1280).
Proof.
  intros Hcontract Hinit Hok widths. subst widths.
  pose proof (HMV3ControlNet_feeds_adapters c d f e obj h Hcontract Hok)
    as Hfeeds.
  pose proof (HMV3ControlNet_blocks _ _ Hinit) as Hlen.
  destruct (HMV3ControlNet_adapter_inputs _ _ Hinit) as [Hin2 Hin1].
  unfold feeds_adapters in Hfeeds. rewrite Hlen, Hin2, Hin1 in Hfeeds.
  set (n := length (cfg_block_out_channels cfg)) in *.
  split; intros Hw.
  - destruct (lookup_lt_is_Some_2 (HMV3ControlNet.blocks_down obj) (n - 4))
      as [blk Hblk]; [lia|].
    assert (Hlt : n - 4 < n - 1) by lia.
    destruct (Hfeeds _ blk Hlt Hblk) as [H2 _].
    destruct (HMV3ControlNet_block_width _ _ _ _ Hinit Hblk) as [_ Hc].
    replace (n - 3) with (Datatypes.S (n - 4)) by lia.
    rewrite <- Hc. apply H2. lia.
  - destruct (lookup_lt_is_Some_2 (HMV3ControlNet.blocks_down obj) (n - 3))
      as [blk Hblk]; [lia|].
    assert (Hlt : n - 3 < n - 1) by lia.
    destruct (Hfeeds _ blk Hlt Hblk) as [_ H1].
    destruct (HMV3ControlNet_block_width _ _ _ _ Hinit Hblk) as [_ Hc].
    replace (n - 2) with (Datatypes.S (n - 3)) by lia.
    rewrite <- Hc. apply H1. lia.
Qed.

Lemma HMV3_adapter_stages_are_1280_witness :
  item [128; 640; 1280; 1280; 1280] 2 = 1280
  /\ item [128; 640; 1280; 1280; 1280] 3 = 1280.
Proof.
  destruct (HMV3_adapter_stages_are_1280 (H:=spatial_block)
              HMV3ControlNet.default_config default_HMV3ControlNet
              (VTensor 0) (VTensor 1) (VTensor 2) VNone example_heap
              spatial_block_contract eq_refl) as [H4 H3].
  - vm_compute. exact I.
  - split; [apply H4 | apply H3]; cbn; lia.
Defined.

(** X13: the constructor argument [embedding_channels] is stored on the
    module and never read: two modules built from configurations that differ
    only in it give, on the same inputs, the same result, the same tensors
    and the same operations. *)
Theorem embedding_channels_is_never_read `{HMBlocks} n cfg h :
  (forall obj obj' c d f,
      HMControlNet.init cfg = Ok obj ->
      HMControlNet.init (with_embedding_channels n cfg) = Ok obj' ->
      same_outcome (run (HMControlNet.forward c d f) obj h)
                   (run (HMControlNet.forward c d f) obj' h))
  /\ (forall obj obj' c e,
         HMControlNet2.init cfg = Ok obj ->
         HMControlNet2.init (with_embedding_channels n cfg) = Ok obj' ->
         same_outcome (run (HMControlNet2.forward c e) obj h)
                      (run (HMControlNet2.forward c e) obj' h))
  /\ (forall obj obj' c d f,
         HMV2ControlNet.init cfg = Ok obj ->
         HMV2ControlNet.init (with_embedding_channels n cfg) = Ok obj' ->
         same_outcome (run (HMV2ControlNet.forward c d f) obj h)
                      (run (HMV2ControlNet.forward c d f) obj' h))
  /\ (forall obj obj' c d f e,
         HMV3ControlNet.init cfg = Ok obj ->
         HMV3ControlNet.init (with_embedding_channels n cfg) = Ok obj' ->
         same_outcome (run (HMV3ControlNet.forward c d f e) obj h)
                      (run (HMV3ControlNet.forward c d f e) obj' h))
  /\ (forall obj obj' c e,
         HMV2ControlNet2.init cfg = Ok obj ->
         HMV2ControlNet2.init (with_embedding_channels n cfg) = Ok obj' ->
         same_outcome (run (HMV2ControlNet2.forward c e) obj h)
                      (run (HMV2ControlNet2.forward c e) obj' h)).
Proof.
  split5; intros.
  - eapply HMControlNet_ignores_embedding_channels; eassumption.
  - eapply HMControlNet2_ignores_embedding_channels; eassumption.
  - eapply HMV2ControlNet_ignores_embedding_channels; eassumption.
  - eapply HMV3ControlNet_ignores_embedding_channels; eassumption.
  - eapply HMV2ControlNet2_ignores_embedding_channels; eassumption.
Qed.

Lemma embedding_channels_is_never_read_witness :
  same_outcome
    (run (HMV3ControlNet.forward (H:=spatial_block)
            (VTensor 0) (VTensor 1) (VTensor 2) VNone)
         default_HMV3ControlNet example_heap)
    (run (HMV3ControlNet.forward (H:=spatial_block)
            (VTensor 0) (VTensor 1) (VTensor 2) VNone)
         (get_ok (HMV3ControlNet.init
                    (with_embedding_channels
                       0 HMV3ControlNet.default_config)) I)
         example_heap).
Proof.
  destruct (embedding_channels_is_never_read (H:=spatial_block)
              0 HMV3ControlNet.default_config example_heap)
    as (_ & _ & _ & Hv3 & _).
  apply Hv3; reflexivity.
Defined.

(** X14: [HMV2ControlNet.forward] is [HMControlNet.forward] with other
    keys, and [HMV2ControlNet2.forward] is [HMControlNet2.forward] with other
    keys: on modules with the same fields they perform the same operations,
    raise the same exception or return the same tensors in the same order,
    stage [i] being stored under ["up_v2_{N-1-i}"] instead of ["down_{i}"]
    (["up2_v2_{N-1-i}"] instead of ["down2_{i}"]).  [HMControlNet2] and
    [HMV2ControlNet2] built from the same arguments have the same fields. *)
Theorem descending_classes_rename_the_keys `{HMBlocks} :
  (forall obj c d f h,
      let n := length (HMControlNet.blocks_down obj) in
      let out := run (HMControlNet.forward c d f) obj h in
      let out' :=
        run (HMV2ControlNet.forward c d f) (as_HMV2ControlNet obj) h in
      agree (same_tensors_renamed (ascending_key "down_")
                                  (descending_key "up_v2_" n) n)
            (fst out) (fst out')
      /\ heap (snd out') = heap (snd out)
      /\ trace (snd out') = trace (snd out))
  /\ (forall obj c e h,
         let n := length (HMControlNet2.blocks_down obj) in
         let out := run (HMControlNet2.forward c e) obj h in
         let out' :=
           run (HMV2ControlNet2.forward c e) (as_HMV2ControlNet2 obj) h in
         agree (same_tensors_renamed (ascending_key "down2_")
                                     (descending_key "up2_v2_" n) n)
               (fst out) (fst out')
         /\ heap (snd out') = heap (snd out)
         /\ trace (snd out') = trace (snd out))
  /\ (forall cfg obj,
         HMControlNet2.init cfg = Ok obj ->
         HMV2ControlNet2.init cfg = Ok (as_HMV2ControlNet2 obj)).
Proof.
  split; [|split].
  - apply HMV2ControlNet_is_HMControlNet_renamed.
  - apply HMV2ControlNet2_is_HMControlNet2_renamed.
  - apply HMV2ControlNet2_init_as.
Qed.

Lemma descending_classes_rename_the_keys_witness :
  HMV2ControlNet2.init HMControlNet2.default_config
  = Ok (as_HMV2ControlNet2 default_HMControlNet2).
Proof.
  destruct (descending_classes_rename_the_keys (H:=spatial_block))
    as (_ & _ & Hinit).
  apply Hinit. reflexivity.
Defined.

(** * A missing driving signal *)

Section MissingSignal.
Context `{HMBlocks}.

Ltac none_is_scaled Hrun :=
  unfold_ops_in Hrun;
  do 10 step_any Hrun
     ltac:(split; [eexists; reflexivity | cbn; discriminate]);
  let Hmul := fresh "Hmul" in
  apply bind_inv in Hrun as [(? & ? & Hmul & _) | (? & Hmul & ->)];
  [ apply tensor_op_ok_inv in Hmul as (? & ? & Hsem & _); discriminate
  | apply tensor_op_err_inv in Hmul as (Hsem & ->);
    cbn in Hsem; injection Hsem as <-;
    split; [eexists; reflexivity|]; intros _; split; reflexivity ].

(** X15: in the four classes whose driving signal is not optional, a call
    with that signal [None] ([drive_coeff] for [HMControlNet] and
    [HMV2ControlNet], [emo_embedding] for [HMControlNet2] and
    [HMV2ControlNet2]) raises; if the call got past [conv_in], the exception
    is the [TypeError] of multiplying [None] by the scaling constant, and
    that multiplication is the last operation performed. *)
Theorem missing_signal_raises_at_scaling :
  (forall c f obj h,
      raises_at_scaling (run (HMControlNet.forward c VNone f) obj h) 500)
  /\ (forall c obj h,
         raises_at_scaling (run (HMControlNet2.forward c VNone) obj h) 20)
  /\ (forall c f obj h,
         raises_at_scaling (run (HMV2ControlNet.forward c VNone f) obj h) 500)
  /\ (forall c obj h,
         raises_at_scaling (run (HMV2ControlNet2.forward c VNone) obj h) 20).
Proof.
  split; [|split; [|split]]; intros; unfold raises_at_scaling, run.
  - destruct (HMControlNet.forward _ _ _ _) as [r s'] eqn:Hrun.
    cbn [fst snd]. unfold HMControlNet.forward in Hrun.
    none_is_scaled Hrun.
  - destruct (HMControlNet2.forward _ _ _) as [r s'] eqn:Hrun.
    cbn [fst snd]. unfold HMControlNet2.forward in Hrun.
    none_is_scaled Hrun.
  - destruct (HMV2ControlNet.forward _ _ _ _) as [r s'] eqn:Hrun.
    cbn [fst snd]. unfold HMV2ControlNet.forward in Hrun.
    none_is_scaled Hrun.
  - destruct (HMV2ControlNet2.forward _ _ _) as [r s'] eqn:Hrun.
    cbn [fst snd]. unfold HMV2ControlNet2.forward in Hrun.
    none_is_scaled Hrun.
Qed.

End MissingSignal.

Lemma missing_signal_raises_at_scaling_witness :
  fst (run (HMV2ControlNet2.forward (H:=spatial_block) (VTensor 0) VNone)
           default_HMV2ControlNet2 example_heap) = Err TypeError.
Proof.
  destruct (missing_signal_raises_at_scaling (H:=spatial_block))
    as (_ & _ & _ & Hv).
  apply (Hv (VTensor 0) default_HMV2ControlNet2 example_heap).
  vm_compute. reflexivity.
Defined.

(** * What enters the fusion chain *)

Lemma tensor_op_ok_both {S} o args sem (s : state S) v s' :
  tensor_op o args sem s = (Ok v, s') ->
  exists sh l,
    sem (heap s) = Ok sh /\ v = VTensor l /\ heap s' !! l = Some sh
    /\ self s' = self s /\ grows (heap s) (heap s')
    /\ trace s' = trace s ++ [{| ev_op := o; ev_args := args;
                                 ev_out := Fresh l |}].
Proof.
  intros Hop. apply tensor_op_ok_inv in Hop as (sh & l & Hsem & -> & -> & ->).
  exists sh, (length (heap s)). cbn.
  repeat split; auto.
  - apply list_lookup_middle. reflexivity.
  - apply grows_app.
Qed.

Lemma py_op_ok_both {S A} o args (sem : list shape -> result A)
    (s : state S) a s' :
  py_op o args sem s = (Ok a, s') ->
  sem (heap s) = Ok a /\ self s' = self s /\ heap s' = heap s
  /\ trace s' = trace s ++ [{| ev_op := o; ev_args := args;
                               ev_out := Pure |}].
Proof.
  intros Hop. apply py_op_ok_inv in Hop as (Hsem & ->). cbn.
  rewrite app_nil_r. auto.
Qed.

Lemma conv2d_shape_exact m n c h w r :
  conv2d_shape m [n; c; h; w] = Ok r ->
  c = Conv2d.in_channels m
  /\ r = [n; Conv2d.out_channels m;
          h + 2 * Conv2d.padding m - Conv2d.kernel_size m + 1;
          w + 2 * Conv2d.padding m - Conv2d.kernel_size m + 1].
Proof.
  unfold conv2d_shape.
  destruct (c =? Conv2d.in_channels m) eqn:Hc; [|discriminate].
  destruct (_ && _); [|discriminate]. cbn.
  intros [= <-]. apply Nat.eqb_eq in Hc. auto.
Qed.

Lemma flatten_all_shape_3 b f c :
  Einops.rearrange_shape "b f c -> (b f c)" [] [b; f; c] = Ok [b * (f * c)].
Proof. reflexivity. Qed.

(** Arguments whose shape is known. *)
Ltac use_sem_known :=
  repeat match goal with
         | Hs : unpack5_shape [_; _; _; _; _] = Ok _ |- _ =>
             cbn [unpack5_shape] in Hs; injection Hs as <-
         | Hs : Einops.rearrange_shape "b f c -> (b f c)" [] [_; _; _] = Ok _
           |- _ =>
             rewrite flatten_all_shape_3 in Hs; injection Hs as <-
         | Hs : conv2d_shape _ [_; _; _; _] = Ok _ |- _ =>
             apply conv2d_shape_exact in Hs as (? & ->)
         end.

Ltac use_sem_both :=
  repeat first [ progress use_sem_known | progress use_sem_inv ].

(** One step of a run that returns, keeping the shapes of the tensors and
    the events of the trace. *)
Ltac both_step H Hobj Htr :=
  let Hstep := fresh "Hstep" in
  let Hsem := fresh "Hsem" in
  let Hself := fresh "Hself" in
  let Hgrow := fresh "Hgrow" in
  let Hl := fresh "Hl" in
  let Ht := fresh "Ht" in
  apply bind_ok_inv in H as (? & ? & Hstep & H);
  first
    [ apply attr_ok_inv in Hstep as [-> ->]; rewrite ?Hobj in H
    | apply tensor_op_ok_both in Hstep
        as (? & ? & Hsem & -> & Hl & Hself & Hgrow & Ht);
      rewrite <- Hself in Hobj; clear Hself;
      rewrite Htr in Ht; clear Htr; rename Ht into Htr;
      cbn [app] in Htr;
      simpl_sem Hsem; use_sem_both; transport Hgrow; clear Hgrow
    | apply py_op_ok_both in Hstep as (Hsem & Hself & Hgrow & Ht);
      rewrite <- Hself in Hobj; clear Hself;
      rewrite Htr in Ht; clear Htr; rename Ht into Htr;
      cbn [app] in Htr;
      apply grows_eq in Hgrow;
      simpl_sem Hsem; use_sem_both; transport Hgrow; clear Hgrow ];
  cbv beta in H; destruct_tuples H.

Ltac start_both s0 obj h :=
  let Hs0 := fresh "Hs0" in
  remember {| self := obj; heap := h; trace := [] |} as s0 eqn:Hs0;
  assert (Hobj : self s0 = obj) by (subst s0; reflexivity);
  assert (Htr : trace s0 = []) by (subst s0; reflexivity);
  repeat match goal with
         | Hx : h !! ?l = Some ?sh |- _ =>
             assert (heap s0 !! l = Some sh) by (subst s0; exact Hx);
             clear Hx
         end;
  clear Hs0.

Lemma same_padding (q : Z) :
  (0 < q)%Z -> Z.to_nat q + 2 * 1 - 3 + 1 = Z.to_nat q.
Proof. lia. Qed.

Section ChainInputs.
Context `{HMBlocks}.

Ltac in_list := cbn; repeat first [left; reflexivity | right].

Ltac close_chain_inputs :=
  unfold fusion_chain_inputs, entry_feature_map, driving_embedding;
  match goal with
  | Htr' : trace ?s2 = trace ?s ++ ?new,
    Htr : trace ?s = _,
    Hf : List.filter is_block_call ?new = chain_events ?x ?y ?outs 0,
    Hx : heap ?s !! ?x = Some _,
    Hy : heap ?s !! ?y = Some _,
    Hframe : grows (heap ?s) (heap ?s2) |- _ =>
      apply Hframe in Hx; apply Hframe in Hy;
      eexists _, x, _, y, outs;
      split; [rewrite Htr', Htr, in_app_iff; left; in_list|];
      split; [rewrite Htr', Htr, in_app_iff; left; in_list|];
      split; [assumption|];
      split; [rewrite Htr', Htr, List.filter_app, Hf; reflexivity|];
      split;
      [ refine (eq_trans Hx _);
        rewrite !same_padding by assumption; reflexivity
      | refine (eq_trans Hy _);
        repeat match goal with
               | Hq : _ / _ = _ |- _ => rewrite Hq
               end;
        reflexivity ]
  end.

Lemma HMControlNet_chain_inputs cfg obj lc ld lf h ret_dict
    B C F HH W b f k b2 f2 r w :
  HMControlNet.init cfg = Ok obj ->
  h !! lc = Some [B; C; F; HH; W] ->
  h !! ld = Some [b; f; k] ->
  h !! lf = Some [b2; f2; r; w] ->
  fst (run (HMControlNet.forward (VTensor lc) (VTensor ld) (VTensor lf))
           obj h) = Ok ret_dict ->
  let out := run (HMControlNet.forward (VTensor lc) (VTensor ld)
                    (VTensor lf)) obj h in
  fusion_chain_inputs (trace (snd out)) (heap (snd out)) "exp_proj"
    (length (cfg_block_out_channels cfg) - 1)
    (entry_feature_map cfg B F HH W)
    (driving_embedding cfg B F r (b * (f * k))).
Proof.
  intros Hinit Hc Hd Hf.
  unfold run. destruct (HMControlNet.forward _ _ _ _) as [res s'] eqn:Hrun.
  cbn zeta. cbn [fst snd]. intros ->.
  rewrite <- (HMControlNet_blocks _ _ Hinit).
  unfold HMControlNet.forward in Hrun. unfold_ops_in Hrun.
  start_both s0 obj h.
  repeat both_step Hrun Hobj Htr.
  apply bind_ok_inv in Hrun as ([emb rd] & s2 & Hloop & Hret).
  apply ret_ok_inv in Hret as [-> ->].
  frame_state Hloop. apply frame_grows in Hframe.
  eapply simple_loop_chain in Hloop.
  destruct Hloop as (outs & new & Hlen & Htr' & Hf).
  unfold HMControlNet.init in Hinit.
  destruct (first_item _) as [c0|] eqn:Hc0; [|discriminate Hinit].
  apply first_item_is_item in Hc0. subst c0.
  cbn [rbind] in Hinit. injection Hinit as <-.
  cbn [HMControlNet.conv_in HMControlNet.exp_proj HMControlNet.face_proj
       HMControlNet.scale_factor HMControlNet.blocks_down
       Conv2d.out_channels Conv2d.padding Conv2d.kernel_size
       TimestepEmbedding.time_embed_dim fst snd] in *.
  close_chain_inputs.
Qed.

Lemma HMV2ControlNet_chain_inputs cfg obj lc ld lf h ret_dict
    B C F HH W b f k b2 f2 r w :
  HMV2ControlNet.init cfg = Ok obj ->
  h !! lc = Some [B; C; F; HH; W] ->
  h !! ld = Some [b; f; k] ->
  h !! lf = Some [b2; f2; r; w] ->
  fst (run (HMV2ControlNet.forward (VTensor lc) (VTensor ld) (VTensor lf))
           obj h) = Ok ret_dict ->
  let out := run (HMV2ControlNet.forward (VTensor lc) (VTensor ld)
                    (VTensor lf)) obj h in
  fusion_chain_inputs (trace (snd out)) (heap (snd out)) "exp_proj"
    (length (cfg_block_out_channels cfg) - 1)
    (entry_feature_map cfg B F HH W)
    (driving_embedding cfg B F r (b * (f * k))).
Proof.
  intros Hinit Hc Hd Hf.
  unfold run. destruct (HMV2ControlNet.forward _ _ _ _) as [res s'] eqn:Hrun.
  cbn zeta. cbn [fst snd]. intros ->.
  rewrite <- (HMV2ControlNet_blocks _ _ Hinit).
  unfold HMV2ControlNet.forward in Hrun. unfold_ops_in Hrun.
  start_both s0 obj h.
  repeat both_step Hrun Hobj Htr.
  apply bind_ok_inv in Hrun as ([emb rd] & s2 & Hloop & Hret).
  apply ret_ok_inv in Hret as [-> ->].
  frame_state Hloop. apply frame_grows in Hframe.
  eapply descending_loop_chain in Hloop.
  destruct Hloop as (outs & new & Hlen & Htr' & Hf).
  unfold HMV2ControlNet.init in Hinit.
  destruct (first_item _) as [c0|] eqn:Hc0; [|discriminate Hinit].
  apply first_item_is_item in Hc0. subst c0.
  cbn [rbind] in Hinit. injection Hinit as <-.
  cbn [HMV2ControlNet.conv_in HMV2ControlNet.exp_proj HMV2ControlNet.face_proj
       HMV2ControlNet.scale_factor HMV2ControlNet.blocks_down
       Conv2d.out_channels Conv2d.padding Conv2d.kernel_size
       TimestepEmbedding.time_embed_dim fst snd] in *.
  close_chain_inputs.
Qed.

Lemma HMV3ControlNet_dual_chain_inputs cfg obj lc ld lf e h ret_dict
    B C F HH W b f k b2 f2 r w :
  HMV3ControlNet.init cfg = Ok obj ->
  h !! lc = Some [B; C; F; HH; W] ->
  h !! ld = Some [b; f; k] ->
  h !! lf = Some [b2; f2; r; w] ->
  fst (run (HMV3ControlNet.forward (VTensor lc) (VTensor ld) (VTensor lf) e)
           obj h) = Ok ret_dict ->
  let out := run (HMV3ControlNet.forward (VTensor lc) (VTensor ld)
                    (VTensor lf) e) obj h in
  fusion_chain_inputs (trace (snd out)) (heap (snd out)) "exp_proj"
    (length (cfg_block_out_channels cfg) - 1)
    (entry_feature_map cfg B F HH W)
    (driving_embedding cfg B F r (b * (f * k))).
Proof.
  intros Hinit Hc Hd Hf.
  unfold run. destruct (HMV3ControlNet.forward _ _ _ _ _) as [res s'] eqn:Hrun.
  cbn zeta. cbn [fst snd]. intros ->.
  rewrite <- (HMV3ControlNet_blocks _ _ Hinit).
  unfold HMV3ControlNet.forward in Hrun. unfold_ops_in Hrun.
  cbn [HMV3ControlNet.is_none orb] in Hrun.
  start_both s0 obj h.
  repeat first [rewrite bind_assoc in Hrun | both_step Hrun Hobj Htr].
  apply bind_ok_inv in Hrun as ([emb rd] & s2 & Hloop & Hret).
  apply ret_ok_inv in Hret as [-> ->].
  frame_state Hloop. apply frame_grows in Hframe.
  eapply HMV3_loop_chain in Hloop.
  destruct Hloop as (outs & new & Hlen & Htr' & Hf).
  unfold HMV3ControlNet.init in Hinit.
  destruct (first_item _) as [c0|] eqn:Hc0; [|discriminate Hinit].
  apply first_item_is_item in Hc0. subst c0.
  cbn [rbind] in Hinit. injection Hinit as <-.
  cbn [HMV3ControlNet.conv_in HMV3ControlNet.exp_proj HMV3ControlNet.face_proj
       HMV3ControlNet.scale_factor HMV3ControlNet.blocks_down
       Conv2d.out_channels Conv2d.padding Conv2d.kernel_size
       TimestepEmbedding.time_embed_dim fst snd] in *.
  close_chain_inputs.
Qed.

Lemma HMControlNet2_chain_inputs cfg obj lc le h ret_dict
    B C F HH W b f k :
  HMControlNet2.init cfg = Ok obj ->
  h !! lc = Some [B; C; F; HH; W] ->
  h !! le = Some [b; f; k] ->
  fst (run (HMControlNet2.forward (VTensor lc) (VTensor le)) obj h)
  = Ok ret_dict ->
  let out := run (HMControlNet2.forward (VTensor lc) (VTensor le)) obj h in
  fusion_chain_inputs (trace (snd out)) (heap (snd out)) "emo_proj"
    (length (cfg_block_out_channels cfg) - 1)
    (entry_feature_map cfg B F HH W)
    (driving_embedding cfg B F 0 (b * (f * k))).
Proof.
  intros Hinit Hc He.
  unfold run. destruct (HMControlNet2.forward _ _ _) as [res s'] eqn:Hrun.
  cbn zeta. cbn [fst snd]. intros ->.
  rewrite <- (HMControlNet2_blocks _ _ Hinit).
  unfold HMControlNet2.forward in Hrun. unfold_ops_in Hrun.
  start_both s0 obj h.
  repeat both_step Hrun Hobj Htr.
  apply bind_ok_inv in Hrun as ([emb rd] & s2 & Hloop & Hret).
  apply ret_ok_inv in Hret as [-> ->].
  frame_state Hloop. apply frame_grows in Hframe.
  eapply simple_loop_chain in Hloop.
  destruct Hloop as (outs & new & Hlen & Htr' & Hf).
  unfold HMControlNet2.init in Hinit.
  destruct (first_item _) as [c0|] eqn:Hc0; [|discriminate Hinit].
  apply first_item_is_item in Hc0. subst c0.
  cbn [rbind] in Hinit. injection Hinit as <-.
  cbn [HMControlNet2.conv_in HMControlNet2.emo_proj
       HMControlNet2.scale_factor HMControlNet2.blocks_down
       Conv2d.out_channels Conv2d.padding Conv2d.kernel_size
       TimestepEmbedding.time_embed_dim fst snd] in *.
  close_chain_inputs.
Qed.

Lemma HMV2ControlNet2_chain_inputs cfg obj lc le h ret_dict
    B C F HH W b f k :
  HMV2ControlNet2.init cfg = Ok obj ->
  h !! lc = Some [B; C; F; HH; W] ->
  h !! le = Some [b; f; k] ->
  fst (run (HMV2ControlNet2.forward (VTensor lc) (VTensor le)) obj h)
  = Ok ret_dict ->
  let out := run (HMV2ControlNet2.forward (VTensor lc) (VTensor le)) obj h in
  fusion_chain_inputs (trace (snd out)) (heap (snd out)) "emo_proj"
    (length (cfg_block_out_channels cfg) - 1)
    (entry_feature_map cfg B F HH W)
    (driving_embedding cfg B F 0 (b * (f * k))).
Proof.
  intros Hinit Hc He.
  unfold run. destruct (HMV2ControlNet2.forward _ _ _) as [res s'] eqn:Hrun.
  cbn zeta. cbn [fst snd]. intros ->.
  rewrite <- (HMV2ControlNet2_blocks _ _ Hinit).
  unfold HMV2ControlNet2.forward in Hrun. unfold_ops_in Hrun.
  start_both s0 obj h.
  repeat both_step Hrun Hobj Htr.
  apply bind_ok_inv in Hrun as ([emb rd] & s2 & Hloop & Hret).
  apply ret_ok_inv in Hret as [-> ->].
  frame_state Hloop. apply frame_grows in Hframe.
  eapply descending_loop_chain in Hloop.
  destruct Hloop as (outs & new & Hlen & Htr' & Hf).
  unfold HMV2ControlNet2.init in Hinit.
  destruct (first_item _) as [c0|] eqn:Hc0; [|discriminate Hinit].
  apply first_item_is_item in Hc0. subst c0.
  cbn [rbind] in Hinit. injection Hinit as <-.
  cbn [HMV2ControlNet2.conv_in HMV2ControlNet2.emo_proj
       HMV2ControlNet2.scale_factor HMV2ControlNet2.blocks_down
       Conv2d.out_channels Conv2d.padding Conv2d.kernel_size
       TimestepEmbedding.time_embed_dim fst snd] in *.
  close_chain_inputs.
Qed.

Lemma HMV3ControlNet_emo_chain_inputs cfg obj lc d f0 le h ret_dict
    B C F HH W b f k :
  HMV3ControlNet.init cfg = Ok obj ->
  HMV3ControlNet.both_supplied d f0 = false ->
  h !! lc = Some [B; C; F; HH; W] ->
  h !! le = Some [b; f; k] ->
  fst (run (HMV3ControlNet.forward (VTensor lc) d f0 (VTensor le)) obj h)
  = Ok ret_dict ->
  let out := run (HMV3ControlNet.forward (VTensor lc) d f0 (VTensor le)) obj h in
  fusion_chain_inputs (trace (snd out)) (heap (snd out)) "emo_proj"
    (length (cfg_block_out_channels cfg) - 1)
    (entry_feature_map cfg B F HH W)
    (driving_embedding cfg B F 0 (b * (f * k))).
Proof.
  intros Hinit Hb Hc He.
  unfold run. destruct (HMV3ControlNet.forward _ _ _ _ _) as [res s'] eqn:Hrun.
  cbn zeta. cbn [fst snd]. intros ->.
  rewrite <- (HMV3ControlNet_blocks _ _ Hinit).
  unfold HMV3ControlNet.forward in Hrun. unfold_ops_in Hrun.
  assert (Hbranch : HMV3ControlNet.is_none d || HMV3ControlNet.is_none f0 = true)
    by (unfold HMV3ControlNet.both_supplied in Hb;
        destruct (HMV3ControlNet.is_none d || HMV3ControlNet.is_none f0);
        [reflexivity | discriminate]).
  rewrite Hbranch in Hrun. clear Hb Hbranch.
  start_both s0 obj h.
  repeat first [rewrite bind_assoc in Hrun | both_step Hrun Hobj Htr].
  apply bind_ok_inv in Hrun as ([emb rd] & s2 & Hloop & Hret).
  apply ret_ok_inv in Hret as [-> ->].
  frame_state Hloop. apply frame_grows in Hframe.
  eapply HMV3_loop_chain in Hloop.
  destruct Hloop as (outs & new & Hlen & Htr' & Hf).
  unfold HMV3ControlNet.init in Hinit.
  destruct (first_item _) as [c0|] eqn:Hc0; [|discriminate Hinit].
  apply first_item_is_item in Hc0. subst c0.
  cbn [rbind] in Hinit. injection Hinit as <-.
  cbn [HMV3ControlNet.conv_in HMV3ControlNet.emo_proj
       HMV3ControlNet.scale_factor HMV3ControlNet.blocks_down
       Conv2d.out_channels Conv2d.padding Conv2d.kernel_size
       TimestepEmbedding.time_embed_dim fst snd] in *.
  close_chain_inputs.
Qed.

End ChainInputs.

(** X16: what enters the fusion chain of the classes driven by expression
    coefficients and face parts.  For a constructed module, a condition of
    shape [(B, C, F, H, W)], coefficients of shape [(b, f, k)] and face
    parts of shape [(b2, f2, r, w)], in a call that returns the fusion
    blocks run in order on the output of [conv_in], of shape
    [(B * F, block_out_channels[0], H // scale_factor, W // scale_factor)],
    and on the output of [exp_proj], of shape
    [(B * F, r + b * f * k / (B * F), cross_attention_dim)]. *)
Theorem dual_signal_chain_inputs `{HMBlocks} cfg lc ld lf h
    B C F HH W b f k b2 f2 r w :
  h !! lc = Some [B; C; F; HH; W] ->
  h !! ld = Some [b; f; k] ->
  h !! lf = Some [b2; f2; r; w] ->
  (forall obj ret_dict,
      HMControlNet.init cfg = Ok obj ->
      fst (run (HMControlNet.forward (VTensor lc) (VTensor ld) (VTensor lf))
               obj h) = Ok ret_dict ->
      let out := run (HMControlNet.forward (VTensor lc) (VTensor ld)
                                           (VTensor lf)) obj h in
      fusion_chain_inputs (trace (snd out)) (heap (snd out)) "exp_proj"
        (length (cfg_block_out_channels cfg) - 1)
        (entry_feature_map cfg B F HH W)
        (driving_embedding cfg B F r (b * (f * k))))
  /\ (forall obj ret_dict,
         HMV2ControlNet.init cfg = Ok obj ->
         fst (run (HMV2ControlNet.forward (VTensor lc) (VTensor ld)
                                          (VTensor lf)) obj h)
         = Ok ret_dict ->
         let out := run (HMV2ControlNet.forward (VTensor lc) (VTensor ld)
                                                (VTensor lf)) obj h in
         fusion_chain_inputs (trace (snd out)) (heap (snd out)) "exp_proj"
           (length (cfg_block_out_channels cfg) - 1)
           (entry_feature_map cfg B F HH W)
           (driving_embedding cfg B F r (b * (f * k))))
  /\ (forall obj e ret_dict,
         HMV3ControlNet.init cfg = Ok obj ->
         fst (run (HMV3ControlNet.forward (VTensor lc) (VTensor ld)
                                          (VTensor lf) e) obj h)
         = Ok ret_dict ->
         let out := run (HMV3ControlNet.forward (VTensor lc) (VTensor ld)
                                                (VTensor lf) e) obj h in
         fusion_chain_inputs (trace (snd out)) (heap (snd out)) "exp_proj"
           (length (cfg_block_out_channels cfg) - 1)
           (entry_feature_map cfg B F HH W)
           (driving_embedding cfg B F r (b * (f * k)))).
Proof.
  intros Hc Hd Hf. split; [|split].
  - intros obj rd Hinit.
    apply (HMControlNet_chain_inputs _ _ _ _ _ _ _ _ _ _ _ _ _ _ _ _ _ _ _
             Hinit Hc Hd Hf).
  - intros obj rd Hinit.
    apply (HMV2ControlNet_chain_inputs _ _ _ _ _ _ _ _ _ _ _ _ _ _ _ _ _ _ _
             Hinit Hc Hd Hf).
  - intros obj e rd Hinit.
    apply (HMV3ControlNet_dual_chain_inputs
             _ _ _ _ _ _ _ _ _ _ _ _ _ _ _ _ _ _ _ _ Hinit Hc Hd Hf).
Qed.

Lemma dual_signal_chain_inputs_witness :
  fusion_chain_inputs
    (trace (snd (run (HMV2ControlNet.forward (H:=spatial_block)
                        (VTensor 0) (VTensor 1) (VTensor 2))
                     default_HMV2ControlNet example_heap)))
    (heap (snd (run (HMV2ControlNet.forward (H:=spatial_block)
                       (VTensor 0) (VTensor 1) (VTensor 2))
                    default_HMV2ControlNet example_heap)))
    "exp_proj" 4 [2; 128; 16; 16] [2; 12; 320].
Proof.
  destruct (dual_signal_chain_inputs (H:=spatial_block)
              HMV2ControlNet.default_config 0 1 2 example_heap
              1 3 2 64 64 1 2 5 1 2 7 1024 eq_refl eq_refl eq_refl)
    as (_ & Hv & _).
  eapply (Hv default_HMV2ControlNet).
  - reflexivity.
  - vm_compute. reflexivity.
Defined.

(** X17: what enters the fusion chain of the emotion-driven classes.  For a
    constructed module, a condition of shape [(B, C, F, H, W)] and an
    emotion embedding of shape [(b, f, k)], in a call that returns the
    fusion blocks run in order on the output of [conv_in], of shape
    [(B * F, block_out_channels[0], H // scale_factor, W // scale_factor)],
    and on the output of [emo_proj], of shape
    [(B * F, b * f * k / (B * F), cross_attention_dim)]. *)
Theorem emotion_signal_chain_inputs `{HMBlocks} cfg lc le h
    B C F HH W b f k :
  h !! lc = Some [B; C; F; HH; W] ->
  h !! le = Some [b; f; k] ->
  (forall obj ret_dict,
      HMControlNet2.init cfg = Ok obj ->
      fst (run (HMControlNet2.forward (VTensor lc) (VTensor le)) obj h)
      = Ok ret_dict ->
      let out := run (HMControlNet2.forward (VTensor lc) (VTensor le))
                     obj h in
      fusion_chain_inputs (trace (snd out)) (heap (snd out)) "emo_proj"
        (length (cfg_block_out_channels cfg) - 1)
        (entry_feature_map cfg B F HH W)
        (driving_embedding cfg B F 0 (b * (f * k))))
  /\ (forall obj ret_dict,
         HMV2ControlNet2.init cfg = Ok obj ->
         fst (run (HMV2ControlNet2.forward (VTensor lc) (VTensor le)) obj h)
         = Ok ret_dict ->
         let out := run (HMV2ControlNet2.forward (VTensor lc) (VTensor le))
                        obj h in
         fusion_chain_inputs (trace (snd out)) (heap (snd out)) "emo_proj"
           (length (cfg_block_out_channels cfg) - 1)
           (entry_feature_map cfg B F HH W)
           (driving_embedding cfg B F 0 (b * (f * k))))
  /\ (forall obj d f0 ret_dict,
         HMV3ControlNet.init cfg = Ok obj ->
         HMV3ControlNet.both_supplied d f0 = false ->
         fst (run (HMV3ControlNet.forward (VTensor lc) d f0 (VTensor le))
                  obj h) = Ok ret_dict ->
         let out := run (HMV3ControlNet.forward (VTensor lc) d f0
                                                (VTensor le)) obj h in
         fusion_chain_inputs (trace (snd out)) (heap (snd out)) "emo_proj"
           (length (cfg_block_out_channels cfg) - 1)
           (entry_feature_map cfg B F HH W)
           (driving_embedding cfg B F 0 (b * (f * k)))).
Proof.
  intros Hc He. split; [|split].
  - intros obj rd Hinit.
    apply (HMControlNet2_chain_inputs _ _ _ _ _ _ _ _ _ _ _ _ _ _
             Hinit Hc He).
  - intros obj rd Hinit.
    apply (HMV2ControlNet2_chain_inputs _ _ _ _ _ _ _ _ _ _ _ _ _ _
             Hinit Hc He).
  - intros obj d f0 rd Hinit Hb.
    apply (HMV3ControlNet_emo_chain_inputs _ _ _ _ _ _ _ _ _ _ _ _ _ _ _ _
             Hinit Hb Hc He).
Qed.

Lemma emotion_signal_chain_inputs_witness :
  fusion_chain_inputs
    (trace (snd (run (HMControlNet2.forward (H:=spatial_block)
                        (VTensor 0) (VTensor 3))
                     default_HMControlNet2 example_heap)))
    (heap (snd (run (HMControlNet2.forward (H:=spatial_block)
                       (VTensor 0) (VTensor 3))
                    default_HMControlNet2 example_heap)))
    "emo_proj" 3 [2; 128; 8; 8] [2; 4; 320].
Proof.
  destruct (emotion_signal_chain_inputs (H:=spatial_block)
              HMControlNet2.default_config 0 3 example_heap
              1 3 2 64 64 1 2 4 eq_refl eq_refl)
    as (Hv & _).
  eapply (Hv default_HMControlNet2).
  - reflexivity.
  - vm_compute. reflexivity.
Defined.
